(** * Scraper pipeline: serializer, parser and normalizer

    A shallow embedding of the text-dump pipeline of the repository:
    - [simple_web_scraper.py] / [simple_web_scraper_headless.py]:
      the text dump written by [scrape_website] and the batch loop
      [scrape_multiple_websites];
    - [preprocess_scraped_data.py]: [parse_scraped_content],
      [clean_text], [preprocess_content] and [process_all_files].

    Python [str] values are modelled as lists of characters.  A character
    is an [ascii], read as the code point of the same number, so the model
    covers text over the code points 0..255; the character classes below
    are the ones Python uses for these code points. *)

From Stdlib Require Import String Ascii.
From Stdlib Require Import List Bool Arith ZArith Lia.
From Stdlib Require Decimal DecimalNat QArith.
Import ListNotations.

Local Open Scope list_scope.
Local Open Scope char_scope.
Local Open Scope nat_scope.

(* ================================================================== *)
(** * Python strings *)
(* ================================================================== *)

Abbreviation str := (list ascii).

(** A literal of the source. *)
Definition lit (s : String.string) : str := String.list_ascii_of_string s.
Arguments lit s%_string.

Definition nl : ascii := "010".
Definition dquote : ascii := "034".

Definition code (c : ascii) : nat := nat_of_ascii c.

Definition between (lo hi n : nat) : bool := (lo <=? n) && (n <=? hi).

(** [str.isspace], which is also the class [\s] of [re] on [str]. *)
Definition is_space (c : ascii) : bool :=
  existsb (Nat.eqb (code c)) [9; 10; 11; 12; 13; 28; 29; 30; 31; 32; 133; 160].

(** The class [\d]. *)
Definition is_digit (c : ascii) : bool := between 48 57 (code c).

(** The class [\w]: alphanumeric code points and the underscore. *)
Definition is_word (c : ascii) : bool :=
  let n := code c in
  between 48 57 n || between 65 90 n || (n =? 95) || between 97 122 n
  || existsb (Nat.eqb n) [170; 178; 179; 181; 185; 186; 188; 189; 190]
  || between 192 214 n || between 216 246 n || between 248 255 n.

Definition in_chars (cs : str) (c : ascii) : bool :=
  existsb (Ascii.eqb c) cs.

Fixpoint str_eqb (a b : str) : bool :=
  match a, b with
  | [], [] => true
  | x :: a', y :: b' => Ascii.eqb x y && str_eqb a' b'
  | _, _ => false
  end.

(** [s.startswith(p)] *)
Fixpoint starts_with (p s : str) : bool :=
  match p, s with
  | [], _ => true
  | x :: p', y :: s' => Ascii.eqb x y && starts_with p' s'
  | _ :: _, [] => false
  end.

(** The rest of [s] after the prefix [p], when [s] starts with [p]. *)
Fixpoint strip_prefix (p s : str) : option str :=
  match p, s with
  | [], _ => Some s
  | x :: p', y :: s' => if Ascii.eqb x y then strip_prefix p' s' else None
  | _ :: _, [] => None
  end.

(** [p in s] for strings: [p] starts at some position of [s]. *)
Fixpoint occurs (p s : str) : bool :=
  starts_with p s ||
  match s with
  | [] => false
  | _ :: s' => occurs p s'
  end.

Fixpoint drop_while (f : ascii -> bool) (s : str) : str :=
  match s with
  | [] => []
  | c :: s' => if f c then drop_while f s' else s
  end.

Fixpoint take_while (f : ascii -> bool) (s : str) : str :=
  match s with
  | [] => []
  | c :: s' => if f c then c :: take_while f s' else []
  end.

Definition lstrip (s : str) : str := drop_while is_space s.

Fixpoint rstrip (s : str) : str :=
  match s with
  | [] => []
  | c :: s' =>
      match rstrip s' with
      | [] => if is_space c then [] else [c]
      | r => c :: r
      end
  end.

(** [s.strip()] *)
Definition strip (s : str) : str := rstrip (lstrip s).

(** [s.split(c)] for a one-character separator. *)
Fixpoint split_char (c : ascii) (s : str) : list str :=
  match s with
  | [] => [[]]
  | x :: s' =>
      if Ascii.eqb x c then [] :: split_char c s'
      else match split_char c s' with
           | [] => [[x]]
           | l :: ls => (x :: l) :: ls
           end
  end.

(** [s.split(c, 1)] when [c in s]: the text before the first [c] and the
    text after it. *)
Fixpoint partition_char (c : ascii) (s : str) : option (str * str) :=
  match s with
  | [] => None
  | x :: s' =>
      if Ascii.eqb x c then Some ([], s')
      else match partition_char c s' with
           | Some (a, b) => Some (x :: a, b)
           | None => None
           end
  end.

(** [s.split('->')]: the pieces between the non-overlapping occurrences of
    the token, scanned from the left. *)
Fixpoint split_arrow (s : str) : list str :=
  match s with
  | [] => [[]]
  | x :: s' =>
      match s' with
      | y :: s'' =>
          if Ascii.eqb x "-" && Ascii.eqb y ">" then [] :: split_arrow s''
          else match split_arrow s' with
               | [] => [[x]]
               | l :: ls => (x :: l) :: ls
               end
      | [] => [[x]]
      end
  end.

(** [s.split()]: the maximal runs of non-space characters. *)
Fixpoint words_aux (cur : str) (s : str) : list str :=
  match s with
  | [] => match cur with [] => [] | _ => [rev cur] end
  | c :: s' =>
      if is_space c
      then match cur with [] => words_aux [] s' | _ => rev cur :: words_aux [] s' end
      else words_aux (c :: cur) s'
  end.

Definition words (s : str) : list str := words_aux [] s.

(** [sep.join(xs)] *)
Fixpoint join (sep : str) (xs : list str) : str :=
  match xs with
  | [] => []
  | [x] => x
  | x :: xs' => x ++ sep ++ join sep xs'
  end.

(** [s.upper()]: the letters a-z and the lower-case letters of Latin-1
    move down by 32.  The three code points whose upper case lies outside
    0..255 (181, 223 and 255) are left as they are; tag names do not
    contain them. *)
Definition upper_char (c : ascii) : ascii :=
  let n := code c in
  if between 97 122 n || between 224 246 n || between 248 254 n
  then ascii_of_nat (n - 32) else c.

Definition upper (s : str) : str := map upper_char s.

(** [str(n)] and [int(s)] for decimal digit strings. *)
Fixpoint chars_of_uint (d : Decimal.uint) : str :=
  match d with
  | Decimal.Nil => []
  | Decimal.D0 d' => "0" :: chars_of_uint d'
  | Decimal.D1 d' => "1" :: chars_of_uint d'
  | Decimal.D2 d' => "2" :: chars_of_uint d'
  | Decimal.D3 d' => "3" :: chars_of_uint d'
  | Decimal.D4 d' => "4" :: chars_of_uint d'
  | Decimal.D5 d' => "5" :: chars_of_uint d'
  | Decimal.D6 d' => "6" :: chars_of_uint d'
  | Decimal.D7 d' => "7" :: chars_of_uint d'
  | Decimal.D8 d' => "8" :: chars_of_uint d'
  | Decimal.D9 d' => "9" :: chars_of_uint d'
  end.

Fixpoint uint_of_chars (s : str) : Decimal.uint :=
  match s with
  | [] => Decimal.Nil
  | c :: s' =>
      let d := uint_of_chars s' in
      match code c - 48 with
      | 0 => Decimal.D0 d | 1 => Decimal.D1 d | 2 => Decimal.D2 d
      | 3 => Decimal.D3 d | 4 => Decimal.D4 d | 5 => Decimal.D5 d
      | 6 => Decimal.D6 d | 7 => Decimal.D7 d | 8 => Decimal.D8 d
      | _ => Decimal.D9 d
      end
  end.

Definition str_of_nat (n : nat) : str := chars_of_uint (Nat.to_uint n).
Definition int_of_str (s : str) : nat := Nat.of_uint (uint_of_chars s).

Definition nonempty (s : str) : bool :=
  match s with [] => false | _ :: _ => true end.

(* ================================================================== *)
(** * The regular expressions of the parser *)
(* ================================================================== *)

Notation "'do' x <- a ; b" :=
  (match a with Some x => b | None => None end)
  (at level 10, x pattern, a at level 100, b at level 200).

(** [label(.+)] searched with [re.search]: the leftmost position where the
    label is followed by a character other than a newline; the group is
    the rest of that line. *)
Fixpoint search_line (lab s : str) : option str :=
  match s with
  | [] => None
  | _ :: s' =>
      match strip_prefix lab s with
      | Some (d :: r) =>
          if Ascii.eqb d nl then search_line lab s'
          else Some (take_while (fun c => negb (Ascii.eqb c nl)) (d :: r))
      | _ => search_line lab s'
      end
  end.

(** The text after the leftmost occurrence of a literal. *)
Fixpoint find_after (lab s : str) : option str :=
  match strip_prefix lab s with
  | Some r => Some r
  | None =>
      match s with
      | [] => None
      | _ :: s' => find_after lab s'
      end
  end.

(** [$] without MULTILINE: the end of the input, or just before a newline
    that ends the input. *)
Definition at_dollar (s : str) : bool :=
  match s with
  | [] => true
  | [c] => Ascii.eqb c nl
  | _ => false
  end.

(** The lookahead [(?=\n\n|L1|...|Ln|$)]. *)
Definition lookahead (stops : list str) (s : str) : bool :=
  starts_with [nl; nl] s || existsb (fun p => starts_with p s) stops || at_dollar s.

(** The lazy group [(.*?)] under DOTALL in front of that lookahead: the
    shortest text that ends where the lookahead holds. *)
Fixpoint lazy_until (stops : list str) (s : str) : str :=
  if lookahead stops s then []
  else match s with
       | [] => []
       | c :: s' => c :: lazy_until stops s'
       end.

(** [re.search(label + r'(.*?)(?=\n\n|L1|...|$)', content, re.DOTALL)],
    group 1.  The lookahead holds at the end of the input at the latest,
    so the match succeeds at the leftmost occurrence of the label. *)
Definition search_block (lab : str) (stops : list str) (content : str) : option str :=
  do r <- find_after lab content; Some (lazy_until stops r).

(** A greedy [(\d+)]; what follows it in the pattern never starts with a
    digit, so the longest run of digits is the only candidate. *)
Definition digits1 (s : str) : option (str * str) :=
  match take_while is_digit s with
  | [] => None
  | ds => Some (ds, drop_while is_digit s)
  end.

Definition FULL_TEXT_LENGTH : str := lit "FULL TEXT LENGTH: ".
Definition CHARACTERS : str := lit " characters".
Definition TOTAL_HEADINGS : str := lit "TOTAL HEADINGS: ".
Definition TOTAL_PARAGRAPHS : str := lit "TOTAL PARAGRAPHS: ".
Definition TOTAL_LINKS : str := lit "TOTAL LINKS: ".
Definition TOTAL_IMAGES : str := lit "TOTAL IMAGES: ".

(** The five-line statistics pattern matched at the head of [s]. *)
Definition stats_at (s : str) : option (str * str * str * str * str) :=
  do r <- strip_prefix FULL_TEXT_LENGTH s;
  do (g1, r) <- digits1 r;
  do r <- strip_prefix (CHARACTERS ++ [nl] ++ TOTAL_HEADINGS) r;
  do (g2, r) <- digits1 r;
  do r <- strip_prefix ([nl] ++ TOTAL_PARAGRAPHS) r;
  do (g3, r) <- digits1 r;
  do r <- strip_prefix ([nl] ++ TOTAL_LINKS) r;
  do (g4, r) <- digits1 r;
  do r <- strip_prefix ([nl] ++ TOTAL_IMAGES) r;
  do (g5, _) <- digits1 r;
  Some (g1, g2, g3, g4, g5).

(** [re.search] of the statistics pattern: the leftmost match. *)
Fixpoint stats_search (s : str) : option (str * str * str * str * str) :=
  match stats_at s with
  | Some g => Some g
  | None =>
      match s with
      | [] => None
      | _ :: s' => stats_search s'
      end
  end.

(** [re.sub(r'^\d+\.\s*', '', s)] *)
Definition strip_enum (s : str) : str :=
  match digits1 s with
  | Some (_, c :: r) => if Ascii.eqb c "." then drop_while is_space r else s
  | _ => s
  end.

(* ================================================================== *)
(** * Data model *)
(* ================================================================== *)

Record Heading := mkHeading { level : str; text : str }.
Record Link := mkLink { link_text : str; href : str }.
Record Image := mkImage { src : str; alt : str; img_title : str }.

(** A Python [dict] with string keys: the bindings in insertion order.
    Assigning to a key that is present replaces its value in place. *)
Definition dict (V : Type) := list (str * V).

Fixpoint dict_get {V} (k : str) (d : dict V) : option V :=
  match d with
  | [] => None
  | (k', v) :: d' => if str_eqb k k' then Some v else dict_get k d'
  end.

Fixpoint dict_set {V} (k : str) (v : V) (d : dict V) : dict V :=
  match d with
  | [] => [(k, v)]
  | (k', v') :: d' =>
      if str_eqb k k' then (k', v) :: d' else (k', v') :: dict_set k v d'
  end.

(** The [data] dictionary built by [scrape_website]. *)
Record ScrapedData := mkScraped {
  s_url : str;
  s_title : str;
  s_headings : list Heading;
  s_paragraphs : list str;
  s_links : list Link;
  s_images : list Image;
  s_meta_tags : dict str;
  s_abstract : option str;
  s_full_text : str
}.

(** The dictionary returned by [parse_scraped_content]. *)
Record ParsedData := mkParsed {
  url : str;
  title : str;
  abstract : str;
  headings : list Heading;
  paragraphs : list str;
  links : list Link;
  meta_tags : dict str;
  statistics : dict nat
}.

(** [average_paragraph_length] is the float nearest to the quotient kept
    here exactly. *)
Record ProcessedStats := mkStats {
  clean_headings_count : nat;
  clean_paragraphs_count : nat;
  clean_links_count : nat;
  average_paragraph_length : QArith_base.Q;
  total_words : nat;
  processing_timestamp : str
}.

(** The dictionary returned by [preprocess_content]: the keys of
    [ParsedData] and [processed_stats]. *)
Record ProcessedData := mkProcessed {
  p_url : str;
  p_title : str;
  p_abstract : str;
  p_headings : list Heading;
  p_paragraphs : list str;
  p_links : list Link;
  p_meta_tags : dict str;
  p_statistics : dict nat;
  processed_stats : ProcessedStats
}.

(** A processed dictionary read as the argument of [preprocess_content],
    which looks up the eight keys of [ParsedData] only. *)
Definition as_parsed (p : ProcessedData) : ParsedData :=
  mkParsed (p_url p) (p_title p) (p_abstract p) (p_headings p)
           (p_paragraphs p) (p_links p) (p_meta_tags p) (p_statistics p).

(** An attribute map of a [<meta>] element, as [get_meta_tags] reads it. *)
Record MetaElement := mkMeta {
  attr_name : option str;
  attr_property : option str;
  attr_content : option str
}.

Definition get_or_empty (o : option str) : str :=
  match o with Some s => s | None => [] end.

(** [get_meta_tags] *)
Definition get_meta_tags (metas : list MetaElement) : dict str :=
  fold_left
    (fun m e =>
       let name := match attr_name e with
                   | Some n => n
                   | None => get_or_empty (attr_property e)
                   end in
       let content := get_or_empty (attr_content e) in
       if nonempty name && nonempty content then dict_set name content m else m)
    metas [].

(* ================================================================== *)
(** * Serializer: the text dump of [scrape_website] *)
(* ================================================================== *)

(** The labels that open the blocks, as the serializer writes them and as
    the patterns of the parser spell them. *)
Definition ABSTRACT_LABEL : str := lit "ABSTRACT:" ++ [nl].
Definition HEADINGS_LABEL : str := lit "HEADINGS:" ++ [nl].
Definition PARAGRAPHS_LABEL : str := lit "PARAGRAPHS:" ++ [nl].
Definition LINKS_LABEL : str := lit "LINKS (first 20):" ++ [nl].
Definition META_LABEL : str := lit "META TAGS:" ++ [nl].

Definition banner : str :=
  lit "WEBSITE SCRAPED DATA" ++ [nl] ++ repeat "=" 50 ++ [nl; nl].

(** [enumerate(xs, 1)] *)
Definition enumerate1 {A} (xs : list A) : list (nat * A) :=
  combine (seq 1 (length xs)) xs.

Definition heading_line (h : Heading) : str :=
  upper (level h) ++ lit ": " ++ text h ++ [nl].

Definition paragraph_entry (ip : nat * str) : str :=
  str_of_nat (fst ip) ++ lit ". " ++ snd ip ++ [nl; nl].

Definition link_entry (il : nat * Link) : str :=
  str_of_nat (fst il) ++ lit ". " ++ link_text (snd il) ++ lit " -> "
  ++ href (snd il) ++ [nl].

Definition meta_line (kv : str * str) : str :=
  fst kv ++ lit ": " ++ snd kv ++ [nl].

Definition paragraph_entries (d : ScrapedData) : list str :=
  map paragraph_entry (enumerate1 (firstn 20 (s_paragraphs d))).

Definition link_entries (d : ScrapedData) : list str :=
  map link_entry (enumerate1 (firstn 20 (s_links d))).

Definition abstract_block (d : ScrapedData) : str :=
  match s_abstract d with
  | Some (c :: a) => ABSTRACT_LABEL ++ (c :: a) ++ [nl; nl]
  | _ => []
  end.

Definition headings_block (d : ScrapedData) : str :=
  match s_headings d with
  | [] => []
  | hs => HEADINGS_LABEL ++ concat (map heading_line hs) ++ [nl]
  end.

Definition paragraphs_block (d : ScrapedData) : str :=
  match s_paragraphs d with
  | [] => []
  | _ => PARAGRAPHS_LABEL ++ concat (paragraph_entries d)
  end.

Definition links_block (d : ScrapedData) : str :=
  match s_links d with
  | [] => []
  | _ => LINKS_LABEL ++ concat (link_entries d) ++ [nl]
  end.

Definition meta_block (d : ScrapedData) : str :=
  match s_meta_tags d with
  | [] => []
  | ms => META_LABEL ++ concat (map meta_line ms) ++ [nl]
  end.

Definition stats_block (d : ScrapedData) : str :=
  FULL_TEXT_LENGTH ++ str_of_nat (length (s_full_text d)) ++ CHARACTERS ++ [nl]
  ++ TOTAL_HEADINGS ++ str_of_nat (length (s_headings d)) ++ [nl]
  ++ TOTAL_PARAGRAPHS ++ str_of_nat (length (s_paragraphs d)) ++ [nl]
  ++ TOTAL_LINKS ++ str_of_nat (length (s_links d)) ++ [nl]
  ++ TOTAL_IMAGES ++ str_of_nat (length (s_images d)) ++ [nl].

(** Everything [scrape_website] writes to the [.txt] file, in order. *)
Definition text_dump (d : ScrapedData) : str :=
  banner
  ++ lit "URL: " ++ s_url d ++ [nl]
  ++ lit "Title: " ++ s_title d ++ [nl; nl]
  ++ abstract_block d
  ++ headings_block d
  ++ paragraphs_block d
  ++ links_block d
  ++ meta_block d
  ++ stats_block d.

(* ================================================================== *)
(** * Parser: [parse_scraped_content] *)
(* ================================================================== *)

Definition parse_headings (headings_text : str) : list Heading :=
  flat_map
    (fun line =>
       match partition_char ":" line with
       | Some (lv, tx) => [mkHeading (strip lv) (strip tx)]
       | None => []
       end)
    (split_char nl headings_text).

Definition parse_paragraphs (paragraphs_text : str) : list str :=
  flat_map
    (fun line =>
       if nonempty (strip line)
          && negb (starts_with (lit "FULL TEXT") line || starts_with (lit "TOTAL") line)
       then match strip_enum (strip line) with
            | [] => []
            | clean_para => [clean_para]
            end
       else [])
    (split_char nl paragraphs_text).

(** One line of the links block: a link when the line splits at [->]
    into exactly two parts. *)
Definition parse_link_line (line : str) : option Link :=
  if occurs (lit "->") line then
    match split_arrow line with
    | [p0; p1] => Some (mkLink (strip_enum (strip p0)) (strip p1))
    | _ => None
    end
  else None.

Definition parse_links (links_text : str) : list Link :=
  flat_map
    (fun line => match parse_link_line line with Some l => [l] | None => [] end)
    (split_char nl links_text).

(** The loop over the lines of the meta block.  Its tuple assignment
    [name, content = line.split(':', 1)] rebinds the local [content],
    which is the text being parsed; the second component is the value of
    [content] after the loop. *)
Definition parse_meta (content : str) (meta_text : str) : dict str * str :=
  fold_left
    (fun (st : dict str * str) line =>
       match partition_char ":" line with
       | Some (name, c) => (dict_set (strip name) (strip c) (fst st), c)
       | None => st
       end)
    (split_char nl meta_text) ([], content).

Definition stats_dict (g : str * str * str * str * str) : dict nat :=
  let '(g1, g2, g3, g4, g5) := g in
  [ (lit "full_text_length", int_of_str g1);
    (lit "total_headings", int_of_str g2);
    (lit "total_paragraphs", int_of_str g3);
    (lit "total_links", int_of_str g4);
    (lit "total_images", int_of_str g5) ].

Definition parse_scraped_content (content : str) : ParsedData :=
  let url :=
    match search_line (lit "URL: ") content with
    | Some g => strip g
    | None => []
    end in
  let title :=
    match search_line (lit "Title: ") content with
    | Some g => strip g
    | None => []
    end in
  let abstract :=
    match search_block ABSTRACT_LABEL [lit "HEADINGS:"] content with
    | Some g => strip g
    | None => []
    end in
  let headings :=
    match search_block HEADINGS_LABEL [lit "PARAGRAPHS:"] content with
    | Some g => parse_headings (strip g)
    | None => []
    end in
  let paragraphs :=
    match search_block PARAGRAPHS_LABEL [lit "LINKS:"; lit "META TAGS:"] content with
    | Some g => parse_paragraphs (strip g)
    | None => []
    end in
  let links :=
    match search_block LINKS_LABEL [lit "META TAGS:"] content with
    | Some g => parse_links (strip g)
    | None => []
    end in
  let '(meta_tags, content) :=
    match search_block META_LABEL [lit "FULL TEXT"] content with
    | Some g => parse_meta content (strip g)
    | None => ([], content)
    end in
  let statistics :=
    match stats_search content with
    | Some g => stats_dict g
    | None => []
    end in
  mkParsed url title abstract headings paragraphs links meta_tags statistics.

(* ================================================================== *)
(** * Normalizer: [clean_text] and [preprocess_content] *)
(* ================================================================== *)

(** [re.sub(r'\s+', ' ', s)]; [in_run] tells that the previous character
    was part of the run of spaces being replaced. *)
Fixpoint collapse_from (in_run : bool) (s : str) : str :=
  match s with
  | [] => []
  | c :: s' =>
      if is_space c
      then if in_run then collapse_from true s' else " " :: collapse_from true s'
      else c :: collapse_from false s'
  end.

Definition collapse_ws (s : str) : str := collapse_from false s.

(** The characters kept by the second [re.sub] of [clean_text]: word
    characters, spaces, and the punctuation - . , ! ? ; : ( ) [ ] { },
    the apostrophe and the double quote. *)
Definition allowed (c : ascii) : bool :=
  is_word c || is_space c || in_chars (lit "-.,!?;:()[]{}'" ++ [dquote]) c.

Definition clean_text (text : str) : str :=
  match text with
  | [] => []
  | _ => strip (collapse_ws (filter allowed (collapse_ws text)))
  end.

Fixpoint clean_headings (hs : list Heading) : list Heading :=
  match hs with
  | [] => []
  | heading :: hs' =>
      let cleaned_text := clean_text (text heading) in
      if nonempty cleaned_text
      then mkHeading (level heading) cleaned_text :: clean_headings hs'
      else clean_headings hs'
  end.

(** The paragraph loop; [seen] is the set [seen_paragraphs]. *)
Fixpoint clean_paragraphs (seen : list str) (ps : list str) : list str :=
  match ps with
  | [] => []
  | para :: ps' =>
      let cleaned_para := clean_text para in
      if nonempty cleaned_para && (10 <? length cleaned_para)
         && negb (existsb (str_eqb cleaned_para) seen)
      then cleaned_para :: clean_paragraphs (cleaned_para :: seen) ps'
      else clean_paragraphs seen ps'
  end.

Fixpoint clean_links (ls : list Link) : list Link :=
  match ls with
  | [] => []
  | link :: ls' =>
      let cleaned_text := clean_text (link_text link) in
      if nonempty cleaned_text
      then mkLink cleaned_text (href link) :: clean_links ls'
      else clean_links ls'
  end.

(** [d.copy() if d else {}] *)
Definition copy_or_empty {V} (d : dict V) : dict V :=
  match d with
  | [] => []
  | _ => d
  end.

Definition sum_lengths (ps : list str) : nat :=
  fold_right (fun p acc => length p + acc) 0 ps.

Definition make_stats (now : str) (hs : list Heading) (ps : list str)
    (ls : list Link) : ProcessedStats :=
  mkStats (length hs) (length ps) (length ls)
          (QArith_base.Qmake (Z.of_nat (sum_lengths ps))
                             (Pos.of_nat (Nat.max (length ps) 1)))
          (length (words (join [" "] ps)))
          now.

(** [now] is the reading of [datetime.now()] taken by the call. *)
Definition preprocess_content (now : str) (parsed_data : ParsedData) : ProcessedData :=
  let hs := clean_headings (headings parsed_data) in
  let ps := clean_paragraphs [] (paragraphs parsed_data) in
  let ls := clean_links (links parsed_data) in
  mkProcessed (url parsed_data)
              (clean_text (title parsed_data))
              (clean_text (abstract parsed_data))
              hs ps ls
              (meta_tags parsed_data)
              (copy_or_empty (statistics parsed_data))
              (make_stats now hs ps ls).

(* ================================================================== *)
(** * Batch drivers *)
(* ================================================================== *)

(** The result of a call that may raise. *)
Inductive outcome (A : Type) : Type :=
| Returned (a : A)
| Raised.
Arguments Returned {A} a.
Arguments Raised {A}.

(** The locals of [scrape_multiple_websites], and the URLs handed to
    [scrape_website] so far. *)
Record BatchState := mkBatch {
  results : list ScrapedData;
  successful : nat;
  failed : nat;
  fetched : list str
}.

Section Scraping.

(** The page load and the extraction of [scrape_website], with the two
    files it writes: [None] when any of it raises. *)
Variable render : str -> option ScrapedData.

(** [simple_web_scraper.py]: nothing is caught. *)
Definition scrape_website (u : str) : outcome (option ScrapedData) :=
  match render u with
  | Some d => Returned (Some d)
  | None => Raised
  end.

(** [simple_web_scraper_headless.py]: [except Exception: return None]. *)
Definition scrape_website_headless (u : str) : outcome (option ScrapedData) :=
  Returned (render u).

(** The [for] loop of [scrape_multiple_websites], the same in both
    files; the flag tells that an exception left the loop. *)
Fixpoint batch_loop (scrape : str -> outcome (option ScrapedData))
    (st : BatchState) (urls : list str) : BatchState * bool :=
  match urls with
  | [] => (st, false)
  | u :: rest =>
      let st := mkBatch (results st) (successful st) (failed st) (fetched st ++ [u]) in
      match scrape u with
      | Raised => (st, true)
      | Returned (Some result) =>
          batch_loop scrape
            (mkBatch (results st ++ [result]) (S (successful st)) (failed st) (fetched st))
            rest
      | Returned None =>
          batch_loop scrape
            (mkBatch (results st) (successful st) (S (failed st)) (fetched st))
            rest
      end
  end.

Definition scrape_multiple_websites (urls : list str) : BatchState * bool :=
  batch_loop scrape_website (mkBatch [] 0 0 []) urls.

Definition scrape_multiple_websites_headless (urls : list str) : BatchState * bool :=
  batch_loop scrape_website_headless (mkBatch [] 0 0 []) urls.

End Scraping.

(** [int(s)] raises [ValueError] when [s] has more digits than
    [sys.get_int_max_str_digits()], 4300 by default (Python 3.11). *)
Definition MAX_STR_DIGITS : nat := 4300.

Definition int_raises (s : str) : bool := MAX_STR_DIGITS <? length s.

(** The text the statistics pattern is searched in: the local [content]
    as the loop over the meta block leaves it. *)
Definition stats_text (content : str) : str :=
  match search_block META_LABEL [lit "FULL TEXT"] content with
  | Some g => snd (parse_meta content (strip g))
  | None => content
  end.

(** [parse_scraped_content] raises when one of the five calls of [int]
    on the groups of the statistics pattern does; nothing else in it
    can. *)
Definition parse_raises (content : str) : bool :=
  match stats_search (stats_text content) with
  | Some (g1, g2, g3, g4, g5) => existsb int_raises [g1; g2; g3; g4; g5]
  | None => false
  end.

(** The counters of [process_all_files], the files handed to
    [read_txt_file] and the documents handed to [save_processed_data]. *)
Record Progress := mkProgress {
  processed_count : nat;
  failed_count : nat;
  visited : list str;
  saved : list (str * ProcessedData)
}.

Section Preprocessing.

(** The content of a file; [None] when opening or reading it raises. *)
Variable fs : str -> option str.
(** The clock reading at the n-th file of the run. *)
Variable clock : nat -> str.

Definition read_txt_file (file_path : str) : str :=
  match fs file_path with
  | Some content => content
  | None => []
  end.

(** The body of the [for] loop stands in [try ... except Exception]: a
    file whose content is empty, or whose parse raises, is counted as
    failed and nothing is saved for it. *)
Fixpoint process_loop (st : Progress) (txt_files : list str) : Progress :=
  match txt_files with
  | [] => st
  | txt_file :: rest =>
      let content := read_txt_file txt_file in
      match content with
      | [] =>
          process_loop
            (mkProgress (processed_count st) (S (failed_count st))
                        (visited st ++ [txt_file]) (saved st))
            rest
      | _ =>
          if parse_raises content
          then
            process_loop
              (mkProgress (processed_count st) (S (failed_count st))
                          (visited st ++ [txt_file]) (saved st))
              rest
          else
            let parsed_data := parse_scraped_content content in
            let processed_data :=
              preprocess_content (clock (length (visited st))) parsed_data in
            process_loop
              (mkProgress (S (processed_count st)) (failed_count st)
                          (visited st ++ [txt_file])
                          (saved st ++ [(txt_file, processed_data)]))
              rest
      end
  end.

Definition process_all_files (txt_files : list str) : Progress :=
  process_loop (mkProgress 0 0 [] []) txt_files.

End Preprocessing.

(* ================================================================== *)
(** * Predicates used in the statements *)
(* ================================================================== *)

(** [s] does not start with a space. *)
Definition no_lead (s : str) : Prop :=
  match s with
  | [] => True
  | c :: _ => is_space c = false
  end.

(** [tidy b s]: every space of [s] is a single blank that follows a
    character which is not a space ([b] tells that a space precedes [s]). *)
Fixpoint tidy (after_space : bool) (s : str) : Prop :=
  match s with
  | [] => True
  | c :: s' =>
      if is_space c then after_space = false /\ c = " " /\ tidy true s'
      else tidy false s'
  end.

(** What the paragraph loop leaves: cleaned texts of more than ten
    characters, none of them in [seen] and no two of them equal. *)
Inductive kept : list str -> list str -> Prop :=
| kept_nil seen : kept seen []
| kept_cons seen p ps :
    clean_text p = p -> nonempty p = true -> (10 <? length p) = true ->
    existsb (str_eqb p) seen = false ->
    kept (p :: seen) ps ->
    kept seen (p :: ps).

(** [s] has no newline. *)
Definition oneline (s : str) : bool :=
  forallb (fun c => negb (Ascii.eqb c nl)) s.

(** The separator token of the links block. *)
Definition ARROW : str := lit "->".

(** The per-line step of [parse_links]. *)
Definition link_of_line (line : str) : list Link :=
  match parse_link_line line with
  | Some l => [l]
  | None => []
  end.

(** ** Concrete documents used in the examples *)

(** A page whose only meta element is an Open Graph one:
    [<meta property="og:title" content="Home page">]. *)
Definition og_page : ScrapedData :=
  mkScraped (lit "https://example.com") (lit "Home") [] [] [] []
            (get_meta_tags
               [mkMeta None (Some (lit "og:title")) (Some (lit "Home page"))])
            None (lit "Home").

(** A page with a [description] meta element. *)
Definition described_page : ScrapedData :=
  mkScraped (lit "https://example.com") (lit "Home") [] [] [] []
            (get_meta_tags
               [mkMeta (Some (lit "description")) None (Some (lit "A page"))])
            None (lit "Home").

(** A site that is down and a site that answers. *)
Definition one_site_down (u : str) : option ScrapedData :=
  if str_eqb u (lit "https://up.example")
  then Some (mkScraped u (lit "Up") [] [] [] [] [] None (lit "Up"))
  else None.

Definition two_urls : list str :=
  [lit "https://down.example"; lit "https://up.example"].

(** ** Positions of a label in a text *)

(** [lab] starts at no position of [u] in the text [u ++ rest]: if [lab]
    occurs in [u ++ rest], it starts in [rest]. *)
Fixpoint no_start (lab u rest : str) : bool :=
  match u with
  | [] => true
  | _ :: u' => negb (starts_with lab (u ++ rest)) && no_start lab u' rest
  end.

(** [lab] and [s] differ at a position that both have. *)
Fixpoint clash (lab s : str) : bool :=
  match lab, s with
  | x :: lab', y :: s' => if Ascii.eqb x y then clash lab' s' else true
  | _, _ => false
  end.

(** [lab] clashes with every non-empty suffix of [u]: whatever follows
    [u], [lab] does not start inside [u]. *)
Fixpoint clash_all (lab u : str) : bool :=
  match u with
  | [] => true
  | _ :: u' => clash lab u && clash_all lab u'
  end.



(** A line ends here: at a newline or at the end of the input. *)
Definition line_end (s : str) : bool :=
  match s with
  | [] => true
  | c :: _ => Ascii.eqb c nl
  end.

(** [s] ends with a newline. *)
Fixpoint ends_nl (s : str) : bool :=
  match s with
  | [] => false
  | [c] => Ascii.eqb c nl
  | _ :: s' => ends_nl s'
  end.



(** The labels at which the patterns of the parser stop. *)
Definition TERMINATORS : list str :=
  [lit "HEADINGS:"; lit "PARAGRAPHS:"; lit "LINKS:"; lit "META TAGS:"; lit "FULL TEXT"].


(** [s] starts with a digit. *)
Definition starts_with_digit (s : str) : bool :=
  match s with
  | [] => false
  | c :: _ => is_digit c
  end.

(** ** Well-formed documents for the round trip *)

(** The tag names [get_headings] collects. *)
Definition LEVELS : list str :=
  [lit "h1"; lit "h2"; lit "h3"; lit "h4"; lit "h5"; lit "h6"].

(** The labels the parser searches for and stops at. *)
Definition RESERVED : list str :=
  [lit "Title: "; lit "HEADINGS:"; lit "PARAGRAPHS:"; lit "LINKS (first 20):";
   lit "META TAGS:"; lit "FULL TEXT"].

Definition label_free (s : str) : bool :=
  forallb (fun w => negb (occurs w s)) RESERVED.

(** [s.strip() == s] *)
Definition stripped (s : str) : bool := str_eqb (strip s) s.

(** A text on one line with no space at either end. *)
Definition plain (s : str) : bool := oneline s && stripped s.

(** The texts the serializer writes between its labels. *)
Definition sections (d : ScrapedData) : list str :=
  [ s_url d; s_title d; get_or_empty (s_abstract d);
    concat (map heading_line (s_headings d));
    concat (paragraph_entries d);
    concat (link_entries d);
    concat (map meta_line (s_meta_tags d)) ].

Definition heading_ok (h : Heading) : bool :=
  existsb (str_eqb (level h)) LEVELS && plain (text h).

Definition link_ok (l : Link) : bool :=
  plain (link_text l) && negb (occurs ARROW (link_text l))
  && plain (href l) && negb (occurs ARROW (href l)).

(** A document whose [url] and [title] are non-empty plain texts, whose
    headings have a tag name as level and a plain text, whose first 20
    links have a plain text and a plain [href] without the token [->],
    and whose sections contain none of the reserved labels. *)
Definition well_formed (d : ScrapedData) : bool :=
  nonempty (s_url d) && plain (s_url d)
  && nonempty (s_title d) && plain (s_title d)
  && forallb heading_ok (s_headings d)
  && forallb link_ok (firstn 20 (s_links d))
  && forallb label_free (sections d).

(** The heading as the dump shows it: the level in upper case. *)
Definition shown_heading (h : Heading) : Heading :=
  mkHeading (upper (level h)) (text h).

(** The statistics the serializer writes. *)
Definition written_statistics (d : ScrapedData) : dict nat :=
  [ (lit "full_text_length", length (s_full_text d));
    (lit "total_headings", length (s_headings d));
    (lit "total_paragraphs", length (s_paragraphs d));
    (lit "total_links", length (s_links d));
    (lit "total_images", length (s_images d)) ].

(** A page with two paragraphs and a heading. *)
Definition small_page : ScrapedData :=
  mkScraped (lit "https://example.com") (lit "Home")
            [mkHeading (lit "h1") (lit "Welcome")]
            [lit "First paragraph of the page."; lit "Second paragraph of the page."]
            [mkLink (lit "About") (lit "/about"); mkLink (lit "") (lit "/img")]
            [mkImage (lit "/a.png") (lit "") (lit "")]
            [] None (lit "Welcome First paragraph of the page.").

(** ** Lines of the dump *)

(** Lines, each followed by a newline. *)
Definition unlines (ls : list str) : str :=
  concat (map (fun l => l ++ [nl]) ls).

(** The lines of the headings and links blocks, without their newline. *)
Definition heading_text_line (h : Heading) : str :=
  upper (level h) ++ lit ": " ++ text h.

Definition link_text_line (il : nat * Link) : str :=
  str_of_nat (fst il) ++ lit ". " ++ link_text (snd il) ++ lit " -> "
  ++ href (snd il).

(** The per-line step of [parse_headings]. *)
Definition heading_of_line (line : str) : list Heading :=
  match partition_char ":" line with
  | Some (lv, tx) => [mkHeading (strip lv) (strip tx)]
  | None => []
  end.

(** A line the block parser can take as the last line of a stripped
    block: on one line, starting with a character that is no space. *)
Definition solid (l : str) : bool :=
  oneline l && match l with [] => false | c :: _ => negb (is_space c) end.

(** [c] does not occur in [s]. *)
Definition lacks (c : ascii) (s : str) : bool :=
  forallb (fun x => negb (Ascii.eqb x c)) s.

(** The head of the dump: banner, [URL:] line and [Title:] line. *)
Definition head_part (d : ScrapedData) : str :=
  banner ++ lit "URL: " ++ s_url d ++ [nl] ++ lit "Title: " ++ s_title d ++ [nl; nl].

(** [s] starts with a character that is no digit. *)
Definition head_not_digit (s : str) : bool :=
  match s with
  | [] => false
  | c :: _ => negb (is_digit c)
  end.

(** The fixed texts of the statistics block. *)
Definition STATS_FIXED : list str :=
  [FULL_TEXT_LENGTH; CHARACTERS; [nl]; TOTAL_HEADINGS; TOTAL_PARAGRAPHS;
   TOTAL_LINKS; TOTAL_IMAGES].

(** The fixed texts of the head of the dump. *)
Definition HEAD_FIXED : list str :=
  [banner; lit "URL: "; [nl]; lit "Title: "; [nl; nl]].

(* ================================================================== *)
(** * Further functions of the scraper *)
(* ================================================================== *)

(** [s.replace(old, new)] for a non-empty [old]: the occurrences of [old]
    are taken from the left and do not overlap.  [skip] counts the
    characters of a replaced occurrence that are still to be passed. *)
Fixpoint replace_from (old new : str) (skip : nat) (s : str) : str :=
  match s with
  | [] => []
  | c :: s' =>
      match skip with
      | S k => replace_from old new k s'
      | 0 =>
          if starts_with old s
          then new ++ replace_from old new (length old - 1) s'
          else c :: replace_from old new 0 s'
      end
  end.

Definition replace (old new s : str) : str := replace_from old new 0 s.

(** The stem of the two file names of [scrape_website], from the network
    location [urlparse(url).netloc]:
    [netloc.replace('www.', '').replace('.', '_')]. *)
Definition domain (netloc : str) : str :=
  replace (lit ".") (lit "_") (replace (lit "www.") [] netloc).

Definition json_filename (netloc : str) : str :=
  lit "data/" ++ domain netloc ++ lit "_scraped_data.json".

Definition txt_filename (netloc : str) : str :=
  lit "data/" ++ domain netloc ++ lit "_scraped_data.txt".

(** [get_title]: the text of the [<title>] element, when there is one. *)
Definition get_title (title : option str) : str :=
  match title with
  | Some t => strip t
  | None => lit "No title found"
  end.

(** [get_headings], from the name and the text of the elements
    [h1] to [h6] in document order. *)
Definition get_headings (tags : list (str * str)) : list Heading :=
  map (fun tag => mkHeading (fst tag) (strip (snd tag))) tags.

(** [get_paragraphs], from the texts of the [<p>] elements. *)
Fixpoint get_paragraphs (ps : list str) : list str :=
  match ps with
  | [] => []
  | p :: ps' =>
      let text := strip p in
      if nonempty text then text :: get_paragraphs ps' else get_paragraphs ps'
  end.

(** [get_links], from the text and the [href] of the anchors that have
    one. *)
Definition get_links (anchors : list (str * str)) : list Link :=
  map (fun a => mkLink (strip (fst a)) (snd a)) anchors.

(** [get_images], from the attributes [src], [alt] and [title] of the
    [<img>] elements. *)
Definition get_images (imgs : list (option str * option str * option str)) : list Image :=
  map (fun '(s, a, t) => mkImage (get_or_empty s) (get_or_empty a) (get_or_empty t))
      imgs.

(** [get_abstract], from what [soup.select_one] gives for the selectors
    in their order: it raises, finds nothing, or finds an element, of
    which the text is given. *)
Fixpoint get_abstract (probes : list (outcome (option str))) : option str :=
  match probes with
  | [] => None
  | Returned (Some element) :: _ => Some (strip element)
  | _ :: probes' => get_abstract probes'
  end.

(** The characters at which [str.splitlines] breaks a line. *)
Definition is_linebreak (c : ascii) : bool :=
  existsb (Nat.eqb (code c)) [10; 11; 12; 13; 28; 29; 30; 133].

Definition cr : ascii := "013".

(** [s.splitlines()]; [cur] is the line being read, last character
    first.  A carriage return followed by a newline is one break. *)
Fixpoint splitlines_from (cur : str) (s : str) : list str :=
  match s with
  | [] => match cur with [] => [] | _ => [rev cur] end
  | c :: s' =>
      if is_linebreak c
      then rev cur ::
           match s' with
           | d :: s'' =>
               if Ascii.eqb c cr && Ascii.eqb d nl
               then splitlines_from [] s''
               else splitlines_from [] s'
           | [] => splitlines_from [] s'
           end
      else splitlines_from (c :: cur) s'
  end.

Definition splitlines (s : str) : list str := splitlines_from [] s.

(** [s.split(sep)] for a separator [sep] of the two characters [a], [b]. *)
Fixpoint split_pair (a b : ascii) (s : str) : list str :=
  match s with
  | [] => [[]]
  | x :: s' =>
      match s' with
      | y :: s'' =>
          if Ascii.eqb x a && Ascii.eqb y b then [] :: split_pair a b s''
          else match split_pair a b s' with
               | [] => [[x]]
               | l :: ls => (x :: l) :: ls
               end
      | [] => [[x]]
      end
  end.

(** The whitespace clean-up of [get_full_text], from [soup.get_text()]
    taken after the script and style elements are removed. *)
Definition get_full_text (text : str) : str :=
  let lines := map strip (splitlines text) in
  let chunks := flat_map (fun line => map strip (split_pair " " " " line)) lines in
  join [" "] (filter nonempty chunks).

(** The text a file gives when it is opened in text mode with the
    default [newline=None]: a carriage return followed by a newline, and
    a carriage return alone, are read as a newline. *)
Fixpoint universal_newlines (s : str) : str :=
  match s with
  | [] => []
  | c :: s' =>
      if Ascii.eqb c cr
      then nl :: match s' with
                 | e :: s'' =>
                     if Ascii.eqb e nl then universal_newlines s''
                     else universal_newlines s'
                 | [] => []
                 end
      else c :: universal_newlines s'
  end.

(** The loop of [load_urls_from_file] over the lines of the file, from
    the decoded content of the file.  The loop strips every line, so the
    newline that ends a line is left out here; the empty text after a
    last newline, which is no line of the file, is passed over as an
    empty line is. *)
Definition load_urls (content : str) : list str :=
  filter (fun url => nonempty url && negb (starts_with (lit "#") url))
         (map strip (split_char nl (universal_newlines content))).

(** What [open] and the reading of the file give: the file is not
    there, another error is raised (the path is a directory, the bytes
    are no UTF-8, ...), or the decoded content. *)
Inductive FileRead : Type :=
| FileNotFound
| ReadError
| FileText (content : str).

(** [load_urls_from_file]: only [FileNotFoundError] is caught. *)
Definition load_urls_from_file (file : FileRead) : outcome (list str) :=
  match file with
  | FileText content => Returned (load_urls content)
  | FileNotFound => Returned []
  | ReadError => Raised
  end.

(* ================================================================== *)
(** * Predicates of the further statements *)
(* ================================================================== *)

(** [x] is a piece of [y]. *)
Definition infix (x y : str) : Prop := exists a b, y = a ++ x ++ b.


(** The name and content [get_meta_tags] keeps of a meta element. *)
Definition meta_entry (e : MetaElement) : list (str * str) :=
  let name := match attr_name e with
              | Some n => n
              | None => get_or_empty (attr_property e)
              end in
  let content := get_or_empty (attr_content e) in
  if nonempty name && nonempty content then [(name, content)] else [].

(** The value of the last binding of [k] in a list of bindings. *)
Fixpoint last_binding {V} (k : str) (es : list (str * V)) : option V :=
  match es with
  | [] => None
  | (k', v) :: es' =>
      match last_binding k es' with
      | Some v' => Some v'
      | None => if str_eqb k k' then Some v else None
      end
  end.

(** A text without a line break, with no space at either end and no two
    blanks in a row. *)
Definition compact (s : str) : bool :=
  forallb (fun c => negb (is_linebreak c)) s
  && stripped s
  && negb (occurs [" "; " "] s).

(** A line of a URL file that [load_urls_from_file] keeps as it is: a
    non-empty text without a newline or a carriage return, with no space
    at either end, that does not start with [#]. *)
Definition url_line (u : str) : bool :=
  nonempty u && plain u && lacks cr u && negb (starts_with (lit "#") u).

(** A line of a URL file that [load_urls_from_file] passes over: blank,
    or a comment. *)
Definition skipped_line (l : str) : bool :=
  oneline l && lacks cr l
  && (negb (nonempty (strip l)) || starts_with (lit "#") (strip l)).

(** What a meta binding of [get_meta_tags] satisfies. *)
Definition filled (kv : str * str) : Prop := fst kv <> [] /\ snd kv <> [].

(** The documents the page loads of a batch give, in order. *)
Definition rendered (render : str -> option ScrapedData) (urls : list str)
    : list ScrapedData :=
  flat_map (fun u => match render u with Some d => [d] | None => [] end) urls.

(** A probe of [get_abstract] that finds no element. *)
Definition no_match (probe : outcome (option str)) : bool :=
  match probe with
  | Returned (Some _) => false
  | _ => true
  end.

(** [c] is no line break. *)
Definition unbroken (c : ascii) : bool := negb (is_linebreak c).

(** A chunk [get_full_text] joins: not empty, no space at either end, no
    line break and no two blanks in a row. *)
Definition solid_chunk (c : str) : Prop :=
  c <> [] /\ no_lead c /\ rstrip c = c /\ forallb unbroken c = true
  /\ occurs [" "; " "] c = false.

(** What every parsed heading satisfies. *)
Definition heading_parsed (h : Heading) : bool :=
  plain (level h) && lacks ":" (level h) && plain (text h).

(** The binding a line of the meta block gives. *)
Definition meta_of_line (line : str) : list (str * str) :=
  match partition_char ":" line with
  | Some (name, c) => [(strip name, strip c)]
  | None => []
  end.




(** The dump in front of the statistics block. *)
Definition before_stats (d : ScrapedData) : str :=
  head_part d ++ abstract_block d ++ headings_block d ++ paragraphs_block d
  ++ links_block d ++ meta_block d.

(** A file content from which [process_all_files] saves a document. *)
Definition parsable (content : str) : bool :=
  nonempty content && negb (parse_raises content).

(* ================================================================== *)
(** * Facts about the string primitives *)
(* ================================================================== *)

Lemma str_eqb_refl (a : str) : str_eqb a a = true.
Proof.
  induction a as [|x a IH]; simpl; [reflexivity|].
  now rewrite Ascii.eqb_refl, IH.
Qed.

Lemma str_eqb_eq (a b : str) : str_eqb a b = true <-> a = b.
Proof.
  split; [|intros ->; apply str_eqb_refl].
  revert b; induction a as [|x a IH]; intros [|y b]; simpl; try congruence.
  rewrite andb_true_iff, Ascii.eqb_eq. intros [-> H]. f_equal. now apply IH.
Qed.

Lemma strip_prefix_app (p s : str) : strip_prefix p (p ++ s) = Some s.
Proof.
  induction p as [|x p IH]; simpl; [reflexivity|].
  now rewrite Ascii.eqb_refl.
Qed.

Lemma strip_prefix_Some (p s r : str) : strip_prefix p s = Some r -> s = p ++ r.
Proof.
  revert s; induction p as [|x p IH]; intros s; simpl.
  - now intros [= ->].
  - destruct s as [|y s]; [discriminate|].
    destruct (Ascii.eqb x y) eqn:E; [|discriminate].
    apply Ascii.eqb_eq in E; subst y. intros H. f_equal. now apply IH.
Qed.

Lemma strip_prefix_starts (p s : str) :
  starts_with p s = false -> strip_prefix p s = None.
Proof.
  revert s; induction p as [|x p IH]; intros [|y s]; simpl; try congruence.
  destruct (Ascii.eqb x y); simpl; [apply IH|reflexivity].
Qed.

Lemma starts_with_app (p s : str) : starts_with p (p ++ s) = true.
Proof.
  induction p as [|x p IH]; simpl; [reflexivity|].
  now rewrite Ascii.eqb_refl.
Qed.

Lemma starts_with_split (p s : str) :
  starts_with p s = true -> exists r, s = p ++ r.
Proof.
  revert s; induction p as [|x p IH]; intros s; simpl.
  - now exists s.
  - destruct s as [|y s]; [discriminate|].
    rewrite andb_true_iff, Ascii.eqb_eq. intros [-> H].
    destruct (IH _ H) as [r ->]. now exists r.
Qed.

(** ** Stripping *)


Lemma lstrip_no_lead (s : str) : no_lead (lstrip s).
Proof.
  unfold lstrip. induction s as [|c s IH]; simpl; [exact I|].
  destruct (is_space c) eqn:E; [exact IH|exact E].
Qed.

Lemma lstrip_id (s : str) : no_lead s -> lstrip s = s.
Proof.
  destruct s as [|c s]; simpl; [reflexivity|]. unfold lstrip; simpl. now intros ->.
Qed.

Lemma rstrip_no_lead (s : str) : no_lead s -> no_lead (rstrip s).
Proof.
  destruct s as [|c s]; simpl; [trivial|]. intros H.
  destruct (rstrip s); [rewrite H|]; exact H.
Qed.

Lemma rstrip_idem (s : str) : rstrip (rstrip s) = rstrip s.
Proof.
  induction s as [|c s IH]; simpl; [reflexivity|].
  destruct (rstrip s) as [|x r] eqn:E.
  - destruct (is_space c) eqn:Ec; simpl; [reflexivity|]. now rewrite Ec.
  - simpl in *. now rewrite IH.
Qed.

Lemma strip_idem (s : str) : strip (strip s) = strip s.
Proof.
  unfold strip.
  rewrite (lstrip_id (rstrip (lstrip s))).
  - apply rstrip_idem.
  - apply rstrip_no_lead, lstrip_no_lead.
Qed.

Lemma rstrip_nil_iff (s : str) : rstrip s = [] <-> forallb is_space s = true.
Proof.
  induction s as [|c s IH]; simpl; [tauto|].
  destruct (rstrip s) eqn:E.
  - destruct (is_space c); simpl; [tauto|]. split; discriminate.
  - split; [discriminate|]. rewrite andb_true_iff. intros [_ H].
    apply IH in H. discriminate.
Qed.

Lemma rstrip_app (x y : str) : rstrip y <> [] -> rstrip (x ++ y) = x ++ rstrip y.
Proof.
  intros H. induction x as [|c x IH]; simpl; [reflexivity|].
  rewrite IH. destruct (x ++ rstrip y) eqn:E; [|reflexivity].
  apply app_eq_nil in E. tauto.
Qed.

Lemma rstrip_last (x : str) (c : ascii) :
  is_space c = false -> rstrip (x ++ [c]) = x ++ [c].
Proof.
  intros H. rewrite rstrip_app; simpl; rewrite H; [reflexivity|discriminate].
Qed.

Lemma rstrip_cons_keep (x y : str) (c : ascii) :
  is_space c = false -> rstrip (x ++ c :: y) = x ++ c :: rstrip y.
Proof.
  intros H. rewrite rstrip_app; simpl.
  - destruct (rstrip y); [now rewrite H|reflexivity].
  - destruct (rstrip y); [rewrite H|]; discriminate.
Qed.

Lemma Forall_drop_while (P : ascii -> Prop) f (s : str) :
  Forall P s -> Forall P (drop_while f s).
Proof.
  induction 1 as [|c s Hc Hs IH]; simpl; [constructor|].
  destruct (f c); [exact IH|now constructor].
Qed.

Lemma Forall_rstrip (P : ascii -> Prop) (s : str) :
  Forall P s -> Forall P (rstrip s).
Proof.
  induction 1 as [|c s Hc Hs IH]; simpl; [constructor|].
  destruct (rstrip s); [destruct (is_space c)|]; auto.
Qed.

Lemma Forall_strip (P : ascii -> Prop) (s : str) :
  Forall P s -> Forall P (strip s).
Proof.
  intros H. apply Forall_rstrip, Forall_drop_while, H.
Qed.

(* ================================================================== *)
(** * The normalizer *)
(* ================================================================== *)


Lemma collapse_from_tidy (s : str) : forall b, tidy b (collapse_from b s).
Proof.
  induction s as [|c s IH]; intros b; simpl; [exact I|].
  destruct (is_space c) eqn:E.
  - destruct b; [apply IH|]. simpl. repeat split. apply IH.
  - simpl. rewrite E. apply IH.
Qed.

Lemma tidy_collapse_id (s : str) : forall b, tidy b s -> collapse_from b s = s.
Proof.
  induction s as [|c s IH]; intros b; simpl; [reflexivity|].
  destruct (is_space c) eqn:E.
  - intros (-> & -> & H). f_equal. now apply IH.
  - intros H. f_equal. now apply IH.
Qed.

Lemma tidy_true_false (s : str) : tidy true s -> tidy false s.
Proof.
  destruct s as [|c s]; simpl; [trivial|].
  destruct (is_space c); [intros (H & _); discriminate|trivial].
Qed.

Lemma tidy_any (s : str) b b' : no_lead s -> tidy b s -> tidy b' s.
Proof.
  destruct s as [|c s]; simpl; [trivial|]. now intros ->.
Qed.

Lemma tidy_lstrip (s : str) : forall b, tidy b s -> tidy false (lstrip s).
Proof.
  unfold lstrip. induction s as [|c s IH]; intros b; simpl; [trivial|].
  destruct (is_space c) eqn:E.
  - intros (_ & _ & H). now apply IH in H.
  - intros H. simpl. now rewrite E.
Qed.

Lemma tidy_rstrip (s : str) : forall b, tidy b s -> tidy b (rstrip s).
Proof.
  induction s as [|c s IH]; intros b; simpl; [trivial|].
  destruct (is_space c) eqn:E.
  - intros (Hb & Hc & H). apply IH in H.
    destruct (rstrip s); simpl; [exact I|]. rewrite E. auto.
  - intros H. apply IH in H.
    destruct (rstrip s); simpl; rewrite E; [exact I|exact H].
Qed.

Lemma allowed_blank : allowed " " = true.
Proof. reflexivity. Qed.

Lemma Forall_collapse_from (s : str) : forall b,
  Forall (fun c => allowed c = true) s ->
  Forall (fun c => allowed c = true) (collapse_from b s).
Proof.
  induction s as [|c s IH]; intros b H; simpl; [constructor|].
  inversion H; subst.
  destruct (is_space c); [destruct b|]; repeat constructor; auto.
Qed.

Lemma filter_allowed_id (s : str) :
  Forall (fun c => allowed c = true) s -> filter allowed s = s.
Proof.
  induction 1 as [|c s Hc Hs IH]; simpl; [reflexivity|]. now rewrite Hc, IH.
Qed.

Lemma Forall_filter_allowed (s : str) :
  Forall (fun c => allowed c = true) (filter allowed s).
Proof.
  induction s as [|c s IH]; simpl; [constructor|].
  destruct (allowed c) eqn:E; [now constructor|exact IH].
Qed.

(** A text in cleaned form is a fixed point of [clean_text]. *)
Lemma clean_text_fixed (s : str) :
  tidy false s -> Forall (fun c => allowed c = true) s -> strip s = s ->
  clean_text s = s.
Proof.
  intros Ht Ha Hs. destruct s as [|c s]; [reflexivity|].
  unfold clean_text, collapse_ws.
  rewrite (tidy_collapse_id _ _ Ht), (filter_allowed_id _ Ha),
          (tidy_collapse_id _ _ Ht).
  exact Hs.
Qed.

Lemma clean_text_idem (s : str) : clean_text (clean_text s) = clean_text s.
Proof.
  destruct s as [|c s]; [reflexivity|].
  apply clean_text_fixed; unfold clean_text.
  - unfold strip. apply tidy_rstrip. eapply tidy_lstrip. apply collapse_from_tidy.
  - apply Forall_strip, Forall_collapse_from, Forall_filter_allowed.
  - apply strip_idem.
Qed.

Lemma clean_headings_idem (hs : list Heading) :
  clean_headings (clean_headings hs) = clean_headings hs.
Proof.
  induction hs as [|h hs IH]; simpl; [reflexivity|].
  destruct (nonempty (clean_text (text h))) eqn:E; [|exact IH].
  simpl. now rewrite clean_text_idem, E, IH.
Qed.

Lemma clean_links_idem (ls : list Link) :
  clean_links (clean_links ls) = clean_links ls.
Proof.
  induction ls as [|l ls IH]; simpl; [reflexivity|].
  destruct (nonempty (clean_text (link_text l))) eqn:E; [|exact IH].
  simpl. now rewrite clean_text_idem, E, IH.
Qed.


Lemma clean_paragraphs_kept (ps : list str) :
  forall seen, kept seen (clean_paragraphs seen ps).
Proof.
  induction ps as [|p ps IH]; intros seen; simpl; [constructor|].
  destruct (nonempty (clean_text p)) eqn:E1; simpl; [|apply IH].
  destruct (10 <? length (clean_text p)) eqn:E2; simpl; [|apply IH].
  destruct (existsb (str_eqb (clean_text p)) seen) eqn:E3; simpl; [apply IH|].
  constructor; auto using clean_text_idem.
Qed.

Lemma kept_fixed (seen ps : list str) :
  kept seen ps -> clean_paragraphs seen ps = ps.
Proof.
  induction 1 as [|seen p ps H1 H2 H3 H4 _ IH]; simpl; [reflexivity|].
  rewrite H1, H2, H3, H4. simpl. now rewrite IH.
Qed.

Lemma clean_paragraphs_idem (ps : list str) :
  clean_paragraphs [] (clean_paragraphs [] ps) = clean_paragraphs [] ps.
Proof. apply kept_fixed, clean_paragraphs_kept. Qed.

Lemma copy_or_empty_id {V} (d : dict V) : copy_or_empty d = d.
Proof. now destruct d. Qed.

(** C4, as amended.  Running the normalizer on its own output gives what
    one run at the same clock reading gives: every field is unchanged by
    the second run except [processing_timestamp], which carries the clock
    reading of the latest run. *)
Theorem preprocess_content_idempotent (t1 t2 : str) (r : ParsedData) :
  preprocess_content t2 (as_parsed (preprocess_content t1 r))
  = preprocess_content t2 r.
Proof.
  unfold preprocess_content, as_parsed; simpl.
  rewrite !clean_text_idem, clean_headings_idem, clean_paragraphs_idem,
          clean_links_idem.
  now rewrite !copy_or_empty_id.
Qed.

(** C4 as stated fails: a second run at a later clock reading does not
    reproduce the output of the first run. *)
Lemma preprocess_content_rerun_differs :
  let r := mkParsed (lit "https://example.com") (lit "Home") [] [] [] [] [] [] in
  let once := preprocess_content (lit "2024-05-01 10:00:00.000001") r in
  preprocess_content (lit "2024-05-01 10:00:07.250000") (as_parsed once) <> once.
Proof. intros r once. unfold once, r. vm_compute. discriminate. Qed.

(** C9.  The normalizer copies [url], [meta_tags] and [statistics], and
    the links it keeps are the input links whose cleaned text is not
    empty, each with its [href] as it was. *)
Theorem preprocess_content_frame (now : str) (r : ParsedData) :
  let p := preprocess_content now r in
  let keep := fun l => nonempty (clean_text (link_text l)) in
  p_url p = url r
  /\ p_meta_tags p = meta_tags r
  /\ p_statistics p = statistics r
  /\ p_links p
     = map (fun l => mkLink (clean_text (link_text l)) (href l))
           (filter keep (links r))
  /\ map href (p_links p) = map href (filter keep (links r))
  /\ map level (p_headings p)
     = map level (filter (fun h => nonempty (clean_text (text h))) (headings r)).
Proof.
  simpl. repeat split.
  - apply copy_or_empty_id.
  - induction (links r) as [|l ls IH]; simpl; [reflexivity|].
    destruct (nonempty (clean_text (link_text l))); simpl; now rewrite IH.
  - induction (links r) as [|l ls IH]; simpl; [reflexivity|].
    destruct (nonempty (clean_text (link_text l))); simpl; now rewrite IH.
  - induction (headings r) as [|h hs IH]; simpl; [reflexivity|].
    destruct (nonempty (clean_text (text h))); simpl; now rewrite IH.
Qed.

(* ================================================================== *)
(** * Lines *)
(* ================================================================== *)

Lemma split_char_nonnil (c : ascii) (s : str) : split_char c s <> [].
Proof.
  destruct s as [|x s]; simpl; [discriminate|].
  destruct (Ascii.eqb x c); [discriminate|].
  destruct (split_char c s); discriminate.
Qed.

Lemma split_char_oneline (l : str) : oneline l = true -> split_char nl l = [l].
Proof.
  induction l as [|x l IH]; simpl; [reflexivity|].
  rewrite andb_true_iff, negb_true_iff. intros [-> H]. now rewrite IH.
Qed.

Lemma split_char_line (l rest : str) :
  oneline l = true -> split_char nl (l ++ nl :: rest) = l :: split_char nl rest.
Proof.
  induction l as [|x l IH]; simpl.
  - reflexivity.
  - rewrite andb_true_iff, negb_true_iff. intros [-> H]. now rewrite IH.
Qed.

Lemma split_char_join (l : str) (ls : list str) :
  forallb oneline (l :: ls) = true ->
  split_char nl (join [nl] (l :: ls)) = l :: ls.
Proof.
  revert l; induction ls as [|l' ls IH]; intros l H.
  - simpl in *. rewrite andb_true_r in H. now apply split_char_oneline.
  - change (forallb oneline (l :: l' :: ls))
      with (oneline l && forallb oneline (l' :: ls)) in H.
    apply andb_true_iff in H as [H1 H2].
    change (join [nl] (l :: l' :: ls)) with (l ++ nl :: join [nl] (l' :: ls)).
    rewrite split_char_line by assumption. now rewrite IH.
Qed.

Lemma flat_map_lines {A} (f : str -> list A) (ls : list str) :
  f [] = [] -> forallb oneline ls = true ->
  flat_map f (split_char nl (join [nl] ls)) = flat_map f ls.
Proof.
  intros Hf H. destruct ls as [|l ls].
  - simpl. now rewrite Hf.
  - now rewrite split_char_join.
Qed.

(** ** The separator of the links block *)

Lemma split_arrow_nonnil (s : str) : split_arrow s <> [].
Proof.
  destruct s as [|x [|y s]]; simpl; try discriminate.
  destruct (Ascii.eqb x "-" && Ascii.eqb y ">"); [discriminate|].
  destruct (match s with [] => _ | _ => _ end); discriminate.
Qed.

Lemma split_arrow_cons (x y : ascii) (s : str) :
  split_arrow (x :: y :: s)
  = if Ascii.eqb x "-" && Ascii.eqb y ">" then [] :: split_arrow s
    else match split_arrow (y :: s) with
         | [] => [[x]]
         | l :: ls => (x :: l) :: ls
         end.
Proof. reflexivity. Qed.

Lemma split_arrow_bounds (s : str) : forall y,
  length (split_arrow s) <= length (split_arrow (y :: s))
  /\ length (split_arrow (y :: s)) <= S (length (split_arrow s)).
Proof.
  induction s as [|z s IH]; intros y; [simpl; lia|].
  rewrite split_arrow_cons.
  destruct (Ascii.eqb y "-" && Ascii.eqb z ">").
  - specialize (IH z). cbn [length]. lia.
  - destruct (split_arrow (z :: s)) eqn:E; [now apply split_arrow_nonnil in E|].
    cbn [length]. lia.
Qed.

Lemma split_arrow_step (x : ascii) (s : str) :
  length (split_arrow s) <= length (split_arrow (x :: s)).
Proof. apply split_arrow_bounds. Qed.

(** Every occurrence of the token adds a part. *)
Lemma split_arrow_parts (a r : str) :
  S (length (split_arrow r)) <= length (split_arrow (a ++ ARROW ++ r)).
Proof.
  induction a as [|x a IH].
  - simpl. lia.
  - etransitivity; [exact IH|]. apply split_arrow_step.
Qed.

Lemma parse_link_line_twice (a b c : str) :
  parse_link_line (a ++ ARROW ++ b ++ ARROW ++ c) = None.
Proof.
  unfold parse_link_line.
  destruct (occurs (lit "->") _); [|reflexivity].
  pose proof (split_arrow_parts a (b ++ ARROW ++ c)) as H1.
  pose proof (split_arrow_parts b c) as H2.
  pose proof (split_arrow_nonnil c) as H3.
  destruct (split_arrow c); [congruence|].
  destruct (split_arrow (a ++ ARROW ++ b ++ ARROW ++ c)) as [|p0 [|p1 [|p2 ps]]];
    simpl in *; try reflexivity; lia.
Qed.

(** C10.  A line of the links block in which [->] occurs more than once
    yields no link, and the links parsed from the block are those of the
    other lines. *)
Theorem links_line_with_two_arrows_dropped
    (before after : list str) (line a b c : str) :
  line = a ++ ARROW ++ b ++ ARROW ++ c ->
  forallb oneline (before ++ line :: after) = true ->
  parse_link_line line = None
  /\ parse_links (join [nl] (before ++ line :: after))
     = parse_links (join [nl] (before ++ after)).
Proof.
  intros -> H.
  assert (Hl : parse_link_line (a ++ ARROW ++ b ++ ARROW ++ c) = None)
    by apply parse_link_line_twice.
  split; [exact Hl|].
  unfold parse_links.
  fold link_of_line.
  rewrite !flat_map_lines; try reflexivity; try assumption.
  - assert (Hz : link_of_line (a ++ ARROW ++ b ++ ARROW ++ c) = [])
      by (unfold link_of_line; now rewrite Hl).
    rewrite !flat_map_app. cbn [flat_map]. now rewrite Hz.
  - rewrite forallb_app in *. simpl in H.
    apply andb_true_iff in H as [H1 H2]. apply andb_true_iff in H2 as [_ H2].
    now rewrite H1, H2.
Qed.

Lemma links_line_with_two_arrows_dropped_witness :
  let line := lit "2. a -> b -> /c" in
  parse_link_line line = None
  /\ parse_links (join [nl] ([lit "1. home -> /"] ++ line :: [lit "3. x -> /y"]))
     = parse_links (join [nl] ([lit "1. home -> /"] ++ [lit "3. x -> /y"])).
Proof.
  intros line.
  apply (links_line_with_two_arrows_dropped
           [lit "1. home -> /"] [lit "3. x -> /y"] line
           (lit "2. a ") (lit " b ") (lit " /c")); reflexivity.
Defined.

(* ================================================================== *)
(** * The serializer *)
(* ================================================================== *)

Lemma nth_error_enumerate_from {A} (xs : list A) : forall k i x,
  nth_error xs i = Some x ->
  nth_error (combine (seq k (length xs)) xs) i = Some (k + i, x).
Proof.
  induction xs as [|y xs IH]; intros k [|i] x; simpl; try discriminate.
  - intros [= ->]. now rewrite Nat.add_0_r.
  - intros H. rewrite (IH (S k) i x H). f_equal. f_equal. lia.
Qed.

Lemma nth_error_enumerate1 {A} (xs : list A) (i : nat) (x : A) :
  nth_error xs i = Some x -> nth_error (enumerate1 xs) i = Some (S i, x).
Proof. apply nth_error_enumerate_from. Qed.

Lemma length_enumerate1 {A} (xs : list A) : length (enumerate1 xs) = length xs.
Proof.
  unfold enumerate1. rewrite length_combine, length_seq. apply Nat.min_id.
Qed.

Lemma nth_error_first20 {A} (xs : list A) (i : nat) (x : A) :
  i < 20 -> nth_error xs i = Some x ->
  nth_error (enumerate1 (firstn 20 xs)) i = Some (S i, x).
Proof.
  intros Hi H. apply nth_error_enumerate1.
  rewrite nth_error_firstn. apply Nat.ltb_lt in Hi. now rewrite Hi.
Qed.

(** C5.  With 25 paragraphs and 30 links the dump holds the paragraphs
    block with exactly 20 entries numbered 1 to 20 (the first 20
    paragraphs), the links block with exactly 20 entries numbered 1 to 20
    (the first 20 links), and the statistics lines report 25 and 30. *)
Theorem text_dump_truncates_to_20 (d : ScrapedData) :
  length (s_paragraphs d) = 25 ->
  length (s_links d) = 30 ->
  length (paragraph_entries d) = 20
  /\ length (link_entries d) = 20
  /\ (forall i p, i < 20 -> nth_error (s_paragraphs d) i = Some p ->
        nth_error (paragraph_entries d) i
        = Some (str_of_nat (S i) ++ lit ". " ++ p ++ [nl; nl]))
  /\ (forall i l, i < 20 -> nth_error (s_links d) i = Some l ->
        nth_error (link_entries d) i
        = Some (str_of_nat (S i) ++ lit ". " ++ link_text l ++ lit " -> "
                  ++ href l ++ [nl]))
  /\ text_dump d
     = (banner ++ lit "URL: " ++ s_url d ++ [nl]
        ++ lit "Title: " ++ s_title d ++ [nl; nl]
        ++ abstract_block d ++ headings_block d)
       ++ lit "PARAGRAPHS:" ++ [nl] ++ concat (paragraph_entries d)
       ++ lit "LINKS (first 20):" ++ [nl] ++ concat (link_entries d) ++ [nl]
       ++ meta_block d
       ++ FULL_TEXT_LENGTH ++ str_of_nat (length (s_full_text d))
       ++ CHARACTERS ++ [nl]
       ++ TOTAL_HEADINGS ++ str_of_nat (length (s_headings d)) ++ [nl]
       ++ TOTAL_PARAGRAPHS ++ lit "25" ++ [nl]
       ++ TOTAL_LINKS ++ lit "30" ++ [nl]
       ++ TOTAL_IMAGES ++ str_of_nat (length (s_images d)) ++ [nl].
Proof.
  intros Hp Hl. repeat split.
  - unfold paragraph_entries.
    rewrite length_map, length_enumerate1, length_firstn, Hp. reflexivity.
  - unfold link_entries.
    rewrite length_map, length_enumerate1, length_firstn, Hl. reflexivity.
  - intros i p Hi H. unfold paragraph_entries.
    rewrite nth_error_map, (nth_error_first20 _ _ _ Hi H). reflexivity.
  - intros i l Hi H. unfold link_entries.
    rewrite nth_error_map, (nth_error_first20 _ _ _ Hi H). reflexivity.
  - unfold text_dump, paragraphs_block, links_block, stats_block.
    rewrite Hp, Hl.
    destruct (s_paragraphs d) as [|p ps]; [discriminate|].
    destruct (s_links d) as [|l ls]; [discriminate|].
    change (str_of_nat 25) with (lit "25"). change (str_of_nat 30) with (lit "30").
    now rewrite <- !app_assoc.
Qed.

Lemma text_dump_truncates_to_20_witness :
  let d := mkScraped (lit "https://example.com") (lit "Home") []
             (repeat (lit "some paragraph") 25)
             (repeat (mkLink (lit "home") (lit "/")) 30)
             [] [] None (lit "Home") in
  length (paragraph_entries d) = 20 /\ length (link_entries d) = 20.
Proof.
  intros d.
  destruct (text_dump_truncates_to_20 d) as (H1 & H2 & _); [reflexivity..|].
  split; assumption.
Defined.

(** C3, failing input.  An Open Graph element is stored by
    [get_meta_tags] under the key [og:title]; the dump writes the line
    [og:title: Home page], and the parser splits it at its first colon:
    the parsed mapping binds [og] and has no binding for [og:title]. *)
Theorem meta_key_with_colon_not_preserved :
  s_meta_tags og_page = [(lit "og:title", lit "Home page")]
  /\ meta_tags (parse_scraped_content (text_dump og_page))
     = [(lit "og", lit "title: Home page")]
  /\ dict_get (lit "og:title")
       (meta_tags (parse_scraped_content (text_dump og_page))) = None
  /\ dict_get (lit "og:title") (s_meta_tags og_page) = Some (lit "Home page").
Proof. vm_compute. repeat split. Qed.

(** The statistics are the five counts of a match of the pattern, or the
    empty mapping. *)
Lemma statistics_all_or_nothing (content : str) :
  statistics (parse_scraped_content content) = []
  \/ exists g, statistics (parse_scraped_content content) = stats_dict g.
Proof.
  unfold parse_scraped_content.
  destruct (search_block META_LABEL [lit "FULL TEXT"] content)
    as [g|]; [destruct (parse_meta content (strip g)) as [m c]|]; simpl.
  - destruct (stats_search c) as [g'|]; [right; now exists g'|now left].
  - destruct (stats_search content) as [g'|]; [right; now exists g'|now left].
Qed.

(** C6, failing input.  The dump of a page with one meta tag ends with a
    well-formed statistics block, which the pattern matches; the parser
    yet returns the empty mapping, because the loop over the meta lines
    has rebound [content] to the text after the colon of the last meta
    line, and the pattern is searched there. *)
Theorem statistics_lost_after_meta_block :
  stats_search (text_dump described_page)
  = Some (lit "4", lit "0", lit "0", lit "0", lit "0")
  /\ meta_tags (parse_scraped_content (text_dump described_page))
     = [(lit "description", lit "A page")]
  /\ statistics (parse_scraped_content (text_dump described_page)) = [].
Proof. vm_compute. repeat split. Qed.

(* ================================================================== *)
(** * The batch loops *)
(* ================================================================== *)

Section BatchFacts.

Variable render : str -> option ScrapedData.

Lemma batch_loop_headless (urls : list str) : forall st,
  let out := batch_loop (scrape_website_headless render) st urls in
  snd out = false
  /\ fetched (fst out) = fetched st ++ urls
  /\ successful (fst out) + failed (fst out)
     = successful st + failed st + length urls.
Proof.
  induction urls as [|u urls IH]; intros st; simpl.
  - rewrite app_nil_r. repeat split; lia.
  - change (scrape_website_headless render u) with (Returned (render u)).
    destruct (render u) as [d|];
      match goal with
      | |- context [batch_loop ?f ?s urls] => destruct (IH s) as (H1 & H2 & H3)
      end;
      simpl in *; rewrite H1, H2, H3, <- app_assoc; repeat split; lia.
Qed.

(** The headless scraper visits every URL of the batch and counts each
    as a success or as a failure. *)
Lemma scrape_multiple_websites_headless_total (urls : list str) :
  let out := scrape_multiple_websites_headless render urls in
  snd out = false
  /\ fetched (fst out) = urls
  /\ successful (fst out) + failed (fst out) = length urls.
Proof.
  apply (batch_loop_headless urls (mkBatch [] 0 0 [])).
Qed.

(** In [simple_web_scraper.py] the first URL that fails ends the batch. *)
Lemma scrape_multiple_websites_aborts (u : str) (rest : list str) :
  render u = None ->
  scrape_multiple_websites render (u :: rest) = (mkBatch [] 0 0 [u], true).
Proof.
  intros H. unfold scrape_multiple_websites; simpl.
  unfold scrape_website. now rewrite H.
Qed.

End BatchFacts.

Section PreprocessingFacts.

Variable fs : str -> option str.
Variable clock : nat -> str.

Lemma process_loop_total (txt_files : list str) : forall st,
  let out := process_loop fs clock st txt_files in
  visited out = visited st ++ txt_files
  /\ processed_count out + failed_count out
     = processed_count st + failed_count st + length txt_files.
Proof.
  induction txt_files as [|f files IH]; intros st; simpl.
  - rewrite app_nil_r. split; [reflexivity|lia].
  - destruct (read_txt_file fs f) as [|c content];
      [|destruct (parse_raises (c :: content))];
      match goal with
      | |- context [process_loop fs clock ?s files] =>
          destruct (IH s) as (H1 & H2)
      end;
      cbn [visited processed_count failed_count length] in *;
      rewrite H1, H2, <- app_assoc; (split; [reflexivity|lia]).
Qed.

(** The preprocessor visits every file of the batch and counts each as
    processed or as failed. *)
Lemma process_all_files_total (txt_files : list str) :
  let out := process_all_files fs clock txt_files in
  visited out = txt_files
  /\ processed_count out + failed_count out = length txt_files.
Proof.
  apply (process_loop_total txt_files (mkProgress 0 0 [] [])).
Qed.

End PreprocessingFacts.

(** C7, failing input.  With [simple_web_scraper.py] a batch whose first
    site is down stops there: the exception of [scrape_website] leaves
    the loop, the second URL is never fetched and nothing is counted.
    The headless scraper, given the same batch, fetches both URLs and
    counts one failure and one success. *)
Theorem scrape_multiple_websites_stops_at_failure :
  scrape_multiple_websites one_site_down two_urls
  = (mkBatch [] 0 0 [lit "https://down.example"], true)
  /\ fetched (fst (scrape_multiple_websites_headless one_site_down two_urls))
     = two_urls
  /\ successful (fst (scrape_multiple_websites_headless one_site_down two_urls)) = 1
  /\ failed (fst (scrape_multiple_websites_headless one_site_down two_urls)) = 1.
Proof. vm_compute. repeat split. Qed.

(* ================================================================== *)
(** * Searching a label *)
(* ================================================================== *)

Lemma no_start_app (lab u v rest : str) :
  no_start lab (u ++ v) rest
  = no_start lab u (v ++ rest) && no_start lab v rest.
Proof.
  induction u as [|c u IH]; simpl; [reflexivity|].
  now rewrite IH, <- app_assoc, andb_assoc.
Qed.

Lemma clash_starts (lab s rest : str) :
  clash lab s = true -> starts_with lab (s ++ rest) = false.
Proof.
  revert s; induction lab as [|x lab IH]; intros [|y s]; simpl; try discriminate.
  destruct (Ascii.eqb x y); simpl; [apply IH|reflexivity].
Qed.

Lemma no_start_fixed (lab u rest : str) :
  clash_all lab u = true -> no_start lab u rest = true.
Proof.
  induction u as [|c u IH]; [reflexivity|].
  cbn [clash_all no_start]. rewrite andb_true_iff. intros [H1 H2].
  rewrite (clash_starts lab (c :: u) rest H1). simpl. now apply IH.
Qed.

Lemma starts_with_before_newline (w x rest : str) :
  oneline w = true -> starts_with w (x ++ nl :: rest) = true ->
  starts_with w x = true.
Proof.
  revert x; induction w as [|a w IH]; intros x Hw; simpl; [reflexivity|].
  simpl in Hw. apply andb_true_iff in Hw as [Ha Hw].
  destruct x as [|b x]; simpl.
  - rewrite andb_true_iff. intros [E _]. now rewrite E in Ha.
  - rewrite !andb_true_iff. intros [E H]. split; [exact E|]. now apply IH.
Qed.

Lemma starts_with_app_l (w t s : str) :
  starts_with (w ++ t) s = true -> starts_with w s = true.
Proof.
  revert s; induction w as [|a w IH]; intros s; simpl; [reflexivity|].
  destruct s as [|b s]; [discriminate|].
  rewrite !andb_true_iff. intros [E H]. split; [exact E|]. now apply IH in H.
Qed.

(** A text that does not contain the newline-free head [w] of a label and
    is followed by a newline holds no start of the label. *)
Lemma no_start_section (w t u rest : str) :
  oneline w = true -> occurs w u = false ->
  no_start (w ++ t) u (nl :: rest) = true.
Proof.
  intros Hw. induction u as [|c u IH]; [reflexivity|].
  cbn [occurs no_start]. rewrite orb_false_iff. intros [H1 H2].
  rewrite IH by assumption. rewrite andb_true_r, negb_true_iff.
  destruct (starts_with (w ++ t) ((c :: u) ++ nl :: rest)) eqn:E; [|reflexivity].
  apply starts_with_app_l in E. apply starts_with_before_newline in E; congruence.
Qed.

Lemma no_start_before_newline (w t u r : str) :
  oneline w = true -> occurs w u = false -> starts_with [nl] r = true ->
  no_start (w ++ t) u r = true.
Proof.
  intros Hw Hu Hr. destruct r as [|c r]; [discriminate|].
  cbn [starts_with] in Hr. rewrite andb_true_r in Hr.
  apply Ascii.eqb_eq in Hr. subst c.
  now apply no_start_section.
Qed.

Lemma no_start_chars (x : ascii) (lab u rest : str) :
  forallb (fun c => negb (Ascii.eqb x c)) u = true ->
  no_start (x :: lab) u rest = true.
Proof.
  induction u as [|c u IH]; [reflexivity|].
  cbn [forallb no_start]. rewrite andb_true_iff, negb_true_iff. intros [H1 H2].
  rewrite IH by assumption. simpl. now rewrite H1.
Qed.

Lemma search_line_skip (lab u rest : str) :
  no_start lab u rest = true ->
  search_line lab (u ++ rest) = search_line lab rest.
Proof.
  induction u as [|c u IH]; [reflexivity|].
  cbn [no_start]. rewrite andb_true_iff, negb_true_iff. intros [H1 H2].
  change ((c :: u) ++ rest) with (c :: u ++ rest) in *.
  cbn [search_line]. rewrite (strip_prefix_starts _ _ H1). now apply IH.
Qed.

Lemma find_after_skip (lab u rest : str) :
  no_start lab u rest = true ->
  find_after lab (u ++ rest) = find_after lab rest.
Proof.
  induction u as [|c u IH]; [reflexivity|].
  cbn [no_start]. rewrite andb_true_iff, negb_true_iff. intros [H1 H2].
  change ((c :: u) ++ rest) with (c :: u ++ rest) in *.
  cbn [find_after]. rewrite (strip_prefix_starts _ _ H1). now apply IH.
Qed.

Lemma find_after_here (lab rest : str) : find_after lab (lab ++ rest) = Some rest.
Proof.
  destruct lab as [|x lab]; [now destruct rest|].
  change (find_after (x :: lab) ((x :: lab) ++ rest))
    with (match strip_prefix (x :: lab) ((x :: lab) ++ rest) with
          | Some r => Some r
          | None => find_after (x :: lab) (lab ++ rest)
          end).
  now rewrite strip_prefix_app.
Qed.

Lemma stats_search_skip (u rest : str) :
  no_start FULL_TEXT_LENGTH u rest = true ->
  stats_search (u ++ rest) = stats_search rest.
Proof.
  induction u as [|c u IH]; [reflexivity|].
  cbn [no_start]. rewrite andb_true_iff, negb_true_iff. intros [H1 H2].
  change ((c :: u) ++ rest) with (c :: u ++ rest) in *.
  cbn [stats_search]. unfold stats_at at 1.
  rewrite (strip_prefix_starts _ _ H1). now apply IH.
Qed.

Lemma at_dollar_long (c d : ascii) (s : str) : at_dollar (c :: d :: s) = false.
Proof. reflexivity. Qed.

Lemma ends_nl_cons (c d : ascii) (u : str) : ends_nl (c :: d :: u) = ends_nl (d :: u).
Proof. reflexivity. Qed.

Lemma lazy_until_skip (stops : list str) (u rest : str) :
  rest <> [] \/ ends_nl u = false ->
  forallb (fun stop => no_start stop u rest) ([nl; nl] :: stops) = true ->
  lazy_until stops (u ++ rest) = u ++ lazy_until stops rest.
Proof.
  intros Hr. induction u as [|c u IH]; [reflexivity|].
  intros H. cbn [forallb] in H. apply andb_true_iff in H as [H1 H2].
  cbn [no_start] in H1. apply andb_true_iff in H1 as [H1 H1'].
  apply negb_true_iff in H1.
  assert (H3 : existsb (fun p => starts_with p ((c :: u) ++ rest)) stops = false
               /\ forallb (fun stop => no_start stop u rest) stops = true).
  { clear IH H1 H1'. induction stops as [|p ps IHp]; [now split|].
    cbn [forallb existsb no_start] in *.
    apply andb_true_iff in H2 as [Hp Hps]. apply andb_true_iff in Hp as [Hp Hp'].
    apply negb_true_iff in Hp. destruct (IHp Hps) as [-> ->].
    now rewrite Hp, Hp'. }
  destruct H3 as [H3 H4].
  change ((c :: u) ++ rest) with (c :: u ++ rest) in *.
  cbn [lazy_until]. unfold lookahead. rewrite H1, H3.
  assert (Hd : at_dollar (c :: u ++ rest) = false).
  { destruct (u ++ rest) eqn:E; [|reflexivity].
    apply app_eq_nil in E as [-> ->]. destruct Hr as [Hr|Hr]; [congruence|exact Hr]. }
  rewrite Hd. cbn [orb app]. f_equal. apply IH.
  - destruct Hr as [Hr|Hr]; [now left|]. right.
    destruct u as [|e u]; [reflexivity|]. now rewrite ends_nl_cons in Hr.
  - cbn [forallb]. now rewrite H1', H4.
Qed.


Lemma lazy_until_blank (stops : list str) (rest : str) :
  lazy_until stops (nl :: nl :: rest) = [].
Proof. reflexivity. Qed.

Lemma take_line_oneline (v tail : str) :
  oneline v = true -> line_end tail = true ->
  take_while (fun c => negb (Ascii.eqb c nl)) (v ++ tail) = v.
Proof.
  intros Hv Ht. induction v as [|c v IH]; simpl.
  - destruct tail as [|d tail]; [reflexivity|]. simpl in *. now rewrite Ht.
  - simpl in Hv. apply andb_true_iff in Hv as [Hc Hv]. rewrite Hc. now rewrite IH.
Qed.

(** The group of [label(.+)] when the label is first matched in front of
    the non-empty rest [v] of a line. *)
Lemma search_line_here (lab pre v tail : str) :
  lab <> [] -> v <> [] -> oneline v = true -> line_end tail = true ->
  no_start lab pre (lab ++ v ++ tail) = true ->
  search_line lab (pre ++ lab ++ v ++ tail) = Some v.
Proof.
  intros Hl Hv Ho Ht Hp. rewrite search_line_skip by assumption.
  destruct lab as [|x lab]; [congruence|].
  change (search_line (x :: lab) ((x :: lab) ++ v ++ tail))
    with (match strip_prefix (x :: lab) ((x :: lab) ++ v ++ tail) with
          | Some (d :: r) =>
              if Ascii.eqb d nl then search_line (x :: lab) (lab ++ v ++ tail)
              else Some (take_while (fun c => negb (Ascii.eqb c nl)) (d :: r))
          | _ => search_line (x :: lab) (lab ++ v ++ tail)
          end).
  rewrite strip_prefix_app.
  destruct v as [|d v]; [congruence|].
  assert (Hd : Ascii.eqb d nl = false).
  { simpl in Ho. apply andb_true_iff in Ho as [Ho _]. now apply negb_true_iff in Ho. }
  cbn [app]. rewrite Hd. f_equal.
  now apply (take_line_oneline (d :: v) tail).
Qed.






(* ================================================================== *)
(** * Blocks *)
(* ================================================================== *)









(* ================================================================== *)
(** * Occurrences *)
(* ================================================================== *)

Lemma starts_with_app_r (w x y : str) :
  starts_with w x = true -> starts_with w (x ++ y) = true.
Proof.
  revert x; induction w as [|a w IH]; intros [|b x]; simpl; try congruence.
  rewrite !andb_true_iff. intros [E H]. split; [exact E|]. now apply IH.
Qed.

Lemma occurs_app_l (w x y : str) : occurs w (x ++ y) = false -> occurs w x = false.
Proof.
  induction x as [|c x IH].
  - intros H. destruct w; [destruct y; simpl in H; discriminate|reflexivity].
  - change ((c :: x) ++ y) with (c :: x ++ y). cbn [occurs].
    rewrite !orb_false_iff. intros [H1 H2]. split; [|now apply IH].
    destruct (starts_with w (c :: x)) eqn:E; [|reflexivity].
    apply (starts_with_app_r _ _ y) in E. simpl in *. congruence.
Qed.

Lemma occurs_app_r (w x y : str) : occurs w (x ++ y) = false -> occurs w y = false.
Proof.
  induction x as [|c x IH]; [trivial|].
  change ((c :: x) ++ y) with (c :: x ++ y). cbn [occurs].
  rewrite orb_false_iff. intros [_ H]. now apply IH.
Qed.

Lemma occurs_here (w x : str) : occurs w (w ++ x) = true.
Proof.
  destruct w as [|a w]; [now destruct x|].
  change ((a :: w) ++ x) with (a :: w ++ x). cbn [occurs].
  change (a :: w ++ x) with ((a :: w) ++ x). now rewrite starts_with_app.
Qed.

Lemma occurs_app_intro (w x y : str) : occurs w (x ++ w ++ y) = true.
Proof.
  induction x as [|c x IH]; [exact (occurs_here w y)|].
  change ((c :: x) ++ w ++ y) with (c :: x ++ w ++ y). cbn [occurs].
  rewrite IH. apply orb_true_r.
Qed.

Lemma rstrip_prefix (x : str) : exists sp, x = rstrip x ++ sp.
Proof.
  induction x as [|c x [sp IH]]; [now exists []|]. simpl.
  destruct (rstrip x) eqn:E.
  - destruct (is_space c).
    + now exists (c :: x).
    + now exists x.
  - exists sp. cbn [app] in *. now f_equal.
Qed.

Lemma occurs_rstrip (w x : str) : occurs w x = false -> occurs w (rstrip x) = false.
Proof.
  destruct (rstrip_prefix x) as [sp E]. rewrite E at 1. apply occurs_app_l.
Qed.

Lemma oneline_app (x y : str) : oneline (x ++ y) = oneline x && oneline y.
Proof. apply forallb_app. Qed.

Lemma oneline_rstrip (x : str) : oneline x = true -> oneline (rstrip x) = true.
Proof.
  destruct (rstrip_prefix x) as [sp E]. rewrite E at 1. rewrite oneline_app.
  now intros [H _]%andb_true_iff.
Qed.

(** ** Stripped texts *)

Lemma lstrip_rstrip (b : str) : lstrip (rstrip b) = rstrip (lstrip b).
Proof.
  unfold lstrip. induction b as [|c b IH]; [reflexivity|].
  cbn [rstrip drop_while].
  destruct (is_space c) eqn:E.
  - destruct (rstrip b) eqn:Er.
    + simpl in IH. now rewrite <- IH.
    + rewrite <- IH. simpl. now rewrite E.
  - destruct (rstrip b) eqn:Er; simpl; now rewrite E, ?Er.
Qed.

Lemma strip_rstrip (b : str) : strip (rstrip b) = strip b.
Proof.
  unfold strip. now rewrite lstrip_rstrip, rstrip_idem.
Qed.

Lemma stripped_rstrip (x : str) : stripped x = true -> rstrip x = x.
Proof.
  unfold stripped. rewrite str_eqb_eq. unfold strip. intros H.
  rewrite <- H at 1. rewrite rstrip_idem. exact H.
Qed.

Lemma stripped_lstrip (x : str) : stripped x = true -> lstrip x = x.
Proof.
  unfold stripped. rewrite str_eqb_eq. intros H.
  rewrite <- H at 1. unfold strip.
  rewrite lstrip_id; [exact H|]. apply rstrip_no_lead, lstrip_no_lead.
Qed.

Lemma stripped_strip (x : str) : stripped x = true -> strip x = x.
Proof. unfold stripped. now rewrite str_eqb_eq. Qed.

Lemma rstrip_spaces_after (x y : str) :
  forallb is_space y = true -> rstrip (x ++ y) = rstrip x.
Proof.
  intros H. induction x as [|c x IH]; simpl.
  - now apply rstrip_nil_iff.
  - now rewrite IH.
Qed.

(** ** Decimal numerals *)

Lemma chars_of_uint_digits (u : Decimal.uint) :
  forallb is_digit (chars_of_uint u) = true.
Proof. induction u; simpl; auto. Qed.

Lemma uint_of_chars_of_uint (u : Decimal.uint) : uint_of_chars (chars_of_uint u) = u.
Proof. induction u; simpl; [reflexivity|..]; now rewrite IHu. Qed.

Lemma int_of_str_of_nat (n : nat) : int_of_str (str_of_nat n) = n.
Proof.
  unfold int_of_str, str_of_nat. rewrite uint_of_chars_of_uint.
  apply DecimalNat.Unsigned.of_to.
Qed.

Lemma str_of_nat_digits (n : nat) : forallb is_digit (str_of_nat n) = true.
Proof. apply chars_of_uint_digits. Qed.

Lemma str_of_nat_nonempty (n : nat) : str_of_nat n <> [].
Proof.
  unfold str_of_nat. intros H.
  assert (E : Nat.to_uint n = Decimal.Nil).
  { rewrite <- (uint_of_chars_of_uint (Nat.to_uint n)), H. reflexivity. }
  assert (E' : Nat.of_uint (Nat.to_uint n) = 0) by now rewrite E.
  rewrite DecimalNat.Unsigned.of_to in E'. subst n. discriminate.
Qed.

Lemma digits1_span (ds rest : str) :
  ds <> [] -> forallb is_digit ds = true -> negb (starts_with_digit rest) = true ->
  digits1 (ds ++ rest) = Some (ds, rest).
Proof.
  intros Hn Hd Hr. unfold digits1.
  assert (Hr' : match rest with [] => True | c :: _ => is_digit c = false end).
  { destruct rest as [|c r]; [exact I|]. now apply negb_true_iff in Hr. }
  assert (E1 : take_while is_digit (ds ++ rest) = ds).
  { clear Hn. induction ds as [|c ds IH]; cbn [take_while forallb app] in *.
    - destruct rest as [|c r]; [reflexivity|]. cbn [take_while]. now rewrite Hr'.
    - apply andb_true_iff in Hd as [Hc Hd]. now rewrite Hc, IH. }
  assert (E2 : drop_while is_digit (ds ++ rest) = rest).
  { clear Hn E1. induction ds as [|c ds IH]; cbn [drop_while forallb app] in *.
    - destruct rest as [|c r]; [reflexivity|]. cbn [drop_while]. now rewrite Hr'.
    - apply andb_true_iff in Hd as [Hc Hd]. now rewrite Hc, IH. }
  rewrite E1, E2. destruct ds; [congruence|reflexivity].
Qed.

Lemma no_start_digits (x : ascii) (lab : str) (n : nat) (rest : str) :
  is_digit x = false -> no_start (x :: lab) (str_of_nat n) rest = true.
Proof.
  intros Hx. apply no_start_chars.
  pose proof (str_of_nat_digits n) as H.
  induction (str_of_nat n) as [|c s IH]; [reflexivity|].
  cbn [forallb] in *. apply andb_true_iff in H as [Hc Hs]. rewrite IH by assumption.
  rewrite andb_true_r, negb_true_iff.
  destruct (Ascii.eqb x c) eqn:E; [|reflexivity].
  apply Ascii.eqb_eq in E. congruence.
Qed.

(* ================================================================== *)
(** * Blocks of lines *)
(* ================================================================== *)

Lemma unlines_cons (l : str) (ls : list str) (rest : str) :
  unlines (l :: ls) ++ rest = l ++ nl :: (unlines ls ++ rest).
Proof.
  unfold unlines. cbn [map concat]. now rewrite <- !app_assoc.
Qed.

Lemma solid_facts (l : str) :
  solid l = true ->
  oneline l = true /\ l <> [] /\ no_lead l /\ rstrip l <> []
  /\ exists c l', l = c :: l' /\ Ascii.eqb c nl = false /\ is_space c = false.
Proof.
  unfold solid. destruct l as [|c l]; [now rewrite andb_false_r|].
  rewrite andb_true_iff, negb_true_iff. intros [H1 H2].
  repeat split; try assumption; try discriminate.
  - simpl. destruct (rstrip l); [rewrite H2|]; discriminate.
  - exists c, l. repeat split; [|assumption].
    simpl in H1. apply andb_true_iff in H1 as [H1 _]. now apply negb_true_iff in H1.
Qed.

Lemma oneline_no_blank (l rest : str) :
  oneline l = true -> no_start [nl; nl] l rest = true.
Proof.
  intros H. apply no_start_chars. unfold oneline in H.
  induction l as [|c l IH]; [reflexivity|].
  cbn [forallb] in *. apply andb_true_iff in H as [Hc Hl].
  rewrite IH by assumption. rewrite andb_true_r.
  rewrite Ascii.eqb_sym. exact Hc.
Qed.

Lemma starts_with_newline_false (stop : str) (s : str) :
  nonempty stop && oneline stop = true -> starts_with stop (nl :: s) = false.
Proof.
  destruct stop as [|a stop]; [discriminate|]. simpl.
  rewrite andb_true_iff, negb_true_iff. intros [Ha _]. now rewrite Ha.
Qed.

(** The lazy group in front of a block of solid lines that a blank line
    follows takes the lines and stops at the blank line. *)
Lemma lazy_until_lines (stops : list str) (ls : list str) (rest : str) :
  ls <> [] ->
  forallb solid ls = true ->
  forallb (fun stop => nonempty stop && oneline stop
                       && negb (occurs stop (unlines ls))) stops = true ->
  lazy_until stops (unlines ls ++ nl :: rest) = join [nl] ls.
Proof.
  induction ls as [|l ls IH]; [congruence|]. intros _ Hs Hstops.
  cbn [forallb] in Hs. apply andb_true_iff in Hs as [Hl Hs].
  destruct (solid_facts l Hl) as (Hone & Hne & _).
  rewrite unlines_cons.
  rewrite lazy_until_skip; [|left; discriminate|].
  2:{ cbn [forallb]. rewrite oneline_no_blank by assumption. cbn [andb].
      clear IH. induction stops as [|p ps IHp]; [reflexivity|].
      cbn [forallb] in *. apply andb_true_iff in Hstops as [Hp Hps].
      rewrite IHp by assumption. rewrite andb_true_r.
      apply andb_true_iff in Hp as [Hp1 Hp2]. apply andb_true_iff in Hp1 as [_ Hp1].
      apply negb_true_iff in Hp2.
      rewrite <- (app_nil_r p) at 1. apply no_start_section; [assumption|].
      unfold unlines in Hp2. cbn [map concat] in Hp2.
      now apply occurs_app_l, occurs_app_l in Hp2. }
  destruct ls as [|l' ls].
  - cbn [unlines map concat app]. rewrite lazy_until_blank. cbn [join]. apply app_nil_r.
  - assert (Hstops' : forallb (fun stop => nonempty stop && oneline stop
                         && negb (occurs stop (unlines (l' :: ls)))) stops = true).
    { clear IH. induction stops as [|p ps IHp]; [reflexivity|].
      cbn [forallb] in *. apply andb_true_iff in Hstops as [Hp Hps].
      rewrite IHp by assumption. rewrite andb_true_r.
      apply andb_true_iff in Hp as [Hp1 Hp2]. rewrite Hp1. cbn [andb].
      apply negb_true_iff in Hp2. apply negb_true_iff.
      change (unlines (l :: l' :: ls)) with ((l ++ [nl]) ++ unlines (l' :: ls)) in Hp2.
      now apply occurs_app_r in Hp2. }
    specialize (IH ltac:(discriminate) Hs Hstops').
    cbn [forallb] in Hs. apply andb_true_iff in Hs as [Hl' _].
    destruct (solid_facts l' Hl') as (_ & _ & _ & _ & c & l'' & -> & Hc & _).
    change (join [nl] (l :: (c :: l'') :: ls))
      with (l ++ nl :: join [nl] ((c :: l'') :: ls)).
    f_equal.
    assert (E : unlines ((c :: l'') :: ls) ++ nl :: rest
                = c :: (l'' ++ nl :: unlines ls ++ nl :: rest))
      by now rewrite unlines_cons.
    rewrite E in *.
    set (tl := l'' ++ nl :: unlines ls ++ nl :: rest) in *.
    change (lazy_until stops (nl :: c :: tl))
      with (if lookahead stops (nl :: c :: tl) then []
            else nl :: lazy_until stops (c :: tl)).
    assert (Hla : lookahead stops (nl :: c :: tl) = false).
    { unfold lookahead. rewrite at_dollar_long, orb_false_r.
      apply orb_false_iff. split.
      - cbn [starts_with]. rewrite Ascii.eqb_sym in Hc. rewrite Hc.
        now rewrite andb_false_r.
      - clear IH Hstops'. induction stops as [|p ps IHp]; [reflexivity|].
        cbn [forallb existsb] in *. apply andb_true_iff in Hstops as [Hp Hps].
        rewrite IHp by assumption. rewrite orb_false_r.
        apply andb_true_iff in Hp as [Hp _].
        now apply starts_with_newline_false. }
    rewrite Hla. f_equal. exact IH.
Qed.

Lemma join_snoc (sep : str) (init : list str) (l : str) :
  join sep (init ++ [l])
  = match init with
    | [] => l
    | _ => join sep init ++ sep ++ l
    end.
Proof.
  induction init as [|a init IH]; [reflexivity|].
  destruct init as [|b init]; [reflexivity|].
  change (join sep ((a :: b :: init) ++ [l]))
    with (a ++ sep ++ join sep ((b :: init) ++ [l])).
  rewrite IH.
  change (join sep (a :: b :: init)) with (a ++ sep ++ join sep (b :: init)).
  now rewrite <- !app_assoc.
Qed.

Lemma join_no_lead (ls : list str) :
  forallb solid ls = true -> no_lead (join [nl] ls).
Proof.
  destruct ls as [|l ls]; [exact (fun _ => I)|].
  cbn [forallb]. intros [Hl _]%andb_true_iff.
  destruct (solid_facts l Hl) as (_ & _ & _ & _ & c & l' & -> & _ & Hc).
  destruct ls; exact Hc.
Qed.

Lemma forallb_oneline_solid (ls : list str) :
  forallb solid ls = true -> forallb oneline ls = true.
Proof.
  induction ls as [|l ls IH]; [reflexivity|]. cbn [forallb].
  intros [Hl Hs]%andb_true_iff. rewrite IH by assumption.
  unfold solid in Hl. apply andb_true_iff in Hl as [-> _]. reflexivity.
Qed.

(** Parsing the stripped text of a block of solid lines line by line
    gives what the lines give, when the step [f] does not see the spaces
    at the end of a line. *)
Lemma flat_map_stripped_lines {A} (f : str -> list A) (ls : list str) :
  f [] = [] ->
  forallb solid ls = true ->
  (forall l, In l ls -> f (rstrip l) = f l) ->
  flat_map f (split_char nl (strip (join [nl] ls))) = flat_map f ls.
Proof.
  intros Hnil Hs Hf.
  destruct ls as [|a ls'].
  { cbn. now rewrite Hnil. }
  destruct (exists_last (l := a :: ls') ltac:(discriminate)) as (init & l & E).
  rewrite E in *. clear E a ls'.
  unfold strip. rewrite (lstrip_id _ (join_no_lead _ Hs)).
  rewrite forallb_app in Hs. apply andb_true_iff in Hs as [Hi Hl].
  cbn [forallb] in Hl. rewrite andb_true_r in Hl.
  destruct (solid_facts l Hl) as (Hone & _ & _ & Hr & _).
  assert (E : rstrip (join [nl] (init ++ [l])) = join [nl] (init ++ [rstrip l])).
  { rewrite !join_snoc. destruct init; [reflexivity|].
    now rewrite !app_assoc, rstrip_app. }
  rewrite E, flat_map_lines; [|assumption|].
  - rewrite !flat_map_app. cbn [flat_map].
    rewrite Hf; [reflexivity|]. apply in_or_app. right. now left.
  - rewrite forallb_app. rewrite (forallb_oneline_solid _ Hi).
    cbn [forallb]. now rewrite oneline_rstrip.
Qed.

(** ** Lines of the headings block *)

Lemma partition_char_app (c : ascii) (a b : str) :
  lacks c a = true -> partition_char c (a ++ c :: b) = Some (a, b).
Proof.
  induction a as [|x a IH]; simpl.
  - now rewrite Ascii.eqb_refl.
  - rewrite andb_true_iff, negb_true_iff. intros [-> H]. now rewrite IH.
Qed.

Lemma partition_char_Some (c : ascii) (l a b : str) :
  partition_char c l = Some (a, b) -> l = a ++ c :: b /\ lacks c a = true.
Proof.
  revert a; induction l as [|x l IH]; intros a; simpl; [discriminate|].
  destruct (Ascii.eqb x c) eqn:E.
  - apply Ascii.eqb_eq in E. intros [= <- <-]. now subst.
  - destruct (partition_char c l) as [[a' b']|]; [|discriminate].
    intros [= <- <-]. destruct (IH a' eq_refl) as [-> H].
    simpl. now rewrite E, H.
Qed.

Lemma partition_char_None (c : ascii) (l : str) :
  partition_char c l = None <-> lacks c l = true.
Proof.
  induction l as [|x l IH]; simpl; [tauto|].
  destruct (Ascii.eqb x c); simpl.
  - split; discriminate.
  - destruct (partition_char c l) as [[a b]|]; [|tauto].
    split; [discriminate|]. intros H. apply IH in H. discriminate.
Qed.

Lemma lacks_rstrip (c : ascii) (l : str) : lacks c l = true -> lacks c (rstrip l) = true.
Proof.
  destruct (rstrip_prefix l) as [sp E]. rewrite E at 1. unfold lacks.
  rewrite forallb_app. now intros [H _]%andb_true_iff.
Qed.

Lemma heading_of_line_rstrip (l : str) :
  heading_of_line (rstrip l) = heading_of_line l.
Proof.
  unfold heading_of_line.
  destruct (partition_char ":" l) as [[a b]|] eqn:E.
  - apply partition_char_Some in E as [-> Ha].
    rewrite rstrip_cons_keep by reflexivity.
    rewrite partition_char_app by assumption. now rewrite strip_rstrip.
  - apply partition_char_None in E. apply lacks_rstrip in E.
    apply partition_char_None in E. now rewrite E.
Qed.

Lemma upper_level (lv : str) :
  existsb (str_eqb lv) LEVELS = true ->
  exists dg, upper lv = ["H"; dg] /\ is_digit dg = true.
Proof.
  rewrite existsb_exists. intros (x & Hin & E). apply str_eqb_eq in E. subst x.
  simpl in Hin.
  repeat (destruct Hin as [<-|Hin]; [eexists; split; vm_compute; reflexivity|]).
  contradiction.
Qed.

Lemma digit_facts (c : ascii) :
  is_digit c = true ->
  is_space c = false /\ Ascii.eqb c nl = false /\ Ascii.eqb c ":" = false
  /\ Ascii.eqb c "-" = false /\ Ascii.eqb c "." = false.
Proof.
  destruct c as [[] [] [] [] [] [] [] []]; vm_compute; intros H;
    try discriminate; repeat split.
Qed.

Lemma plain_facts (s : str) :
  plain s = true -> oneline s = true /\ strip s = s.
Proof.
  unfold plain. rewrite andb_true_iff. intros [H1 H2].
  split; [assumption|]. now apply stripped_strip.
Qed.

Lemma strip_after_blank (s : str) : strip (" " :: s) = strip s.
Proof. reflexivity. Qed.

Lemma heading_line_facts (h : Heading) :
  heading_ok h = true ->
  solid (heading_text_line h) = true
  /\ heading_of_line (heading_text_line h) = [shown_heading h].
Proof.
  unfold heading_ok. rewrite andb_true_iff. intros [Hlv Htx].
  destruct (upper_level _ Hlv) as (dg & E & Hdg).
  destruct (digit_facts _ Hdg) as (Hsp & Hnl & Hcolon & _).
  destruct (plain_facts _ Htx) as (Hone & Hstrip).
  unfold heading_text_line, shown_heading. rewrite E. split.
  - unfold solid. cbn [app lit String.list_ascii_of_string oneline forallb].
    rewrite Hnl. unfold oneline in Hone. now rewrite Hone.
  - unfold heading_of_line.
    change (["H"; dg] ++ lit ": " ++ text h)
      with (["H"; dg] ++ ":" :: " " :: text h).
    rewrite (partition_char_app ":" ["H"; dg] (" " :: text h)).
    + rewrite strip_after_blank, Hstrip. f_equal. f_equal.
      unfold strip, lstrip. cbn [drop_while]. 
      change (is_space "H") with false. cbv iota.
      cbn [rstrip]. now rewrite Hsp.
    + cbn [lacks forallb]. now rewrite Hcolon.
Qed.

Lemma heading_lines_unlines (hs : list Heading) :
  concat (map heading_line hs) = unlines (map heading_text_line hs).
Proof.
  unfold unlines. rewrite map_map. f_equal. apply map_ext. intros h.
  unfold heading_line, heading_text_line. now rewrite <- !app_assoc.
Qed.

Lemma heading_lines_solid (hs : list Heading) :
  forallb heading_ok hs = true ->
  forallb solid (map heading_text_line hs) = true.
Proof.
  induction hs as [|h hs IH]; [reflexivity|]. cbn [forallb map].
  intros [Hh Hs]%andb_true_iff. rewrite IH by assumption.
  now rewrite (proj1 (heading_line_facts h Hh)).
Qed.

Lemma heading_lines_parse (hs : list Heading) :
  forallb heading_ok hs = true ->
  flat_map heading_of_line (map heading_text_line hs) = map shown_heading hs.
Proof.
  induction hs as [|h hs IH]; [reflexivity|]. cbn [forallb map flat_map].
  intros [Hh Hs]%andb_true_iff. rewrite IH by assumption.
  now rewrite (proj2 (heading_line_facts h Hh)).
Qed.

(** The headings parsed from the text of a headings block. *)
Lemma parse_headings_block (hs : list Heading) :
  forallb heading_ok hs = true ->
  parse_headings (strip (join [nl] (map heading_text_line hs)))
  = map shown_heading hs.
Proof.
  intros H. unfold parse_headings. fold heading_of_line.
  rewrite flat_map_stripped_lines.
  - now apply heading_lines_parse.
  - reflexivity.
  - now apply heading_lines_solid.
  - intros l _. apply heading_of_line_rstrip.
Qed.

(** ** Lines of the links block *)

Lemma occurs_arrow_cons (c : ascii) (s : str) :
  Ascii.eqb c "-" = false -> occurs ARROW (c :: s) = occurs ARROW s.
Proof.
  intros H. cbn [occurs ARROW lit String.list_ascii_of_string starts_with].
  now rewrite Ascii.eqb_sym, H.
Qed.

Lemma occurs_arrow_skip (x y : str) :
  lacks "-" x = true -> occurs ARROW (x ++ y) = occurs ARROW y.
Proof.
  induction x as [|c x IH]; [reflexivity|]. cbn [lacks forallb].
  rewrite andb_true_iff, negb_true_iff. intros [Hc Hx].
  change ((c :: x) ++ y) with (c :: x ++ y).
  rewrite occurs_arrow_cons by assumption. now apply IH.
Qed.

Lemma occurs_arrow_snoc (x : str) (c : ascii) :
  Ascii.eqb c ">" = false -> occurs ARROW x = false ->
  occurs ARROW (x ++ [c]) = false.
Proof.
  intros Hc. induction x as [|d x IH].
  - intros _. cbn. now rewrite andb_false_r.
  - change ((d :: x) ++ [c]) with (d :: x ++ [c]).
    cbn [occurs]. rewrite !orb_false_iff. intros [H1 H2].
    split; [|now apply IH].
    cbn [ARROW lit String.list_ascii_of_string starts_with] in *.
    destruct (Ascii.eqb "-" d); [|reflexivity]. cbn [andb] in *.
    destruct x as [|e x]; cbn [app starts_with] in *.
    + rewrite Ascii.eqb_sym. now rewrite Hc.
    + destruct (Ascii.eqb ">" e); [discriminate|reflexivity].
Qed.

Lemma split_arrow_none (b : str) : occurs ARROW b = false -> split_arrow b = [b].
Proof.
  induction b as [|x b IH]; [reflexivity|].
  cbn [occurs]. rewrite orb_false_iff. intros [H1 H2].
  destruct b as [|y b]; [reflexivity|].
  rewrite split_arrow_cons.
  cbn [ARROW lit String.list_ascii_of_string starts_with] in H1.
  rewrite andb_true_r in H1.
  rewrite (Ascii.eqb_sym x), (Ascii.eqb_sym y), H1.
  now rewrite IH.
Qed.

Lemma split_arrow_prefix (a b : str) :
  occurs ARROW a = false ->
  split_arrow (a ++ ARROW ++ b) = a :: split_arrow b.
Proof.
  induction a as [|x a IH]; [reflexivity|].
  cbn [occurs]. rewrite orb_false_iff. intros [H1 H2].
  specialize (IH H2).
  change ((x :: a) ++ ARROW ++ b) with (x :: a ++ ARROW ++ b).
  destruct a as [|y a].
  - change ([] ++ ARROW ++ b) with ("-" :: ">" :: b) in *.
    rewrite split_arrow_cons.
    change (Ascii.eqb "-" ">") with false. rewrite andb_false_r.
    now rewrite IH.
  - change ((y :: a) ++ ARROW ++ b) with (y :: a ++ ARROW ++ b) in *.
    rewrite split_arrow_cons.
    cbn [ARROW lit String.list_ascii_of_string starts_with] in H1.
    rewrite andb_true_r in H1.
    rewrite (Ascii.eqb_sym x), (Ascii.eqb_sym y), H1.
    now rewrite IH.
Qed.

Lemma rstrip_arrow (a b : str) : rstrip (a ++ ARROW ++ b) = a ++ ARROW ++ rstrip b.
Proof.
  change (a ++ ARROW ++ b) with (a ++ "-" :: ">" :: b).
  rewrite rstrip_cons_keep by reflexivity.
  change (rstrip (">" :: b)) with (rstrip ([] ++ ">" :: b)).
  now rewrite (rstrip_cons_keep [] b ">").
Qed.

(** A line with exactly one token gives the link of its two parts. *)
Lemma parse_link_line_one (a b : str) :
  occurs ARROW a = false -> occurs ARROW b = false ->
  parse_link_line (a ++ ARROW ++ b)
  = Some (mkLink (strip_enum (strip a)) (strip b)).
Proof.
  intros Ha Hb. unfold parse_link_line. fold ARROW.
  rewrite occurs_app_intro, split_arrow_prefix, split_arrow_none by assumption.
  reflexivity.
Qed.

Lemma lacks_digits (c : ascii) (ds : str) :
  is_digit c = false -> forallb is_digit ds = true -> lacks c ds = true.
Proof.
  intros Hc. induction ds as [|d ds IH]; [reflexivity|].
  cbn [forallb lacks]. intros [Hd Hds]%andb_true_iff.
  fold (lacks c ds). rewrite IH by assumption. rewrite andb_true_r, negb_true_iff.
  destruct (Ascii.eqb d c) eqn:E; [|reflexivity].
  apply Ascii.eqb_eq in E. congruence.
Qed.

Lemma strip_enum_numbered (num tx : str) :
  num <> [] -> forallb is_digit num = true -> stripped tx = true ->
  strip_enum (strip (num ++ lit ". " ++ tx ++ [" "])) = tx.
Proof.
  intros Hn Hd Ht.
  assert (Hlead : no_lead (num ++ lit ". " ++ tx ++ [" "])).
  { destruct num as [|c num]; [congruence|]. cbn [forallb] in Hd.
    apply andb_true_iff in Hd as [Hc _]. now apply digit_facts in Hc. }
  unfold strip. rewrite (lstrip_id _ Hlead).
  change (num ++ lit ". " ++ tx ++ [" "]) with (num ++ "." :: (" " :: tx) ++ [" "]).
  rewrite rstrip_cons_keep by reflexivity.
  rewrite rstrip_spaces_after by reflexivity.
  unfold strip_enum. rewrite digits1_span; [|assumption|assumption|reflexivity].
  change (Ascii.eqb "." ".") with true. cbv iota.
  fold (lstrip (rstrip (" " :: tx))). rewrite lstrip_rstrip.
  change (lstrip (" " :: tx)) with (lstrip tx).
  now apply stripped_strip.
Qed.

Lemma link_line_shape (n : nat) (l : Link) :
  link_text_line (n, l)
  = (str_of_nat n ++ lit ". " ++ link_text l ++ [" "]) ++ ARROW ++ " " :: href l.
Proof.
  unfold link_text_line. cbn [fst snd]. now rewrite <- !app_assoc.
Qed.

Lemma link_line_facts (n : nat) (l : Link) :
  link_ok l = true ->
  solid (link_text_line (n, l)) = true
  /\ link_of_line (link_text_line (n, l)) = [l]
  /\ link_of_line (rstrip (link_text_line (n, l)))
     = link_of_line (link_text_line (n, l)).
Proof.
  unfold link_ok. rewrite !andb_true_iff, !negb_true_iff.
  intros [[[Ht Hta] Hh] Hha].
  destruct (plain_facts _ Ht) as (Hto & Hts).
  destruct (plain_facts _ Hh) as (Hho & Hhs).
  pose proof (str_of_nat_digits n) as Hd.
  pose proof (str_of_nat_nonempty n) as Hn.
  assert (Ha : occurs ARROW (str_of_nat n ++ lit ". " ++ link_text l ++ [" "]) = false).
  { rewrite occurs_arrow_skip by (apply lacks_digits; [reflexivity|assumption]).
    change (lit ". " ++ link_text l ++ [" "]) with (lit ". " ++ (link_text l ++ [" "])).
    rewrite occurs_arrow_skip by reflexivity.
    now apply occurs_arrow_snoc. }
  assert (Hb : occurs ARROW (" " :: href l) = false).
  { now rewrite occurs_arrow_cons by reflexivity. }
  assert (Hone : link_of_line (link_text_line (n, l)) = [l]).
  { rewrite link_line_shape. unfold link_of_line.
    rewrite parse_link_line_one by assumption.
    rewrite strip_enum_numbered; try assumption.
    - rewrite strip_after_blank, Hhs. now destruct l.
    - unfold plain in Ht. now apply andb_true_iff in Ht as [_ Ht]. }
  split; [|split; [exact Hone|]].
  - unfold solid, link_text_line. cbn [fst snd].
    rewrite !oneline_app, Hto, Hho.
    assert (Hdo : oneline (str_of_nat n) = true).
    { apply lacks_digits; [reflexivity|assumption]. }
    rewrite Hdo. cbn [andb].
    destruct (str_of_nat n) as [|c s]; [congruence|].
    cbn [forallb app] in *. apply andb_true_iff in Hd as [Hc _].
    apply digit_facts in Hc. destruct Hc as [-> _]. reflexivity.
  - rewrite Hone, link_line_shape, rstrip_arrow.
    unfold link_of_line. rewrite parse_link_line_one;
      [|assumption|now apply occurs_rstrip].
    rewrite strip_enum_numbered; try assumption.
    + rewrite strip_rstrip, strip_after_blank, Hhs. now destruct l.
    + unfold plain in Ht. now apply andb_true_iff in Ht as [_ Ht].
Qed.

Lemma link_lines_unlines (xs : list (nat * Link)) :
  concat (map link_entry xs) = unlines (map link_text_line xs).
Proof.
  unfold unlines. rewrite map_map. f_equal. apply map_ext. intros il.
  unfold link_entry, link_text_line. now rewrite <- !app_assoc.
Qed.

Lemma link_lines_solid (ns : list nat) (ls : list Link) :
  forallb link_ok ls = true ->
  forallb solid (map link_text_line (combine ns ls)) = true.
Proof.
  revert ns; induction ls as [|l ls IH]; intros [|n ns]; try reflexivity.
  cbn [forallb combine map]. intros [Hl Hs]%andb_true_iff.
  rewrite IH by assumption.
  now rewrite (proj1 (link_line_facts n l Hl)).
Qed.

Lemma link_lines_parse (ns : list nat) (ls : list Link) :
  length ls <= length ns ->
  forallb link_ok ls = true ->
  flat_map link_of_line (map link_text_line (combine ns ls)) = ls.
Proof.
  revert ns; induction ls as [|l ls IH]; intros [|n ns] Hlen; try reflexivity;
    cbn [length] in Hlen; try lia.
  cbn [forallb combine map flat_map]. intros [Hl Hs]%andb_true_iff.
  rewrite IH by (assumption || lia).
  destruct (link_line_facts n l Hl) as (_ & -> & _). reflexivity.
Qed.

Lemma link_lines_rstrip (ns : list nat) (ls : list Link) :
  forallb link_ok ls = true ->
  forall line, In line (map link_text_line (combine ns ls)) ->
  link_of_line (rstrip line) = link_of_line line.
Proof.
  intros H line Hin. apply in_map_iff in Hin as ((n & l) & <- & Hin).
  apply in_combine_r in Hin.
  rewrite forallb_forall in H. now apply link_line_facts, H.
Qed.

(** The links parsed from the text of a links block. *)
Lemma parse_links_block (ls : list Link) :
  forallb link_ok ls = true ->
  parse_links (strip (join [nl] (map link_text_line (enumerate1 ls)))) = ls.
Proof.
  intros H. unfold parse_links. fold link_of_line.
  rewrite flat_map_stripped_lines.
  - apply link_lines_parse; [|assumption]. now rewrite length_seq.
  - reflexivity.
  - now apply link_lines_solid.
  - now apply link_lines_rstrip.
Qed.

(* ================================================================== *)
(** * Labels in the dump *)
(* ================================================================== *)

Lemma text_dump_parts (d : ScrapedData) :
  text_dump d
  = head_part d ++ abstract_block d ++ headings_block d ++ paragraphs_block d
    ++ links_block d ++ meta_block d ++ stats_block d.
Proof.
  unfold text_dump, head_part. now rewrite <- !app_assoc.
Qed.

(** A block made of a fixed header, a body that does not contain [w] and
    a newline holds no start of the label [w ++ t]. *)
Lemma no_start_block (lab w t header body trailer rest : str) :
  lab = w ++ t -> oneline w = true -> occurs w body = false ->
  clash_all lab header = true -> clash_all lab (nl :: trailer) = true ->
  no_start lab (header ++ body ++ nl :: trailer) rest = true.
Proof.
  intros -> Hw Hb Hh Ht. rewrite !no_start_app.
  rewrite (no_start_fixed _ _ _ Hh), (no_start_fixed _ _ _ Ht).
  change ((nl :: trailer) ++ rest) with (nl :: trailer ++ rest).
  now rewrite no_start_section.
Qed.

Lemma entries_end_with_newline {A} (f : A -> str) (xs : list A) :
  xs <> [] -> exists b, concat (map (fun x => f x ++ [nl; nl]) xs) = b ++ [nl].
Proof.
  intros H. destruct (exists_last H) as (init & x & ->).
  rewrite map_app, concat_app. cbn [map concat]. rewrite app_nil_r.
  exists (concat (map (fun x => f x ++ [nl; nl]) init) ++ f x ++ [nl]).
  now rewrite <- !app_assoc.
Qed.

Lemma paragraph_entries_end (d : ScrapedData) :
  s_paragraphs d <> [] -> exists b, concat (paragraph_entries d) = b ++ [nl].
Proof.
  intros H. unfold paragraph_entries.
  assert (E : map paragraph_entry (enumerate1 (firstn 20 (s_paragraphs d)))
              = map (fun ip => (str_of_nat (fst ip) ++ lit ". " ++ snd ip) ++ [nl; nl])
                    (enumerate1 (firstn 20 (s_paragraphs d)))).
  { apply map_ext. intros ip. unfold paragraph_entry. now rewrite <- !app_assoc. }
  rewrite E. apply entries_end_with_newline.
  destruct (s_paragraphs d); [congruence|discriminate].
Qed.

Section Labels.

Variable d : ScrapedData.
Hypothesis Hfree : forallb label_free (sections d) = true.

(** A label [lab] whose head [w] is a reserved text on one line. *)
Variables lab w t : str.
Hypothesis Hlab : lab = w ++ t.
Hypothesis Hw : oneline w = true.
Hypothesis Hin : In w RESERVED.

Lemma section_free (sec : str) : In sec (sections d) -> occurs w sec = false.
Proof.
  intros Hs. rewrite forallb_forall in Hfree. specialize (Hfree _ Hs).
  unfold label_free in Hfree. rewrite forallb_forall in Hfree.
  now apply negb_true_iff, Hfree.
Qed.

Lemma no_start_head (rest : str) :
  forallb (clash_all lab) HEAD_FIXED = true ->
  no_start lab (head_part d) rest = true.
Proof.
  cbn [forallb HEAD_FIXED]. rewrite !andb_true_iff.
  intros (H1 & H2 & H3 & H4 & H5 & _).
  unfold head_part. rewrite !no_start_app.
  rewrite (no_start_fixed lab banner), (no_start_fixed lab (lit "URL: ")),
    (no_start_fixed lab [nl]), (no_start_fixed lab (lit "Title: ")),
    (no_start_fixed lab [nl; nl]) by assumption.
  subst lab.
  rewrite !no_start_before_newline;
    try reflexivity; try assumption; apply section_free; simpl; tauto.
Qed.

Lemma no_start_abstract (rest : str) :
  clash_all lab ABSTRACT_LABEL = true -> clash_all lab [nl; nl] = true ->
  no_start lab (abstract_block d) rest = true.
Proof.
  intros H1 H2. unfold abstract_block.
  assert (Hs : occurs w (get_or_empty (s_abstract d)) = false)
    by (apply section_free; simpl; tauto).
  destruct (s_abstract d) as [[|c a]|]; try reflexivity.
  apply (no_start_block lab w t ABSTRACT_LABEL (c :: a) [nl] rest); auto.
Qed.

Lemma no_start_headings (rest : str) :
  clash_all lab HEADINGS_LABEL = true -> clash_all lab [nl] = true ->
  no_start lab (headings_block d) rest = true.
Proof.
  intros H1 H2. unfold headings_block.
  assert (Hs : occurs w (concat (map heading_line (s_headings d))) = false)
    by (apply section_free; simpl; tauto).
  destruct (s_headings d) as [|h hs]; [reflexivity|].
  apply (no_start_block lab w t HEADINGS_LABEL _ [] rest); auto.
Qed.

Lemma no_start_paragraphs (rest : str) :
  clash_all lab PARAGRAPHS_LABEL = true -> clash_all lab [nl] = true ->
  no_start lab (paragraphs_block d) rest = true.
Proof.
  intros H1 H2. unfold paragraphs_block.
  assert (Hs : occurs w (concat (paragraph_entries d)) = false)
    by (apply section_free; simpl; tauto).
  pose proof (paragraph_entries_end d) as He.
  destruct (s_paragraphs d) as [|p ps]; [reflexivity|].
  destruct He as [b E]; [discriminate|]. rewrite E in *.
  apply (no_start_block lab w t PARAGRAPHS_LABEL b [] rest); auto.
  now apply (occurs_app_l _ _ [nl]).
Qed.

Lemma no_start_links (rest : str) :
  clash_all lab LINKS_LABEL = true -> clash_all lab [nl] = true ->
  no_start lab (links_block d) rest = true.
Proof.
  intros H1 H2. unfold links_block.
  assert (Hs : occurs w (concat (link_entries d)) = false)
    by (apply section_free; simpl; tauto).
  destruct (s_links d) as [|l ls]; [reflexivity|].
  apply (no_start_block lab w t LINKS_LABEL _ [] rest); auto.
Qed.

Lemma no_start_meta (rest : str) :
  clash_all lab META_LABEL = true -> clash_all lab [nl] = true ->
  no_start lab (meta_block d) rest = true.
Proof.
  intros H1 H2. unfold meta_block.
  assert (Hs : occurs w (concat (map meta_line (s_meta_tags d))) = false)
    by (apply section_free; simpl; tauto).
  destruct (s_meta_tags d) as [|m ms]; [reflexivity|].
  apply (no_start_block lab w t META_LABEL _ [] rest); auto.
Qed.

End Labels.

Lemma no_start_stats (d : ScrapedData) (lab rest : str) :
  forallb (clash_all lab) STATS_FIXED = true ->
  head_not_digit lab = true ->
  no_start lab (stats_block d) rest = true.
Proof.
  cbn [forallb STATS_FIXED]. rewrite !andb_true_iff.
  intros (H1 & H2 & H3 & H4 & H5 & H6 & H7 & _) Hd.
  assert (Hn : forall n r, no_start lab (str_of_nat n) r = true).
  { intros n r. destruct lab as [|x lab']; [discriminate|].
    apply no_start_digits. now apply negb_true_iff in Hd. }
  unfold stats_block. rewrite !no_start_app, !Hn.
  now rewrite !(no_start_fixed lab) by assumption.
Qed.

(* ================================================================== *)
(** * The round trip *)
(* ================================================================== *)

(** The fields of the parsed dictionary, one by one. *)
Lemma parse_fields (content : str) :
  let r := parse_scraped_content content in
  url r = match search_line (lit "URL: ") content with
          | Some g => strip g
          | None => []
          end
  /\ title r = match search_line (lit "Title: ") content with
               | Some g => strip g
               | None => []
               end
  /\ headings r = match search_block HEADINGS_LABEL [lit "PARAGRAPHS:"] content with
                  | Some g => parse_headings (strip g)
                  | None => []
                  end
  /\ links r = match search_block LINKS_LABEL [lit "META TAGS:"] content with
               | Some g => parse_links (strip g)
               | None => []
               end
  /\ (search_block META_LABEL [lit "FULL TEXT"] content = None ->
      statistics r = match stats_search content with
                     | Some g => stats_dict g
                     | None => []
                     end).
Proof.
  unfold parse_scraped_content.
  destruct (search_block META_LABEL [lit "FULL TEXT"] content) as [g|];
    [destruct (parse_meta content (strip g))|]; cbn; repeat split; discriminate.
Qed.

Lemma find_after_none (lab u : str) :
  lab <> [] -> no_start lab u [] = true -> find_after lab u = None.
Proof.
  intros Hl H. rewrite <- (app_nil_r u), find_after_skip by assumption.
  now destruct lab.
Qed.

Lemma stats_search_here (s : str) (g : str * str * str * str * str) :
  stats_at s = Some g -> stats_search s = Some g.
Proof. intros H. destruct s; cbn [stats_search]; now rewrite H. Qed.

Lemma stats_at_block (d : ScrapedData) :
  stats_at (stats_block d)
  = Some (str_of_nat (length (s_full_text d)),
          str_of_nat (length (s_headings d)),
          str_of_nat (length (s_paragraphs d)),
          str_of_nat (length (s_links d)),
          str_of_nat (length (s_images d))).
Proof.
  unfold stats_at, stats_block.
  rewrite strip_prefix_app.
  rewrite digits1_span;
    [|apply str_of_nat_nonempty|apply str_of_nat_digits|reflexivity].
  rewrite !(app_assoc CHARACTERS), !(app_assoc (CHARACTERS ++ [nl])).
  rewrite strip_prefix_app.
  rewrite digits1_span;
    [|apply str_of_nat_nonempty|apply str_of_nat_digits|reflexivity].
  rewrite (app_assoc [nl] TOTAL_PARAGRAPHS), strip_prefix_app.
  rewrite digits1_span;
    [|apply str_of_nat_nonempty|apply str_of_nat_digits|reflexivity].
  rewrite (app_assoc [nl] TOTAL_LINKS), strip_prefix_app.
  rewrite digits1_span;
    [|apply str_of_nat_nonempty|apply str_of_nat_digits|reflexivity].
  rewrite (app_assoc [nl] TOTAL_IMAGES), strip_prefix_app.
  rewrite digits1_span;
    [|apply str_of_nat_nonempty|apply str_of_nat_digits|reflexivity].
  reflexivity.
Qed.

Section RoundTrip.

Variable d : ScrapedData.
Hypothesis Hwf : well_formed d = true.

Lemma well_formed_facts :
  (s_url d <> [] /\ oneline (s_url d) = true /\ strip (s_url d) = s_url d)
  /\ (s_title d <> [] /\ oneline (s_title d) = true /\ strip (s_title d) = s_title d)
  /\ forallb heading_ok (s_headings d) = true
  /\ forallb link_ok (firstn 20 (s_links d)) = true
  /\ forallb label_free (sections d) = true.
Proof.
  unfold well_formed in Hwf. rewrite !andb_true_iff in Hwf.
  destruct Hwf as [[[[[[H1 H2] H3] H4] H5] H6] H7].
  destruct (plain_facts _ H2) as [? ?]. destruct (plain_facts _ H4) as [? ?].
  split; [|split; [|repeat split; assumption]].
  - repeat split; try assumption. now destruct (s_url d).
  - repeat split; try assumption. now destruct (s_title d).
Qed.

Lemma sections_label_free : forallb label_free (sections d) = true.
Proof. apply well_formed_facts. Qed.

Lemma url_found : search_line (lit "URL: ") (text_dump d) = Some (s_url d).
Proof.
  destruct well_formed_facts as ((H1 & H2 & _) & _).
  unfold text_dump. apply search_line_here; try assumption; try discriminate.
  - reflexivity.
  - apply no_start_fixed. vm_compute. reflexivity.
Qed.

Lemma title_found : search_line (lit "Title: ") (text_dump d) = Some (s_title d).
Proof.
  destruct well_formed_facts as (_ & (H1 & H2 & _) & _).
  assert (E : text_dump d
              = (banner ++ lit "URL: " ++ s_url d ++ [nl])
                ++ lit "Title: " ++ s_title d
                ++ ([nl; nl] ++ abstract_block d ++ headings_block d
                    ++ paragraphs_block d ++ links_block d ++ meta_block d
                    ++ stats_block d)).
  { unfold text_dump. now rewrite <- !app_assoc. }
  rewrite E. apply search_line_here; try assumption; try discriminate.
  - reflexivity.
  - rewrite !no_start_app.
    rewrite (no_start_fixed _ banner), (no_start_fixed _ (lit "URL: ")),
      (no_start_fixed _ [nl]) by (vm_compute; reflexivity).
    rewrite (no_start_before_newline (lit "Title: ") []); try reflexivity.
    apply (section_free d sections_label_free); simpl; tauto.
Qed.

Lemma headings_found :
  search_block HEADINGS_LABEL [lit "PARAGRAPHS:"] (text_dump d)
  = match s_headings d with
    | [] => None
    | hs => Some (join [nl] (map heading_text_line hs))
    end.
Proof.
  destruct well_formed_facts as (_ & _ & Hh & _ & _).
  pose proof sections_label_free as Hf.
  assert (Hsec : occurs (lit "PARAGRAPHS:") (concat (map heading_line (s_headings d)))
                 = false).
  { apply (section_free d Hf); simpl; tauto. }
  unfold search_block. rewrite text_dump_parts.
  rewrite find_after_skip.
  2:{ apply (no_start_head d Hf HEADINGS_LABEL (lit "HEADINGS:") [nl]);
        try reflexivity; simpl; tauto. }
  rewrite find_after_skip.
  2:{ apply (no_start_abstract d Hf HEADINGS_LABEL (lit "HEADINGS:") [nl]);
        try reflexivity; simpl; tauto. }
  unfold headings_block at 1.
  destruct (s_headings d) as [|h hs] eqn:E.
  - rewrite find_after_none; [reflexivity|discriminate|].
    cbn [app]. rewrite !no_start_app.
    rewrite (no_start_paragraphs d Hf HEADINGS_LABEL (lit "HEADINGS:") [nl]),
      (no_start_links d Hf HEADINGS_LABEL (lit "HEADINGS:") [nl]),
      (no_start_meta d Hf HEADINGS_LABEL (lit "HEADINGS:") [nl]),
      (no_start_stats d HEADINGS_LABEL);
      try reflexivity; simpl; tauto.
  - rewrite <- !app_assoc, find_after_here.
    rewrite heading_lines_unlines in *.
    cbn [app]. f_equal.
    apply lazy_until_lines.
    + discriminate.
    + now apply heading_lines_solid.
    + cbn [forallb]. now rewrite Hsec.
Qed.

Lemma links_found :
  search_block LINKS_LABEL [lit "META TAGS:"] (text_dump d)
  = match s_links d with
    | [] => None
    | _ => Some (join [nl] (map link_text_line
                              (enumerate1 (firstn 20 (s_links d)))))
    end.
Proof.
  destruct well_formed_facts as (_ & _ & _ & Hl & _).
  pose proof sections_label_free as Hf.
  assert (Hsec : occurs (lit "META TAGS:") (concat (link_entries d)) = false).
  { apply (section_free d Hf); simpl; tauto. }
  unfold search_block. rewrite text_dump_parts.
  rewrite find_after_skip.
  2:{ apply (no_start_head d Hf LINKS_LABEL (lit "LINKS (first 20):") [nl]);
        try reflexivity; simpl; tauto. }
  rewrite find_after_skip.
  2:{ apply (no_start_abstract d Hf LINKS_LABEL (lit "LINKS (first 20):") [nl]);
        try reflexivity; simpl; tauto. }
  rewrite find_after_skip.
  2:{ apply (no_start_headings d Hf LINKS_LABEL (lit "LINKS (first 20):") [nl]);
        try reflexivity; simpl; tauto. }
  rewrite find_after_skip.
  2:{ apply (no_start_paragraphs d Hf LINKS_LABEL (lit "LINKS (first 20):") [nl]);
        try reflexivity; simpl; tauto. }
  unfold links_block at 1. unfold link_entries in *.
  destruct (s_links d) as [|l ls] eqn:E.
  - rewrite find_after_none; [reflexivity|discriminate|].
    cbn [app]. rewrite !no_start_app.
    rewrite (no_start_meta d Hf LINKS_LABEL (lit "LINKS (first 20):") [nl]),
      (no_start_stats d LINKS_LABEL);
      try reflexivity; simpl; tauto.
  - rewrite <- !app_assoc, find_after_here.
    rewrite link_lines_unlines in *.
    cbn [app]. f_equal.
    apply lazy_until_lines.
    + discriminate.
    + now apply link_lines_solid.
    + cbn [forallb]. now rewrite Hsec.
Qed.

Lemma meta_absent :
  s_meta_tags d = [] ->
  search_block META_LABEL [lit "FULL TEXT"] (text_dump d) = None.
Proof.
  intros Hm. pose proof sections_label_free as Hf.
  unfold search_block. rewrite text_dump_parts.
  rewrite find_after_none; [reflexivity|discriminate|].
  rewrite !no_start_app.
  rewrite (no_start_head d Hf META_LABEL (lit "META TAGS:") [nl]),
    (no_start_abstract d Hf META_LABEL (lit "META TAGS:") [nl]),
    (no_start_headings d Hf META_LABEL (lit "META TAGS:") [nl]),
    (no_start_paragraphs d Hf META_LABEL (lit "META TAGS:") [nl]),
    (no_start_links d Hf META_LABEL (lit "META TAGS:") [nl]),
    (no_start_stats d META_LABEL);
    try reflexivity; try (simpl; tauto).
  unfold meta_block. now rewrite Hm.
Qed.

Lemma stats_found :
  s_meta_tags d = [] ->
  stats_search (text_dump d)
  = Some (str_of_nat (length (s_full_text d)),
          str_of_nat (length (s_headings d)),
          str_of_nat (length (s_paragraphs d)),
          str_of_nat (length (s_links d)),
          str_of_nat (length (s_images d))).
Proof.
  intros Hm. pose proof sections_label_free as Hf.
  rewrite text_dump_parts.
  rewrite stats_search_skip.
  2:{ apply (no_start_head d Hf FULL_TEXT_LENGTH (lit "FULL TEXT") (lit " LENGTH: "));
        try reflexivity; simpl; tauto. }
  rewrite stats_search_skip.
  2:{ apply (no_start_abstract d Hf FULL_TEXT_LENGTH (lit "FULL TEXT") (lit " LENGTH: "));
        try reflexivity; simpl; tauto. }
  rewrite stats_search_skip.
  2:{ apply (no_start_headings d Hf FULL_TEXT_LENGTH (lit "FULL TEXT") (lit " LENGTH: "));
        try reflexivity; simpl; tauto. }
  rewrite stats_search_skip.
  2:{ apply (no_start_paragraphs d Hf FULL_TEXT_LENGTH (lit "FULL TEXT") (lit " LENGTH: "));
        try reflexivity; simpl; tauto. }
  rewrite stats_search_skip.
  2:{ apply (no_start_links d Hf FULL_TEXT_LENGTH (lit "FULL TEXT") (lit " LENGTH: "));
        try reflexivity; simpl; tauto. }
  unfold meta_block. rewrite Hm. cbn [app].
  apply stats_search_here, stats_at_block.
Qed.

End RoundTrip.


(** C1, as amended.  For a well-formed document (non-empty plain [url]
    and [title], headings with a tag name as level and a plain text,
    first 20 links with plain text and [href] free of [->], sections free
    of the reserved labels), parsing the dump gives back the [url], the
    [title], the headings with their level in upper case, and the first
    20 links; when the document has no meta tags it also gives back the
    five integers of the statistics block. *)
Theorem text_dump_round_trip (d : ScrapedData) :
  well_formed d = true ->
  let r := parse_scraped_content (text_dump d) in
  url r = s_url d
  /\ title r = s_title d
  /\ headings r = map shown_heading (s_headings d)
  /\ links r = firstn 20 (s_links d)
  /\ (s_meta_tags d = [] -> statistics r = written_statistics d).
Proof.
  intros Hwf r. unfold r.
  destruct (parse_fields (text_dump d)) as (Hu & Ht & Hh & Hl & Hs).
  destruct (well_formed_facts d Hwf) as ((_ & _ & Eu) & (_ & _ & Et) & Hhs & Hls & _).
  rewrite Hu, Ht, Hh, Hl. clear Hu Ht Hh Hl.
  rewrite (url_found d Hwf), (title_found d Hwf), (headings_found d Hwf),
          (links_found d Hwf).
  repeat split.
  - exact Eu.
  - exact Et.
  - destruct (s_headings d) as [|h hs]; [reflexivity|].
    now apply parse_headings_block.
  - destruct (s_links d) as [|l ls]; [reflexivity|].
    now apply parse_links_block.
  - intros Hm. rewrite (Hs (meta_absent d Hwf Hm)), (stats_found d Hwf Hm).
    unfold stats_dict, written_statistics. now rewrite !int_of_str_of_nat.
Qed.

Lemma text_dump_round_trip_witness :
  let r := parse_scraped_content (text_dump small_page) in
  url r = s_url small_page
  /\ title r = s_title small_page
  /\ headings r = map shown_heading (s_headings small_page)
  /\ links r = firstn 20 (s_links small_page)
  /\ (s_meta_tags small_page = [] -> statistics r = written_statistics small_page).
Proof.
  apply (text_dump_round_trip small_page). vm_compute. reflexivity.
Defined.

(** C1 as stated fails.  No section of [small_page] contains one of the
    labels at which the patterns of the parser stop, yet
    the parsed dump has only the first of its two paragraphs, and its
    heading comes back with the level [H1] where the document has [h1]. *)
Lemma round_trip_loses_paragraph_and_level :
  let r := parse_scraped_content (text_dump small_page) in
  forallb (fun sec => forallb (fun w => negb (occurs w sec)) TERMINATORS)
          (sections small_page) = true
  /\ paragraphs r = [lit "First paragraph of the page."]
  /\ paragraphs r <> firstn 20 (s_paragraphs small_page)
  /\ headings r = [mkHeading (lit "H1") (lit "Welcome")]
  /\ headings r <> s_headings small_page.
Proof. vm_compute. repeat split; discriminate. Qed.

(* ================================================================== *)
(** * Further properties of the normalizer *)
(* ================================================================== *)

(** X1.  Whatever the input, [clean_text] returns a text in cleaned
    form: only characters the second substitution keeps (word
    characters and the punctuation - . , ! ? ; : ( ) [ ] { }, the
    apostrophe and the double quote; of the spaces only the blank is
    left), every blank single and after a character which is no space,
    and no space at either end. *)
Theorem clean_text_cleaned_form (s : str) :
  Forall (fun c => allowed c = true) (clean_text s)
  /\ tidy false (clean_text s)
  /\ strip (clean_text s) = clean_text s
  /\ lstrip (clean_text s) = clean_text s
  /\ rstrip (clean_text s) = clean_text s.
Proof.
  destruct s as [|c s]; [repeat split; constructor|].
  unfold clean_text.
  set (t := collapse_ws (filter allowed (collapse_ws (c :: s)))).
  assert (Hs : strip (strip t) = strip t) by apply strip_idem.
  repeat split.
  - apply Forall_strip, Forall_collapse_from, Forall_filter_allowed.
  - unfold strip. apply tidy_rstrip. eapply tidy_lstrip. apply collapse_from_tidy.
  - exact Hs.
  - apply stripped_lstrip. unfold stripped. now apply str_eqb_eq.
  - apply stripped_rstrip. unfold stripped. now apply str_eqb_eq.
Qed.

Lemma length_collapse_from (s : str) : forall b,
  length (collapse_from b s) <= length s.
Proof.
  induction s as [|c s IH]; intros b; simpl; [lia|].
  pose proof (IH true). pose proof (IH false).
  destruct (is_space c); [destruct b|]; simpl; lia.
Qed.

Lemma length_drop_while (f : ascii -> bool) (s : str) :
  length (drop_while f s) <= length s.
Proof.
  induction s as [|c s IH]; simpl; [lia|]. destruct (f c); simpl; lia.
Qed.

Lemma length_rstrip (s : str) : length (rstrip s) <= length s.
Proof.
  induction s as [|c s IH]; simpl; [lia|].
  destruct (rstrip s); [destruct (is_space c)|]; simpl in *; lia.
Qed.

Lemma length_strip (s : str) : length (strip s) <= length s.
Proof.
  unfold strip, lstrip. etransitivity; [apply length_rstrip|apply length_drop_while].
Qed.

(** X2.  [clean_text] never makes a text longer. *)
Theorem clean_text_not_longer (s : str) : length (clean_text s) <= length s.
Proof.
  destruct s as [|c s]; [simpl; lia|]. unfold clean_text, collapse_ws.
  etransitivity; [apply length_strip|].
  etransitivity; [apply length_collapse_from|].
  etransitivity; [apply filter_length_le|].
  apply length_collapse_from.
Qed.

Lemma existsb_str_eqb (p : str) (seen : list str) :
  existsb (str_eqb p) seen = true <-> In p seen.
Proof.
  rewrite existsb_exists. split.
  - intros (x & Hx & E). apply str_eqb_eq in E. now subst.
  - intros H. exists p. split; [assumption|apply str_eqb_refl].
Qed.

Lemma kept_fresh (seen ps : list str) :
  kept seen ps -> NoDup ps /\ forall p, In p ps -> ~ In p seen.
Proof.
  induction 1 as [|seen p ps H1 H2 H3 H4 _ [IH1 IH2]]; [split; [constructor|tauto]|].
  assert (Hp : ~ In p seen).
  { intros Hin. apply existsb_str_eqb in Hin. congruence. }
  split.
  - constructor; [|assumption]. intros Hin. apply (IH2 _ Hin). now left.
  - intros q [<-|Hq]; [assumption|]. intros Hin. apply (IH2 _ Hq). now right.
Qed.

Lemma clean_paragraphs_in (ps : list str) : forall seen p,
  In p (clean_paragraphs seen ps)
  <-> (exists q, In q ps /\ clean_text q = p) /\ 10 < length p /\ ~ In p seen.
Proof.
  induction ps as [|a ps IH]; intros seen p.
  - simpl. split; [tauto|]. intros [(q & [] & _) _].
  - cbn [clean_paragraphs].
    destruct (nonempty (clean_text a) && (10 <? length (clean_text a))
              && negb (existsb (str_eqb (clean_text a)) seen)) eqn:E.
    + apply andb_true_iff in E as [E E3]. apply andb_true_iff in E as [E1 E2].
      apply Nat.ltb_lt in E2. apply negb_true_iff in E3.
      assert (Hns : ~ In (clean_text a) seen).
      { intros Hin. apply existsb_str_eqb in Hin. congruence. }
      cbn [In]. rewrite IH. split.
      * intros [<-|((q & Hq & Eq) & Hl & Hn)].
        -- repeat split; try assumption. exists a. split; [now left|reflexivity].
        -- repeat split; try assumption.
           ++ exists q. split; [now right|assumption].
           ++ intros Hin. apply Hn. now right.
      * intros ((q & [<-|Hq] & Eq) & Hl & Hn).
        -- now left.
        -- destruct (list_eq_dec Ascii.ascii_dec (clean_text a) p) as [->|Hne];
             [now left|right].
           repeat split; try assumption.
           ++ now exists q.
           ++ intros [Hin|Hin]; [congruence|contradiction].
    + rewrite IH. split.
      * intros ((q & Hq & Eq) & Hl & Hn). repeat split; try assumption.
        exists q. split; [now right|assumption].
      * intros ((q & [Ha|Hq] & Eq) & Hl & Hn).
        -- exfalso. subst p a.
           assert (E1 : nonempty (clean_text q) = true).
           { destruct (clean_text q); [simpl in Hl; lia|reflexivity]. }
           apply Nat.ltb_lt in Hl. rewrite E1, Hl in E. cbn [andb] in E.
           apply negb_false_iff in E. apply existsb_str_eqb in E. contradiction.
        -- repeat split; try assumption. now exists q.
Qed.

(** X3.  The paragraphs [preprocess_content] keeps are exactly the
    cleaned texts of more than ten characters of the input paragraphs,
    each of them once; every one of them is in cleaned form. *)
Theorem preprocess_content_paragraphs (now : str) (r : ParsedData) :
  let out := p_paragraphs (preprocess_content now r) in
  NoDup out
  /\ (forall p, In p out <->
        (exists q, In q (paragraphs r) /\ clean_text q = p) /\ 10 < length p)
  /\ Forall (fun p => clean_text p = p) out.
Proof.
  cbn [preprocess_content p_paragraphs].
  pose proof (clean_paragraphs_kept (paragraphs r) []) as Hk.
  split; [apply (kept_fresh _ _ Hk)|]. split.
  - intros p. rewrite clean_paragraphs_in. cbn [In]. tauto.
  - clear. generalize (@nil (list ascii)).
    induction (paragraphs r) as [|a ps IH]; intros seen; cbn [clean_paragraphs];
      [constructor|].
    destruct (_ && _ && _); [|apply IH].
    constructor; [apply clean_text_idem|apply IH].
Qed.

Lemma sum_lengths_kept (seen ps : list str) :
  kept seen ps -> 11 * length ps <= sum_lengths ps.
Proof.
  induction 1 as [|seen p ps H1 H2 H3 H4 _ IH]; [simpl; lia|].
  apply Nat.ltb_lt in H3. cbn [sum_lengths fold_right length] in *.
  fold (sum_lengths ps). lia.
Qed.

(** X4.  The average paragraph length in [processed_stats] is 0 when no
    paragraph is kept (the divisor is then 1, not 0), and more than 10
    otherwise. *)
Theorem average_paragraph_length_range (now : str) (r : ParsedData) :
  let p := preprocess_content now r in
  let avg := average_paragraph_length (processed_stats p) in
  (p_paragraphs p = [] -> avg = QArith_base.Qmake 0 1)
  /\ (p_paragraphs p <> [] -> QArith_base.Qlt (QArith_base.Qmake 10 1) avg).
Proof.
  cbn [preprocess_content p_paragraphs processed_stats make_stats
       average_paragraph_length].
  pose proof (clean_paragraphs_kept (paragraphs r) []) as Hk.
  apply sum_lengths_kept in Hk.
  destruct (clean_paragraphs [] (paragraphs r)) as [|a ps] eqn:E.
  - split; [reflexivity|congruence].
  - split; [discriminate|]. intros _.
    unfold QArith_base.Qlt. cbn [QArith_base.Qnum QArith_base.Qden].
    assert (Hm : Nat.max (length (a :: ps)) 1 = length (a :: ps))
      by (cbn [length]; lia).
    rewrite Hm.
    assert (Hp : Z.pos (Pos.of_nat (length (a :: ps))) = Z.of_nat (length (a :: ps))).
    { rewrite <- positive_nat_Z, Nat2Pos.id; [reflexivity|discriminate]. }
    rewrite Hp. lia.
Qed.

Lemma average_paragraph_length_range_witness :
  let r := mkParsed [] [] [] []
             [lit "A paragraph that is long enough."] [] [] [] in
  QArith_base.Qlt (QArith_base.Qmake 10 1)
    (average_paragraph_length (processed_stats (preprocess_content [] r))).
Proof.
  intros r. apply (average_paragraph_length_range [] r). vm_compute. discriminate.
Defined.

(** ** Words *)

Lemma words_aux_space (cur a b : str) (c : ascii) :
  is_space c = true ->
  words_aux cur (a ++ c :: b) = words_aux cur a ++ words_aux [] b.
Proof.
  intros Hc. revert cur. induction a as [|x a IH]; intros cur.
  - cbn [app words_aux]. rewrite Hc. now destruct cur.
  - cbn [app words_aux]. destruct (is_space x).
    + destruct cur; [apply IH|]. cbn [app]. f_equal. apply IH.
    + apply IH.
Qed.

Lemma words_join (ps : list str) :
  words (join [" "] ps) = flat_map words ps.
Proof.
  unfold words. induction ps as [|p ps IH]; [reflexivity|].
  destruct ps as [|q ps].
  - cbn [join flat_map]. now rewrite app_nil_r.
  - change (join [" "] (p :: q :: ps)) with (p ++ " " :: join [" "] (q :: ps)).
    rewrite words_aux_space by reflexivity. now rewrite IH.
Qed.

Lemma words_aux_pending (s cur : str) : cur <> [] -> words_aux cur s <> [].
Proof.
  revert cur. induction s as [|c s IH]; intros cur H; cbn [words_aux].
  - now destruct cur.
  - destruct (is_space c); [now destruct cur|]. apply IH. discriminate.
Qed.

Lemma words_no_lead (s : str) : s <> [] -> no_lead s -> words s <> [].
Proof.
  destruct s as [|c s]; [congruence|]. intros _ H. unfold words. cbn [words_aux].
  simpl in H. rewrite H. apply words_aux_pending. discriminate.
Qed.

Lemma length_flat_map_words (ps : list str) :
  Forall (fun p => words p <> []) ps ->
  length ps <= length (flat_map words ps).
Proof.
  induction 1 as [|p ps Hp _ IH]; [simpl; lia|].
  cbn [flat_map length]. rewrite length_app.
  destruct (words p); [congruence|]. cbn [length]. lia.
Qed.

Lemma clean_text_lstrip (s : str) : lstrip (clean_text s) = clean_text s.
Proof.
  apply stripped_lstrip. unfold stripped. apply str_eqb_eq.
  destruct s as [|c s]; [reflexivity|]. unfold clean_text. apply strip_idem.
Qed.

Lemma kept_words (seen ps : list str) :
  kept seen ps -> Forall (fun p => words p <> []) ps.
Proof.
  induction 1 as [|seen p ps H1 H2 H3 H4 _ IH]; constructor; [|assumption].
  apply words_no_lead.
  - now destruct p.
  - rewrite <- H1, <- clean_text_lstrip. apply lstrip_no_lead.
Qed.

(** X5.  [total_words] is the sum of the numbers of words of the kept
    paragraphs, and it is at least the number of kept paragraphs. *)
Theorem total_words_of_paragraphs (now : str) (r : ParsedData) :
  let p := preprocess_content now r in
  total_words (processed_stats p)
  = length (flat_map words (p_paragraphs p))
  /\ clean_paragraphs_count (processed_stats p) <= total_words (processed_stats p).
Proof.
  cbn [preprocess_content p_paragraphs processed_stats make_stats total_words
       clean_paragraphs_count].
  rewrite words_join. split; [reflexivity|].
  apply length_flat_map_words.
  apply (kept_words []), clean_paragraphs_kept.
Qed.

(* ================================================================== *)
(** * Dictionaries and [get_meta_tags] *)
(* ================================================================== *)

Lemma str_eqb_neq (a b : str) : str_eqb a b = false <-> a <> b.
Proof.
  split.
  - intros H E. apply str_eqb_eq in E. congruence.
  - intros H. destruct (str_eqb a b) eqn:E; [|reflexivity].
    apply str_eqb_eq in E. contradiction.
Qed.

Lemma str_eqb_sym (a b : str) : str_eqb a b = str_eqb b a.
Proof.
  destruct (str_eqb a b) eqn:E.
  - apply str_eqb_eq in E. subst. symmetry. apply str_eqb_refl.
  - symmetry. apply str_eqb_neq. apply str_eqb_neq in E. congruence.
Qed.

Lemma dict_get_set_same {V} (k : str) (v : V) (d : dict V) :
  dict_get k (dict_set k v d) = Some v.
Proof.
  induction d as [|[k' v'] d IH]; simpl.
  - now rewrite str_eqb_refl.
  - destruct (str_eqb k k') eqn:E; simpl; rewrite E; [reflexivity|exact IH].
Qed.

Lemma dict_get_set_other {V} (k k' : str) (v : V) (d : dict V) :
  k <> k' -> dict_get k' (dict_set k v d) = dict_get k' d.
Proof.
  intros H. induction d as [|[k0 v0] d IH]; simpl.
  - apply str_eqb_neq in H. now rewrite str_eqb_sym, H.
  - destruct (str_eqb k k0) eqn:E; simpl.
    + apply str_eqb_eq in E. subst k0.
      assert (E' : str_eqb k' k = false) by (apply str_eqb_neq; congruence).
      now rewrite E'.
    + now rewrite IH.
Qed.

Lemma dict_set_keys {V} (k : str) (v : V) (d : dict V) :
  map fst (dict_set k v d)
  = if existsb (str_eqb k) (map fst d) then map fst d else map fst d ++ [k].
Proof.
  induction d as [|[k' v'] d IH]; simpl; [reflexivity|].
  destruct (str_eqb k k'); simpl; [reflexivity|].
  rewrite IH. now destruct (existsb (str_eqb k) (map fst d)).
Qed.

Lemma dict_set_NoDup {V} (k : str) (v : V) (d : dict V) :
  NoDup (map fst d) -> NoDup (map fst (dict_set k v d)).
Proof.
  intros H. rewrite dict_set_keys.
  destruct (existsb (str_eqb k) (map fst d)) eqn:E; [assumption|].
  apply NoDup_app; [assumption|repeat constructor; intros []|].
  intros x Hx [<-|[]].
  apply existsb_str_eqb in Hx. congruence.
Qed.

Lemma dict_set_Forall {V} (P : str * V -> Prop) (k : str) (v : V) (d : dict V) :
  P (k, v) -> Forall P d -> Forall P (dict_set k v d).
Proof.
  intros Hp. induction 1 as [|[k' v'] d Hx Hd IH]; simpl.
  - repeat constructor. assumption.
  - destruct (str_eqb k k') eqn:E; constructor; try assumption.
    apply str_eqb_eq in E. now subst.
Qed.

Lemma get_meta_tags_fold (metas : list MetaElement) : forall m,
  fold_left
    (fun m e =>
       let name := match attr_name e with
                   | Some n => n
                   | None => get_or_empty (attr_property e)
                   end in
       let content := get_or_empty (attr_content e) in
       if nonempty name && nonempty content then dict_set name content m else m)
    metas m
  = fold_left (fun m kv => dict_set (fst kv) (snd kv) m)
              (flat_map meta_entry metas) m.
Proof.
  induction metas as [|e metas IH]; intros m; [reflexivity|].
  cbn [fold_left flat_map]. rewrite fold_left_app, IH. unfold meta_entry.
  now destruct (nonempty _ && nonempty _).
Qed.

Lemma fold_dict_set_get {V} (k : str) (es : list (str * V)) : forall d,
  dict_get k (fold_left (fun m kv => dict_set (fst kv) (snd kv) m) es d)
  = match last_binding k es with
    | Some v => Some v
    | None => dict_get k d
    end.
Proof.
  induction es as [|[k' v] es IH]; intros d; [reflexivity|].
  cbn [fold_left last_binding fst snd]. rewrite IH.
  destruct (last_binding k es); [reflexivity|].
  destruct (str_eqb k k') eqn:E.
  - apply str_eqb_eq in E. subst. apply dict_get_set_same.
  - apply dict_get_set_other. apply str_eqb_neq in E. congruence.
Qed.

Lemma fold_dict_set_inv {V} (P : str * V -> Prop) (es : list (str * V)) : forall d,
  Forall P es -> Forall P d -> NoDup (map fst d) ->
  let out := fold_left (fun m kv => dict_set (fst kv) (snd kv) m) es d in
  Forall P out /\ NoDup (map fst out).
Proof.
  induction es as [|[k v] es IH]; intros d Hes Hd Hn; [now split|].
  cbn [fold_left fst snd]. inversion Hes; subst.
  apply IH; try assumption.
  - now apply dict_set_Forall.
  - now apply dict_set_NoDup.
Qed.

Lemma meta_entries_filled (metas : list MetaElement) :
  Forall filled (flat_map meta_entry metas).
Proof.
  induction metas as [|e metas IH]; [constructor|].
  cbn [flat_map]. apply Forall_app. split; [|assumption].
  unfold meta_entry.
  destruct (nonempty _ && nonempty _) eqn:E; [|constructor].
  apply andb_true_iff in E as [E1 E2]. repeat constructor; cbn [fst snd].
  - intros H. rewrite H in E1. discriminate.
  - intros H. rewrite H in E2. discriminate.
Qed.

(** X6.  [get_meta_tags] binds every name once; the binding of a name is
    the content of the last meta element that has this name (or, without
    a name attribute, this property) and a content; no name and no
    content of the result is empty. *)
Theorem get_meta_tags_last_wins (metas : list MetaElement) :
  NoDup (map fst (get_meta_tags metas))
  /\ (forall k, dict_get k (get_meta_tags metas)
                = last_binding k (flat_map meta_entry metas))
  /\ Forall filled (get_meta_tags metas).
Proof.
  unfold get_meta_tags. rewrite get_meta_tags_fold.
  pose proof (meta_entries_filled metas) as Hf.
  destruct (fold_dict_set_inv filled (flat_map meta_entry metas) []) as [H1 H2];
    try constructor; try assumption.
  repeat split; try assumption.
  intros k. rewrite fold_dict_set_get. now destruct (last_binding k _).
Qed.

(* ================================================================== *)
(** * Further properties of the batch loops *)
(* ================================================================== *)

Section BatchResults.

Variable render : str -> option ScrapedData.

Lemma batch_loop_headless_results (urls : list str) : forall st,
  let out := fst (batch_loop (scrape_website_headless render) st urls) in
  results out = results st ++ rendered render urls
  /\ successful out = successful st + length (rendered render urls)
  /\ failed out + length (rendered render urls) = failed st + length urls.
Proof.
  induction urls as [|u urls IH]; intros st.
  - cbn. rewrite app_nil_r. repeat split; lia.
  - cbn [batch_loop rendered flat_map].
    change (scrape_website_headless render u) with (Returned (render u)).
    fold (rendered render urls).
    destruct (render u) as [d|];
      match goal with
      | |- context [batch_loop ?f ?s urls] => destruct (IH s) as (H1 & H2 & H3)
      end;
      cbn [results successful failed fetched] in *;
      rewrite H1, H2; rewrite ?length_app, <- ?app_assoc; cbn [length app];
      repeat split; lia.
Qed.

(** X7.  The headless scraper hands every URL of a batch to
    [scrape_website], in order, whatever fails: its results are the
    documents of the pages that load, in order; [successful] counts them
    and [failed] counts the other URLs. *)
Theorem scrape_multiple_websites_headless_complete (urls : list str) :
  let out := scrape_multiple_websites_headless render urls in
  snd out = false
  /\ fetched (fst out) = urls
  /\ results (fst out) = rendered render urls
  /\ successful (fst out) = length (rendered render urls)
  /\ successful (fst out) + failed (fst out) = length urls.
Proof.
  destruct (batch_loop_headless render urls (mkBatch [] 0 0 [])) as (H1 & H2 & H3).
  destruct (batch_loop_headless_results urls (mkBatch [] 0 0 [])) as (H4 & H5 & H6).
  unfold scrape_multiple_websites_headless. cbn [results successful failed fetched] in *.
  repeat split; try assumption; lia.
Qed.

Lemma batch_loop_plain (urls : list str) : forall st,
  let out := batch_loop (scrape_website render) st urls in
  failed (fst out) = failed st
  /\ (exists done, results (fst out) = results st ++ done
                   /\ successful (fst out) = successful st + length done
                   /\ done = rendered render (firstn (length done) urls))
  /\ (exists n, fetched (fst out) = fetched st ++ firstn n urls
                /\ (snd out = false -> n = length urls)
                /\ (snd out = true ->
                    exists u, nth_error urls (pred n) = Some u /\ 0 < n
                              /\ render u = None))
  /\ (snd out = false -> results (fst out) = results st ++ rendered render urls
                         /\ length (rendered render urls) = length urls).
Proof.
  induction urls as [|u urls IH]; intros st.
  - cbn. repeat split.
    + exists []. rewrite app_nil_r. repeat split. cbn [length]. lia.
    + exists 0. rewrite app_nil_r. repeat split. discriminate.
    + now rewrite app_nil_r.
  - cbn [batch_loop].
    change (scrape_website render u)
      with (match render u with
            | Some d => Returned (Some d)
            | None => @Raised (option ScrapedData)
            end).
    destruct (render u) as [d|] eqn:E.
    + match goal with
      | |- context [batch_loop ?f ?s urls] =>
          destruct (IH s) as (H1 & (done & H2 & H3 & H4) & (n & H5 & H6 & H7) & H8)
      end.
      cbn [results successful failed fetched] in *.
      split; [assumption|]. split; [|split].
      * exists (d :: done). rewrite H2, H3, <- app_assoc. cbn [length app firstn].
        repeat split; try lia. unfold rendered. cbn [flat_map]. rewrite E.
        cbn [app]. f_equal. exact H4.
      * exists (S n). rewrite H5, <- app_assoc. cbn [firstn app length].
        repeat split.
        -- intros H. now rewrite (H6 H).
        -- intros H. destruct (H7 H) as (u' & Hn & Hpos & Hr).
           exists u'. repeat split; try lia; try assumption.
           destruct n; [lia|]. exact Hn.
      * intros H. destruct (H8 H) as [H9 H10]. rewrite H9, <- app_assoc.
        unfold rendered. cbn [flat_map length]. rewrite E. cbn [app length].
        split; [reflexivity|]. fold (rendered render urls). lia.
    + cbn [fst snd results successful failed fetched]. repeat split.
      * exists []. rewrite app_nil_r. repeat split. cbn [length]. lia.
      * exists 1. cbn [firstn]. repeat split; [discriminate|].
        intros _. exists u. repeat split; [lia|assumption].
      * discriminate.
      * discriminate.
Qed.

(** X8.  In [simple_web_scraper.py] the batch loop never counts a
    failure: [failed] is 0 in every outcome, the results are the
    documents of the URLs before the first page that fails to load, and a
    batch that comes to its end has one result for every URL. *)
Theorem scrape_multiple_websites_outcomes (urls : list str) :
  let out := scrape_multiple_websites render urls in
  failed (fst out) = 0
  /\ successful (fst out) = length (results (fst out))
  /\ results (fst out)
     = rendered render (firstn (length (results (fst out))) urls)
  /\ (exists n, fetched (fst out) = firstn n urls
                /\ (snd out = true ->
                    exists u, nth_error urls (pred n) = Some u /\ render u = None))
  /\ (snd out = false ->
      fetched (fst out) = urls /\ length (results (fst out)) = length urls).
Proof.
  destruct (batch_loop_plain urls (mkBatch [] 0 0 []))
    as (H1 & (done & H2 & H3 & H4) & (n & H5 & H6 & H7) & H8).
  unfold scrape_multiple_websites. cbn [results successful failed fetched app] in *.
  rewrite H2. repeat split; try assumption.
  - exists n. split; [assumption|]. intros H.
    destruct (H7 H) as (u & Hu & _ & Hr). now exists u.
  - rewrite H5, (H6 H). apply firstn_all.
  - destruct (H8 H) as [H9 H10]. rewrite H2 in H9. now rewrite H9.
Qed.

End BatchResults.

Lemma scrape_multiple_websites_outcomes_witness :
  exists n u, nth_error two_urls (pred n) = Some u /\ one_site_down u = None.
Proof.
  destruct (scrape_multiple_websites_outcomes one_site_down two_urls)
    as (_ & _ & _ & (n & _ & H) & _).
  exists n. apply H. reflexivity.
Defined.

(* ================================================================== *)
(** * The extractor *)
(* ================================================================== *)

Lemma get_paragraphs_filter (ps : list str) :
  get_paragraphs ps = filter nonempty (map strip ps).
Proof.
  induction ps as [|p ps IH]; [reflexivity|]. cbn [get_paragraphs map filter].
  now rewrite IH.
Qed.

(** X10.  [get_paragraphs] returns, in document order, the stripped texts
    of the paragraph elements whose text is not all spaces: no paragraph
    of the result is empty or has a space at either end. *)
Theorem get_paragraphs_stripped (ps : list str) :
  get_paragraphs ps = filter nonempty (map strip ps)
  /\ Forall (fun p => p <> [] /\ strip p = p) (get_paragraphs ps)
  /\ length (get_paragraphs ps) <= length ps.
Proof.
  split; [apply get_paragraphs_filter|]. split.
  - induction ps as [|p ps IH]; [constructor|]. cbn [get_paragraphs].
    destruct (nonempty (strip p)) eqn:E; [|assumption].
    constructor; [|assumption]. split; [|apply strip_idem].
    intros H. rewrite H in E. discriminate.
  - rewrite get_paragraphs_filter.
    etransitivity; [apply filter_length_le|]. now rewrite length_map.
Qed.

(** X11.  [get_abstract] returns the stripped text of the element of the
    first selector that finds one, passing over the selectors that raise
    or find nothing, and returns no value when none finds an element. *)
Theorem get_abstract_first_match (before after : list (outcome (option str)))
    (element : str) :
  forallb no_match before = true ->
  get_abstract (before ++ Returned (Some element) :: after) = Some (strip element)
  /\ get_abstract before = None.
Proof.
  induction before as [|p before IH]; [split; reflexivity|].
  cbn [forallb]. intros [Hp Hb]%andb_true_iff. specialize (IH Hb).
  destruct p as [[t|]|]; [discriminate|exact IH|exact IH].
Qed.

Lemma get_abstract_first_match_witness :
  get_abstract ([Raised; Returned None]
                ++ Returned (Some (lit " An abstract. ")) :: [Returned (Some (lit "x"))])
  = Some (strip (lit " An abstract. ")).
Proof.
  apply (get_abstract_first_match [Raised; Returned None]
           [Returned (Some (lit "x"))] (lit " An abstract. ")).
  reflexivity.
Defined.

(* ================================================================== *)
(** * File names *)
(* ================================================================== *)

Lemma replace_char (c d : ascii) (s : str) :
  replace [c] [d] s = map (fun x => if Ascii.eqb c x then d else x) s.
Proof.
  unfold replace. induction s as [|x s IH]; [reflexivity|].
  cbn [replace_from starts_with map length Nat.sub]. rewrite andb_true_r.
  destruct (Ascii.eqb c x); cbn [app]; now rewrite IH.
Qed.

Lemma length_replace_from_nil (old : str) (s : str) : forall skip,
  length (replace_from old [] skip s) <= length s.
Proof.
  induction s as [|x s IH]; intros skip; [simpl; lia|].
  cbn [replace_from]. destruct skip as [|k].
  - destruct (starts_with old (x :: s)); cbn [app length].
    + specialize (IH (length old - 1)). lia.
    + specialize (IH 0). lia.
  - specialize (IH k). cbn [length]. lia.
Qed.

(** X12.  The stem of the file names of a page never contains a dot; it
    is not longer than the network location; and a location with the
    prefix [www.] has the stem of the location without it, so both are
    written to the same files. *)
Theorem domain_stem (netloc : str) :
  lacks "." (domain netloc) = true
  /\ length (domain netloc) <= length netloc
  /\ domain (lit "www." ++ netloc) = domain netloc
  /\ txt_filename (lit "www." ++ netloc) = txt_filename netloc
  /\ json_filename (lit "www." ++ netloc) = json_filename netloc.
Proof.
  assert (E : domain (lit "www." ++ netloc) = domain netloc) by reflexivity.
  unfold txt_filename, json_filename. rewrite E. repeat split.
  - unfold domain. change (lit ".") with ["."]. change (lit "_") with ["_"].
    rewrite replace_char. unfold lacks.
    induction (replace (lit "www.") [] netloc) as [|x s IH]; [reflexivity|].
    cbn [map forallb]. rewrite IH, andb_true_r.
    destruct (Ascii.eqb "." x) eqn:Ex; [reflexivity|].
    now rewrite Ascii.eqb_sym, Ex.
  - unfold domain. change (lit ".") with ["."]. change (lit "_") with ["_"].
    rewrite replace_char, length_map. apply length_replace_from_nil.
Qed.

(* ================================================================== *)
(** * The list of URLs *)
(* ================================================================== *)

Lemma split_char_all_oneline (s : str) : forallb oneline (split_char nl s) = true.
Proof.
  induction s as [|x s IH]; [reflexivity|]. cbn [split_char].
  destruct (Ascii.eqb x nl) eqn:E; [exact IH|].
  destruct (split_char nl s) as [|l ls]; [now cbn; rewrite E|].
  cbn [forallb oneline] in *. now rewrite E.
Qed.

Lemma oneline_lstrip (x : str) : oneline x = true -> oneline (lstrip x) = true.
Proof.
  unfold lstrip. induction x as [|c x IH]; [trivial|]. cbn [drop_while].
  destruct (is_space c); [|trivial].
  cbn [oneline forallb]. intros [_ H]%andb_true_iff. now apply IH.
Qed.

Lemma oneline_strip (x : str) : oneline x = true -> oneline (strip x) = true.
Proof. intros H. now apply oneline_rstrip, oneline_lstrip. Qed.

Lemma stripped_strip_any (x : str) : stripped (strip x) = true.
Proof. unfold stripped. apply str_eqb_eq, strip_idem. Qed.

Lemma forallb_strip (f : ascii -> bool) (s : str) :
  forallb f s = true -> forallb f (strip s) = true.
Proof.
  rewrite !forallb_forall. intros H x Hx.
  assert (HF : Forall (fun c => f c = true) (strip s)).
  { apply Forall_strip. now apply Forall_forall. }
  rewrite Forall_forall in HF. now apply HF.
Qed.

Lemma forallb_split_char (f : ascii -> bool) (c : ascii) (s : str) :
  forallb f s = true -> forallb (forallb f) (split_char c s) = true.
Proof.
  induction s as [|x s IH]; [reflexivity|]. cbn [split_char forallb].
  intros [Hx Hs]%andb_true_iff. specialize (IH Hs).
  destruct (Ascii.eqb x c); [exact IH|].
  destruct (split_char c s) as [|l ls]; [now cbn; rewrite Hx|].
  cbn [forallb] in *. now rewrite Hx.
Qed.

(** What is read in text mode holds no carriage return. *)
Lemma universal_newlines_lacks (n : nat) : forall s,
  length s <= n -> lacks cr (universal_newlines s) = true.
Proof.
  induction n as [|n IH]; intros s Hn.
  - destruct s; [reflexivity|simpl in Hn; lia].
  - destruct s as [|c s]; [reflexivity|]. cbn [length] in Hn.
    cbn [universal_newlines]. destruct (Ascii.eqb c cr) eqn:E.
    + cbn [lacks forallb]. change (negb (Ascii.eqb nl cr)) with true. cbn [andb].
      destruct s as [|e s]; [reflexivity|]. cbn [length] in Hn.
      destruct (Ascii.eqb e nl); apply IH; cbn [length]; lia.
    + cbn [lacks forallb]. rewrite E. cbn [negb andb]. apply IH. lia.
Qed.

Lemma universal_newlines_id (s : str) :
  lacks cr s = true -> universal_newlines s = s.
Proof.
  induction s as [|c s IH]; [reflexivity|]. cbn [lacks forallb].
  intros [Hc Hs]%andb_true_iff. apply negb_true_iff in Hc.
  cbn [universal_newlines]. rewrite Hc. f_equal. now apply IH.
Qed.

(** A carriage return and a newline after a line are read as a
    newline. *)
Lemma universal_newlines_crlf (l rest : str) :
  lacks cr l = true ->
  universal_newlines (l ++ cr :: nl :: rest) = l ++ nl :: universal_newlines rest.
Proof.
  induction l as [|c l IH]; [reflexivity|]. cbn [lacks forallb].
  intros [Hc Hs]%andb_true_iff. apply negb_true_iff in Hc.
  cbn [app universal_newlines]. rewrite Hc. f_equal. now apply IH.
Qed.

Lemma lacks_join (c : ascii) (sep : str) (ls : list str) :
  lacks c sep = true -> forallb (lacks c) ls = true -> lacks c (join sep ls) = true.
Proof.
  intros Hsep. induction ls as [|l ls IH]; [reflexivity|].
  cbn [forallb]. intros [Hl Hls]%andb_true_iff. specialize (IH Hls).
  destruct ls as [|l' ls']; [exact Hl|].
  change (join sep (l :: l' :: ls')) with (l ++ sep ++ join sep (l' :: ls')).
  unfold lacks in *. now rewrite !forallb_app, Hl, Hsep, IH.
Qed.

Lemma universal_newlines_join (ls : list str) :
  forallb (lacks cr) ls = true ->
  universal_newlines (join [cr; nl] ls) = join [nl] ls.
Proof.
  induction ls as [|l ls IH]; [reflexivity|].
  cbn [forallb]. intros [Hl Hls]%andb_true_iff. specialize (IH Hls).
  destruct ls as [|l' ls']; [now apply universal_newlines_id|].
  change (join [cr; nl] (l :: l' :: ls'))
    with (l ++ cr :: nl :: join [cr; nl] (l' :: ls')).
  change (join [nl] (l :: l' :: ls')) with (l ++ nl :: join [nl] (l' :: ls')).
  now rewrite universal_newlines_crlf, IH.
Qed.

Lemma load_urls_url_lines (content : str) :
  forallb url_line (load_urls content) = true.
Proof.
  unfold load_urls.
  pose proof (split_char_all_oneline (universal_newlines content)) as H.
  pose proof (forallb_split_char _ nl _
                (universal_newlines_lacks (length content) content (le_n _))) as Hc.
  induction (split_char nl (universal_newlines content)) as [|l ls IH]; [reflexivity|].
  cbn [forallb map filter] in *. apply andb_true_iff in H as [Hl Hls].
  apply andb_true_iff in Hc as [Hcl Hcls].
  destruct (nonempty (strip l) && negb (starts_with (lit "#") (strip l))) eqn:E;
    [|now apply IH].
  cbn [forallb]. rewrite IH by assumption. rewrite andb_true_r.
  apply andb_true_iff in E as [E1 E2].
  unfold url_line, plain, lacks.
  now rewrite E1, E2, oneline_strip, stripped_strip_any, forallb_strip.
Qed.

(** X13.  Every URL [load_urls_from_file] returns is a non-empty text
    without a newline or a carriage return, with no space at either end,
    that does not start with [#]. *)
Theorem load_urls_from_file_lines (file : FileRead) (urls : list str) :
  load_urls_from_file file = Returned urls -> forallb url_line urls = true.
Proof.
  destruct file as [| |content]; cbn [load_urls_from_file];
    [intros [= <-]; reflexivity|discriminate|].
  intros [= <-]. apply load_urls_url_lines.
Qed.

Lemma load_urls_from_file_lines_witness :
  forallb url_line [lit "https://a.example"; lit "https://b.example/x"] = true.
Proof.
  apply (load_urls_from_file_lines
           (FileText (lit "https://a.example" ++ [cr; nl] ++ lit "# sites" ++ [cr]
                      ++ lit "  https://b.example/x " ++ [nl]))).
  reflexivity.
Defined.

Lemma unlines_join (ls : list str) : unlines ls = join [nl] (ls ++ [[]]).
Proof.
  unfold unlines. induction ls as [|l ls IH]; [reflexivity|].
  cbn [map concat]. rewrite IH. destruct ls; cbn; now rewrite <- app_assoc.
Qed.

Lemma load_urls_lines (lines : list str) :
  forallb (fun l => url_line l || skipped_line l) lines = true ->
  filter (fun url => nonempty url && negb (starts_with (lit "#") url))
         (map strip lines)
  = filter url_line lines.
Proof.
  induction lines as [|l ls IH]; [reflexivity|].
  cbn [forallb map filter]. intros [Hl Hls]%andb_true_iff. rewrite IH by assumption.
  destruct (url_line l) eqn:Eu.
  - unfold url_line in Eu. apply andb_true_iff in Eu as [Eu E3].
    apply andb_true_iff in Eu as [Eu _]. apply andb_true_iff in Eu as [E1 E2].
    destruct (plain_facts _ E2) as [_ ->]. now rewrite E1, E3.
  - cbn [orb] in Hl. unfold skipped_line in Hl.
    apply andb_true_iff in Hl as [_ Hl].
    destruct (nonempty (strip l)); [|reflexivity]. cbn [negb orb andb] in *.
    now rewrite Hl.
Qed.

Lemma file_line_facts (l : str) :
  url_line l || skipped_line l = true -> oneline l = true /\ lacks cr l = true.
Proof.
  unfold url_line, skipped_line, plain. rewrite orb_true_iff, !andb_true_iff. tauto.
Qed.

Lemma load_urls_joined (lines : list str) :
  forallb (fun l => url_line l || skipped_line l) lines = true ->
  filter (fun url => nonempty url && negb (starts_with (lit "#") url))
         (map strip (split_char nl (join [nl] lines)))
  = filter url_line lines.
Proof.
  intros H.
  assert (Ho : forallb oneline lines = true).
  { clear -H. induction lines as [|l ls IH]; [reflexivity|].
    cbn [forallb] in *. apply andb_true_iff in H as [Hl Hls].
    now rewrite (proj1 (file_line_facts _ Hl)), IH. }
  destruct lines as [|l ls]; [reflexivity|].
  rewrite (split_char_join l ls Ho). now apply load_urls_lines.
Qed.

(** X14.  A file of URL lines, blank lines and comment lines, none with
    a carriage return inside, loads as its URL lines, in order: with
    newlines between the lines, with a newline after every line, and
    with a carriage return and a newline between the lines. *)
Theorem load_urls_round_trip (lines : list str) :
  forallb (fun l => url_line l || skipped_line l) lines = true ->
  load_urls_from_file (FileText (join [nl] lines)) = Returned (filter url_line lines)
  /\ load_urls_from_file (FileText (unlines lines)) = Returned (filter url_line lines)
  /\ load_urls_from_file (FileText (join [cr; nl] lines))
     = Returned (filter url_line lines).
Proof.
  intros H.
  assert (Hc : forallb (lacks cr) lines = true).
  { clear -H. induction lines as [|l ls IH]; [reflexivity|].
    cbn [forallb] in *. apply andb_true_iff in H as [Hl Hls].
    now rewrite (proj2 (file_line_facts _ Hl)), IH. }
  assert (H' : forallb (fun l => url_line l || skipped_line l) (lines ++ [[]]) = true)
    by now rewrite forallb_app, H.
  assert (Hc' : forallb (lacks cr) (lines ++ [[]]) = true)
    by now rewrite forallb_app, Hc.
  cbn [load_urls_from_file]. unfold load_urls. repeat split; f_equal.
  - rewrite universal_newlines_id by now apply lacks_join.
    now apply load_urls_joined.
  - rewrite unlines_join, universal_newlines_id by now apply lacks_join.
    rewrite load_urls_joined by assumption.
    rewrite filter_app. cbn. apply app_nil_r.
  - rewrite universal_newlines_join by assumption. now apply load_urls_joined.
Qed.

Lemma load_urls_round_trip_witness :
  let lines := [lit "# sites"; lit "https://a.example"; []; lit "  ";
                lit "https://b.example/x"] in
  load_urls_from_file (FileText (join [cr; nl] lines))
  = Returned [lit "https://a.example"; lit "https://b.example/x"].
Proof.
  intros lines. apply (load_urls_round_trip lines). reflexivity.
Defined.

(* ================================================================== *)
(** * The full text *)
(* ================================================================== *)

Lemma forallb_rev {A} (f : A -> bool) (l : list A) :
  forallb f l = true -> forallb f (rev l) = true.
Proof.
  rewrite !forallb_forall. intros H x Hx. apply H. now apply in_rev.
Qed.

Lemma splitlines_unbroken (n : nat) : forall s cur,
  length s <= n -> forallb unbroken cur = true ->
  forallb (forallb unbroken) (splitlines_from cur s) = true.
Proof.
  induction n as [|n IH]; intros s cur Hn Hc.
  - destruct s; [|simpl in Hn; lia]. cbn [splitlines_from].
    destruct cur; [reflexivity|]. cbn [forallb]. now rewrite forallb_rev.
  - destruct s as [|c s]; cbn [splitlines_from].
    + destruct cur; [reflexivity|]. cbn [forallb]. now rewrite forallb_rev.
    + cbn [length] in Hn. destruct (is_linebreak c) eqn:E.
      * cbn [forallb]. rewrite forallb_rev by assumption. cbn [andb].
        destruct s as [|d s]; [apply IH; [simpl; lia|reflexivity]|].
        cbn [length] in Hn.
        destruct (Ascii.eqb c cr && Ascii.eqb d nl);
          apply IH; try reflexivity; cbn [length]; lia.
      * apply IH; [lia|]. cbn [forallb]. unfold unbroken at 1. now rewrite E.
Qed.

Lemma split_pair_head (a b x : ascii) (s : str) :
  match split_pair a b (x :: s) with
  | (c :: _) :: _ => c = x
  | _ => True
  end.
Proof.
  destruct s as [|y s]; [reflexivity|].
  change (split_pair a b (x :: y :: s))
    with (if Ascii.eqb x a && Ascii.eqb y b then [] :: split_pair a b s
          else match split_pair a b (y :: s) with
               | [] => [[x]]
               | l :: ls => (x :: l) :: ls
               end).
  destruct (Ascii.eqb x a && Ascii.eqb y b); [exact I|].
  now destruct (split_pair a b (y :: s)).
Qed.

Lemma split_pair_pieces (a b : ascii) (f : ascii -> bool) (n : nat) : forall s,
  length s <= n -> forallb f s = true ->
  forallb (fun p => negb (occurs [a; b] p) && forallb f p) (split_pair a b s) = true.
Proof.
  induction n as [|n IH]; intros s Hn Hf.
  - destruct s; [reflexivity|simpl in Hn; lia].
  - destruct s as [|x [|y s]].
    + reflexivity.
    + cbn in *. now rewrite andb_false_r, Hf.
    + change (split_pair a b (x :: y :: s))
        with (if Ascii.eqb x a && Ascii.eqb y b then [] :: split_pair a b s
              else match split_pair a b (y :: s) with
                   | [] => [[x]]
                   | l :: ls => (x :: l) :: ls
                   end).
      cbn [length forallb] in *.
      apply andb_true_iff in Hf as [Hx Hf].
      pose proof Hf as Hf'. apply andb_true_iff in Hf' as [Hy Hs].
      destruct (Ascii.eqb x a && Ascii.eqb y b) eqn:E.
      * cbn [forallb occurs starts_with negb orb andb]. apply IH; [lia|assumption].
      * pose proof (IH (y :: s) ltac:(cbn [length]; lia) Hf) as H.
        pose proof (split_pair_head a b y s) as Hh.
        destruct (split_pair a b (y :: s)) as [|l ls].
        -- cbn. now rewrite andb_false_r, Hx.
        -- cbn [forallb] in *. apply andb_true_iff in H as [Hl Hls].
           rewrite Hls, andb_true_r.
           apply andb_true_iff in Hl as [Hl1 Hl2]. rewrite Hx, Hl2. cbn [andb].
           rewrite andb_true_r. apply negb_true_iff. apply negb_true_iff in Hl1.
           cbn [occurs]. rewrite Hl1, orb_false_r.
           cbn [starts_with].
           destruct l as [|c l]; [apply andb_false_r|]. subst c.
           rewrite andb_true_r, (Ascii.eqb_sym a), (Ascii.eqb_sym b). exact E.
Qed.

Lemma lstrip_suffix (x : str) : exists sp, x = sp ++ lstrip x.
Proof.
  unfold lstrip. induction x as [|c x [sp IH]]; [now exists []|].
  cbn [drop_while]. destruct (is_space c).
  - exists (c :: sp). cbn [app]. now f_equal.
  - now exists [].
Qed.

Lemma occurs_strip (w x : str) : occurs w x = false -> occurs w (strip x) = false.
Proof.
  intros H. unfold strip. apply occurs_rstrip.
  destruct (lstrip_suffix x) as [sp E]. rewrite E in H. now apply occurs_app_r in H.
Qed.

Lemma chunk_of_piece (p : str) :
  forallb unbroken p = true -> occurs [" "; " "] p = false ->
  nonempty (strip p) = true -> solid_chunk (strip p).
Proof.
  intros H1 H2 H3. repeat split.
  - intros E. rewrite E in H3. discriminate.
  - apply rstrip_no_lead, lstrip_no_lead.
  - apply rstrip_idem.
  - now apply forallb_strip.
  - now apply occurs_strip.
Qed.

Lemma starts_with_app_long (p x y : str) :
  length p <= length x -> starts_with p (x ++ y) = starts_with p x.
Proof.
  revert x. induction p as [|a p IH]; intros x H; [reflexivity|].
  destruct x as [|b x]; [simpl in H; lia|]. cbn [length] in H.
  cbn [app starts_with]. rewrite IH by lia. reflexivity.
Qed.

Lemma rstrip_fixed_last (x : str) :
  rstrip x = x -> x <> [] -> exists x' z, x = x' ++ [z] /\ is_space z = false.
Proof.
  intros H Hn. destruct (exists_last Hn) as (x' & z & ->).
  exists x', z. split; [reflexivity|].
  destruct (is_space z) eqn:E; [|reflexivity].
  rewrite rstrip_spaces_after in H by (cbn [forallb]; now rewrite E).
  pose proof (length_rstrip x') as Hl. rewrite H, length_app in Hl.
  cbn [length] in Hl. lia.
Qed.

Lemma space_not_blank (z : ascii) : is_space z = false -> Ascii.eqb " " z = false.
Proof.
  intros H. destruct (Ascii.eqb " " z) eqn:E; [|reflexivity].
  apply Ascii.eqb_eq in E. subst z. discriminate.
Qed.

Lemma no_double_blank_join (x' y : str) (z : ascii) :
  occurs [" "; " "] (x' ++ [z]) = false -> is_space z = false ->
  no_lead y -> occurs [" "; " "] y = false ->
  occurs [" "; " "] ((x' ++ [z]) ++ " " :: y) = false.
Proof.
  intros Hx Hz Hy Hoy. induction x' as [|a x' IH].
  - cbn [app occurs starts_with]. rewrite (space_not_blank z Hz). cbn [andb orb].
    rewrite Hoy, orb_false_r.
    destruct y as [|c y]; [reflexivity|]. simpl in Hy.
    rewrite (space_not_blank c Hy). apply andb_false_r.
  - change ((a :: x') ++ [z]) with (a :: x' ++ [z]) in *.
    change ((a :: x' ++ [z]) ++ " " :: y) with (a :: (x' ++ [z]) ++ " " :: y).
    cbn [occurs] in *. apply orb_false_iff in Hx as [H1 H2].
    rewrite (IH H2), orb_false_r.
    change (a :: (x' ++ [z]) ++ " " :: y) with ((a :: x' ++ [z]) ++ " " :: y).
    rewrite starts_with_app_long; [exact H1|].
    cbn [length]. rewrite length_app. cbn [length]. lia.
Qed.

Lemma join_chunks (cs : list str) :
  Forall solid_chunk cs -> cs <> [] -> solid_chunk (join [" "] cs).
Proof.
  induction 1 as [|c cs Hc Hcs IH]; [congruence|]. intros _.
  destruct cs as [|d cs]; [exact Hc|].
  specialize (IH ltac:(discriminate)).
  change (join [" "] (c :: d :: cs)) with (c ++ " " :: join [" "] (d :: cs)).
  set (J := join [" "] (d :: cs)) in *.
  destruct Hc as (C1 & C2 & C3 & C4 & C5). destruct IH as (J1 & J2 & J3 & J4 & J5).
  repeat split.
  - destruct c; [congruence|discriminate].
  - destruct c; [congruence|exact C2].
  - rewrite rstrip_app; cbn [rstrip]; rewrite J3;
      (destruct J; [congruence|]); [reflexivity|discriminate].
  - rewrite forallb_app, C4. cbn [forallb]. now rewrite J4.
  - destruct (rstrip_fixed_last c C3 C1) as (x' & z & -> & Hz).
    now apply no_double_blank_join.
Qed.

Lemma compact_iff_chunk (s : str) : solid_chunk s -> compact s = true.
Proof.
  intros (H1 & H2 & H3 & H4 & H5). unfold compact, stripped.
  rewrite H5. fold unbroken. rewrite H4. cbn [andb negb]. rewrite andb_true_r.
  apply str_eqb_eq. unfold strip. now rewrite (lstrip_id s H2).
Qed.

Lemma full_text_chunks (lines : list str) :
  forallb (forallb unbroken) lines = true ->
  Forall solid_chunk
    (filter nonempty
       (flat_map (fun line => map strip (split_pair " " " " line))
                 (map strip lines))).
Proof.
  induction lines as [|l ls IH]; [constructor|].
  cbn [forallb map flat_map]. intros [Hl Hls]%andb_true_iff.
  rewrite filter_app. apply Forall_app. split; [|now apply IH].
  pose proof (split_pair_pieces " " " " unbroken (length (strip l)) (strip l)
                (le_n _) (forallb_strip _ _ Hl)) as Hp.
  induction (split_pair " " " " (strip l)) as [|p ps IHp]; [constructor|].
  cbn [forallb map filter] in *. apply andb_true_iff in Hp as [Hp Hps].
  apply andb_true_iff in Hp as [Hp1 Hp2]. apply negb_true_iff in Hp1.
  destruct (nonempty (strip p)) eqn:E; [|now apply IHp].
  constructor; [|now apply IHp]. now apply chunk_of_piece.
Qed.

(** X15.  The full text [get_full_text] returns has no line break (no
    character at which [splitlines] breaks), no space at either end, and
    no two blanks U+0020 in a row.  Other spaces that stand inside a
    line, a tab or a no-break space, are kept as they are, also next to
    a blank. *)
Theorem get_full_text_compact (text : str) : compact (get_full_text text) = true.
Proof.
  unfold get_full_text.
  pose proof (full_text_chunks (splitlines text)
                (splitlines_unbroken (length text) text [] (le_n _) eq_refl)) as H.
  destruct (filter nonempty _) as [|c cs] eqn:E; [reflexivity|].
  apply compact_iff_chunk, join_chunks; [assumption|discriminate].
Qed.

Lemma splitlines_from_plain (s : str) : forall cur,
  forallb unbroken s = true ->
  splitlines_from cur s
  = match rev cur ++ s with
    | [] => []
    | l => [l]
    end.
Proof.
  induction s as [|c s IH]; intros cur H.
  - cbn [splitlines_from]. rewrite app_nil_r.
    destruct cur as [|x cur]; [reflexivity|].
    cbn [rev]. now destruct (rev cur).
  - cbn [forallb] in H. apply andb_true_iff in H as [Hc Hs].
    cbn [splitlines_from]. unfold unbroken in Hc. apply negb_true_iff in Hc.
    rewrite Hc, (IH (c :: cur) Hs). cbn [rev]. now rewrite <- app_assoc.
Qed.

Lemma split_pair_none (a b : ascii) (s : str) :
  occurs [a; b] s = false -> split_pair a b s = [s].
Proof.
  induction s as [|x s IH]; [reflexivity|].
  cbn [occurs]. rewrite orb_false_iff. intros [H1 H2].
  destruct s as [|y s]; [reflexivity|].
  change (split_pair a b (x :: y :: s))
    with (if Ascii.eqb x a && Ascii.eqb y b then [] :: split_pair a b s
          else match split_pair a b (y :: s) with
               | [] => [[x]]
               | l :: ls => (x :: l) :: ls
               end).
  cbn [starts_with] in H1. rewrite andb_true_r in H1.
  rewrite (Ascii.eqb_sym x), (Ascii.eqb_sym y), H1. now rewrite IH.
Qed.

Lemma get_full_text_fixed (s : str) : compact s = true -> get_full_text s = s.
Proof.
  unfold compact. rewrite !andb_true_iff, negb_true_iff. intros [[H1 H2] H3].
  destruct s as [|c s]; [reflexivity|].
  unfold get_full_text, splitlines. rewrite splitlines_from_plain by exact H1.
  cbn [rev app map flat_map]. rewrite (stripped_strip _ H2).
  rewrite split_pair_none by assumption. cbn [map app filter].
  rewrite (stripped_strip _ H2). reflexivity.
Qed.

(** X16.  Cleaning a full text again changes nothing:
    [get_full_text] is idempotent. *)
Theorem get_full_text_idempotent (text : str) :
  get_full_text (get_full_text text) = get_full_text text.
Proof.
  apply get_full_text_fixed. unfold get_full_text.
  pose proof (full_text_chunks (splitlines text)
                (splitlines_unbroken (length text) text [] (le_n _) eq_refl)) as H.
  destruct (filter nonempty _) as [|c cs] eqn:E; [reflexivity|].
  apply compact_iff_chunk, join_chunks; [assumption|discriminate].
Qed.

(* ================================================================== *)
(** * Labels that are missing *)
(* ================================================================== *)

Lemma find_after_occurs (lab s : str) :
  occurs lab s = false -> find_after lab s = None.
Proof.
  induction s as [|c s IH]; cbn [occurs find_after]; rewrite orb_false_iff.
  - intros [H _]. now rewrite (strip_prefix_starts _ _ H).
  - intros [H1 H2]. rewrite (strip_prefix_starts _ _ H1). now apply IH.
Qed.


Lemma search_block_occurs (lab : str) (stops : list str) (s : str) :
  occurs lab s = false -> search_block lab stops s = None.
Proof. intros H. unfold search_block. now rewrite find_after_occurs. Qed.

Lemma infix_refl (x : str) : infix x x.
Proof. exists [], []. now rewrite app_nil_r. Qed.

Lemma infix_trans (x y z : str) : infix x y -> infix y z -> infix x z.
Proof.
  intros (a & b & ->) (a' & b' & ->). exists (a' ++ a), (b ++ b').
  now rewrite <- !app_assoc.
Qed.

Lemma infix_prefix (x b : str) : infix x (x ++ b).
Proof. now exists [], b. Qed.

Lemma infix_suffix (a x : str) : infix x (a ++ x).
Proof. exists a, []. now rewrite app_nil_r. Qed.

Lemma infix_cons (c : ascii) (x y : str) : infix x y -> infix x (c :: y).
Proof. intros (a & b & ->). now exists (c :: a), b. Qed.



Lemma find_after_infix (lab s r : str) : find_after lab s = Some r -> infix r s.
Proof.
  induction s as [|c s IH]; cbn [find_after].
  - destruct (strip_prefix lab []) eqn:E; [|discriminate].
    intros [= ->]. apply strip_prefix_Some in E. rewrite E. apply infix_suffix.
  - destruct (strip_prefix lab (c :: s)) eqn:E.
    + intros [= ->]. apply strip_prefix_Some in E. rewrite E. apply infix_suffix.
    + intros H. now apply infix_cons, IH.
Qed.

Lemma lazy_until_infix (stops : list str) (s : str) : infix (lazy_until stops s) s.
Proof.
  induction s as [|c s (a & b & E)]; cbn [lazy_until].
  - destruct (lookahead stops []); apply infix_refl.
  - destruct (lookahead stops (c :: s)); [now exists [], (c :: s)|].
    assert (P : exists b', s = lazy_until stops s ++ b').
    { clear. induction s as [|d s [b' IH]]; cbn [lazy_until].
      - destruct (lookahead stops []); now exists [].
      - destruct (lookahead stops (d :: s)); [now exists (d :: s)|].
        exists b'. cbn [app]. now f_equal. }
    destruct P as [b' P]. exists [], b'. cbn [app]. now f_equal.
Qed.

Lemma strip_infix (x : str) : infix (strip x) x.
Proof.
  unfold strip. destruct (lstrip_suffix x) as [sp E].
  destruct (rstrip_prefix (lstrip x)) as [sp' E'].
  exists sp, sp'. now rewrite <- E'.
Qed.

Lemma split_char_infix (c : ascii) (s : str) :
  match split_char c s with
  | [] => True
  | l0 :: ls => (exists b, s = l0 ++ b) /\ forall l, In l ls -> infix l s
  end.
Proof.
  induction s as [|x s IH]; cbn [split_char].
  - split; [now exists []|intros l []].
  - destruct (Ascii.eqb x c).
    + split; [now exists (x :: s)|]. intros l Hl. apply infix_cons.
      destruct (split_char c s) as [|l0 ls]; [destruct Hl|].
      destruct IH as [[b ->] IH]. destruct Hl as [<-|Hl]; [apply infix_prefix|].
      now apply IH.
    + destruct (split_char c s) as [|l0 ls].
      * split; [now exists s|intros l []].
      * destruct IH as [[b ->] IH]. split; [now exists b|].
        intros l Hl. now apply infix_cons, IH.
Qed.

Lemma split_char_in_infix (c : ascii) (s l : str) :
  In l (split_char c s) -> infix l s.
Proof.
  pose proof (split_char_infix c s) as H.
  destruct (split_char c s) as [|l0 ls]; [intros []|].
  destruct H as [[b ->] H]. intros [<-|Hl]; [apply infix_prefix|now apply H].
Qed.

Lemma parse_meta_content (content t : str) :
  snd (parse_meta content t) = content \/ infix (snd (parse_meta content t)) t.
Proof.
  unfold parse_meta.
  assert (G : forall lines st,
             (forall l, In l lines -> infix l t) ->
             snd st = content \/ infix (snd st) t ->
             let out :=
               fold_left
                 (fun (st : dict str * str) line =>
                    match partition_char ":" line with
                    | Some (name, c) => (dict_set (strip name) (strip c) (fst st), c)
                    | None => st
                    end) lines st in
             snd out = content \/ infix (snd out) t).
  { induction lines as [|l lines IH]; intros st Hl Hst; [exact Hst|].
    cbn [fold_left]. apply IH; [intros l' Hl'; apply Hl; now right|].
    destruct (partition_char ":" l) as [[name c]|] eqn:E; [|exact Hst].
    right. cbn [snd]. apply partition_char_Some in E as [E _].
    apply (infix_trans _ l); [|apply Hl; now left].
    rewrite E. change (name ++ ":" :: c) with (name ++ [":"] ++ c).
    rewrite app_assoc. apply infix_suffix. }
  apply G; [|now left]. intros l. apply split_char_in_infix.
Qed.

Lemma digits1_Some (s g r : str) : digits1 s = Some (g, r) -> s = g ++ r.
Proof.
  unfold digits1.
  assert (E : s = take_while is_digit s ++ drop_while is_digit s).
  { induction s as [|c s IH]; [reflexivity|]. cbn [take_while drop_while].
    destruct (is_digit c); [|reflexivity]. cbn [app]. now f_equal. }
  destruct (take_while is_digit s) eqn:Et; [discriminate|].
  intros [= <- <-]. exact E.
Qed.






(* ================================================================== *)
(** * What the parser returns *)
(* ================================================================== *)

Lemma plain_strip (x : str) : oneline x = true -> plain (strip x) = true.
Proof.
  intros H. unfold plain. now rewrite oneline_strip, stripped_strip_any.
Qed.

Lemma rstrip_suffix_fixed (a b : str) :
  rstrip (a ++ b) = a ++ b -> b <> [] -> rstrip b = b.
Proof.
  intros H Hb. destruct (rstrip b) as [|c r] eqn:E.
  - exfalso. apply rstrip_nil_iff in E.
    rewrite rstrip_spaces_after in H by assumption.
    pose proof (length_rstrip a) as Hl. rewrite H, length_app in Hl.
    destruct b; [congruence|cbn [length] in Hl; lia].
  - rewrite rstrip_app in H by (rewrite E; discriminate).
    rewrite E in H. now apply app_inv_head in H.
Qed.

Lemma lstrip_idem (x : str) : lstrip (lstrip x) = lstrip x.
Proof. apply lstrip_id, lstrip_no_lead. Qed.

Lemma strip_enum_suffix (x : str) : exists a, x = a ++ strip_enum x.
Proof.
  unfold strip_enum. destruct (digits1 x) as [[g [|c r]]|] eqn:E;
    try (now exists []).
  destruct (Ascii.eqb c "."); [|now exists []].
  apply digits1_Some in E. destruct (lstrip_suffix r) as [sp Er].
  exists (g ++ c :: sp). rewrite E at 1. rewrite Er at 1.
  now rewrite <- app_assoc.
Qed.

Lemma strip_enum_plain (x : str) : plain x = true -> plain (strip_enum x) = true.
Proof.
  intros H. destruct (plain_facts _ H) as [Ho Hs].
  assert (Hr : rstrip x = x).
  { apply stripped_rstrip. unfold stripped. now apply str_eqb_eq. }
  unfold strip_enum. destruct (digits1 x) as [[g [|c r]]|] eqn:E; try assumption.
  destruct (Ascii.eqb c "."); [|assumption].
  apply digits1_Some in E. fold (lstrip r).
  destruct (lstrip_suffix r) as [sp Er].
  assert (Ex : x = (g ++ c :: sp) ++ lstrip r).
  { rewrite E at 1. rewrite Er at 1. now rewrite <- app_assoc. }
  unfold plain. apply andb_true_iff. split.
  - rewrite Ex, oneline_app in Ho. now apply andb_true_iff in Ho as [_ Ho].
  - unfold stripped. apply str_eqb_eq. unfold strip. rewrite lstrip_idem.
    destruct (lstrip r) as [|d y] eqn:Ey; [reflexivity|].
    apply (rstrip_suffix_fixed (g ++ c :: sp)); [|discriminate].
    now rewrite <- Ex.
Qed.

Lemma In_split_oneline (s l : str) : In l (split_char nl s) -> oneline l = true.
Proof.
  intros H. pose proof (split_char_all_oneline s) as Ha.
  rewrite forallb_forall in Ha. now apply Ha.
Qed.

Lemma forallb_flat_map {A B} (P : B -> bool) (f : A -> list B) (xs : list A) :
  (forall x, In x xs -> forallb P (f x) = true) ->
  forallb P (flat_map f xs) = true.
Proof.
  induction xs as [|x xs IH]; [reflexivity|]. intros H. cbn [flat_map].
  rewrite forallb_app, H by (now left). apply IH. intros y Hy. apply H. now right.
Qed.

(** X18.  Every paragraph [parse_scraped_content] returns is a non-empty
    text on one line with no space at either end. *)
Theorem parsed_paragraphs_plain (content : str) :
  forallb (fun p => nonempty p && plain p)
          (paragraphs (parse_scraped_content content)) = true.
Proof.
  assert (G : forall t, forallb (fun p => nonempty p && plain p)
                          (parse_paragraphs t) = true).
  { intros t. unfold parse_paragraphs. apply forallb_flat_map. intros line Hl.
    apply In_split_oneline in Hl.
    destruct (nonempty (strip line) && _); [|reflexivity].
    pose proof (strip_enum_plain _ (plain_strip _ Hl)) as Hp.
    destruct (strip_enum (strip line)); [reflexivity|].
    cbn [forallb nonempty andb]. now rewrite Hp. }
  unfold parse_scraped_content.
  destruct (search_block PARAGRAPHS_LABEL _ content) as [g|];
    (destruct (search_block META_LABEL _ content); [destruct (parse_meta _ _)|]);
    cbn [paragraphs]; try reflexivity; apply G.
Qed.

Lemma split_arrow_pair (n : nat) : forall s,
  length s <= n -> split_arrow s = split_pair "-" ">" s.
Proof.
  induction n as [|n IH]; intros s Hn.
  - destruct s; [reflexivity|simpl in Hn; lia].
  - destruct s as [|x [|y s]]; try reflexivity.
    rewrite split_arrow_cons.
    change (split_pair "-" ">" (x :: y :: s))
      with (if Ascii.eqb x "-" && Ascii.eqb y ">" then [] :: split_pair "-" ">" s
            else match split_pair "-" ">" (y :: s) with
                 | [] => [[x]]
                 | l :: ls => (x :: l) :: ls
                 end).
    cbn [length] in Hn. rewrite (IH s), (IH (y :: s)) by (cbn [length]; lia).
    reflexivity.
Qed.

Lemma occurs_strip_enum (w x : str) :
  occurs w x = false -> occurs w (strip_enum x) = false.
Proof.
  intros H. destruct (strip_enum_suffix x) as [a E]. rewrite E in H.
  now apply occurs_app_r in H.
Qed.

Lemma parse_link_line_ok (line : str) (l : Link) :
  oneline line = true -> parse_link_line line = Some l -> link_ok l = true.
Proof.
  intros Ho. unfold parse_link_line.
  destruct (occurs (lit "->") line); [|discriminate].
  pose proof (split_pair_pieces "-" ">" (fun c => negb (Ascii.eqb c nl))
                (length line) line (le_n _) Ho) as Hp.
  rewrite <- (split_arrow_pair (length line)) in Hp by lia.
  destruct (split_arrow line) as [|p0 [|p1 [|p2 ps]]]; try discriminate.
  intros [= <-]. cbn [forallb] in Hp. rewrite andb_true_r in Hp.
  apply andb_true_iff in Hp as [H0 H1].
  apply andb_true_iff in H0 as [A0 O0]. apply andb_true_iff in H1 as [A1 O1].
  apply negb_true_iff in A0, A1.
  unfold link_ok. cbn [link_text href].
  rewrite (strip_enum_plain _ (plain_strip _ O0)), (plain_strip _ O1).
  fold ARROW. change ["-"; ">"] with ARROW in *.
  now rewrite (occurs_strip_enum _ _ (occurs_strip _ _ A0)), (occurs_strip _ _ A1).
Qed.

Lemma parse_links_ok (t : str) : forallb link_ok (parse_links t) = true.
Proof.
  unfold parse_links. apply forallb_flat_map. intros line Hl.
  apply In_split_oneline in Hl.
  destruct (parse_link_line line) as [l|] eqn:E; [|reflexivity].
  cbn [forallb]. now rewrite (parse_link_line_ok _ _ Hl E).
Qed.

(** X19.  Every link [parse_scraped_content] returns has a text and an
    [href] on one line, with no space at either end and without the token
    [->]. *)
Theorem parsed_links_ok (content : str) :
  forallb link_ok (links (parse_scraped_content content)) = true.
Proof.
  unfold parse_scraped_content.
  destruct (search_block LINKS_LABEL _ content) as [g|];
    (destruct (search_block META_LABEL _ content); [destruct (parse_meta _ _)|]);
    cbn [links]; try reflexivity; apply parse_links_ok.
Qed.






















Lemma parse_headings_parsed (t : str) :
  forallb heading_parsed (parse_headings t) = true.
Proof.
  unfold parse_headings. apply forallb_flat_map. intros line Hl.
  apply In_split_oneline in Hl.
  destruct (partition_char ":" line) as [[lv tx]|] eqn:E; [|reflexivity].
  apply partition_char_Some in E as [-> Hc].
  rewrite oneline_app in Hl. apply andb_true_iff in Hl as [H1 H2].
  cbn [oneline forallb] in H2. apply andb_true_iff in H2 as [_ H2].
  cbn [forallb]. unfold heading_parsed. cbn [level text].
  rewrite (plain_strip _ H1), (plain_strip _ H2).
  unfold lacks in *. now rewrite (forallb_strip _ _ Hc).
Qed.

(** X21.  Every heading [parse_scraped_content] returns has a level and
    a text on one line with no space at either end, and its level
    contains no colon. *)
Theorem parsed_headings_plain (content : str) :
  forallb heading_parsed (headings (parse_scraped_content content)) = true.
Proof.
  unfold parse_scraped_content.
  destruct (search_block HEADINGS_LABEL _ content) as [g|];
    (destruct (search_block META_LABEL _ content); [destruct (parse_meta _ _)|]);
    cbn [headings]; try reflexivity; apply parse_headings_parsed.
Qed.

Lemma parse_meta_fold_from (ls : list str) : forall (m : dict str) (c : str),
  fst (fold_left
         (fun (st : dict str * str) line =>
            match partition_char ":" line with
            | Some (name, c) => (dict_set (strip name) (strip c) (fst st), c)
            | None => st
            end) ls (m, c))
  = fold_left (fun m kv => dict_set (fst kv) (snd kv) m)
              (flat_map meta_of_line ls) m.
Proof.
  induction ls as [|l ls IH]; intros m c; [reflexivity|].
  cbn [fold_left flat_map]. rewrite fold_left_app. unfold meta_of_line at 2.
  destruct (partition_char ":" l) as [[name v]|]; cbn [fold_left fst snd];
    apply IH.
Qed.

Lemma parse_meta_fold (content t : str) :
  fst (parse_meta content t)
  = fold_left (fun m kv => dict_set (fst kv) (snd kv) m)
              (flat_map meta_of_line (split_char nl t)) [].
Proof. apply parse_meta_fold_from. Qed.

(** X22.  The meta tags the parser returns bind every name once, and the
    binding of a name is the one of the last line of the block with that
    name: a later line with the same name overwrites an earlier one. *)
Theorem parsed_meta_last_wins (content meta_text : str) :
  let m := fst (parse_meta content meta_text) in
  NoDup (map fst m)
  /\ forall k, dict_get k m
               = last_binding k (flat_map meta_of_line (split_char nl meta_text)).
Proof.
  cbv zeta. rewrite parse_meta_fold. split.
  - apply (fold_dict_set_inv (fun _ => True)); try constructor.
    apply Forall_forall. intros; exact I.
  - intros k. rewrite fold_dict_set_get. now destruct (last_binding k _).
Qed.

Lemma text_dump_stats (d : ScrapedData) :
  text_dump d = before_stats d ++ stats_block d.
Proof.
  rewrite text_dump_parts. unfold before_stats. now rewrite <- !app_assoc.
Qed.

(** X23.  The statistics are read back from the dump of a document as
    its five counts when the dump holds no label of a meta block and
    the label of the first statistics line starts nowhere in front of
    the statistics block, whatever else the fields of the document
    hold. *)
Theorem stats_block_read_back (d : ScrapedData) :
  occurs META_LABEL (text_dump d) = false ->
  no_start FULL_TEXT_LENGTH (before_stats d) (stats_block d) = true ->
  statistics (parse_scraped_content (text_dump d)) = written_statistics d.
Proof.
  intros Hm Hs. destruct (parse_fields (text_dump d)) as (_ & _ & _ & _ & E).
  rewrite E by now apply search_block_occurs.
  rewrite text_dump_stats, stats_search_skip by assumption.
  rewrite (stats_search_here _ _ (stats_at_block d)).
  unfold stats_dict, written_statistics. now rewrite !int_of_str_of_nat.
Qed.

Lemma stats_block_read_back_witness :
  statistics (parse_scraped_content (text_dump small_page))
  = written_statistics small_page.
Proof. apply (stats_block_read_back small_page); reflexivity. Defined.



(* ================================================================== *)
(** * The files of a run *)
(* ================================================================== *)

Lemma infix_length (x y : str) : infix x y -> length x <= length y.
Proof. intros (a & b & ->). rewrite !length_app. lia. Qed.

Lemma stats_at_groups (s g1 g2 g3 g4 g5 : str) :
  stats_at s = Some (g1, g2, g3, g4, g5) ->
  Forall (fun g => length g <= length s) [g1; g2; g3; g4; g5].
Proof.
  unfold stats_at.
  destruct (strip_prefix FULL_TEXT_LENGTH s) as [r0|] eqn:E0; [|discriminate].
  destruct (digits1 r0) as [[h1 r1]|] eqn:E1; [|discriminate].
  destruct (strip_prefix (CHARACTERS ++ [nl] ++ TOTAL_HEADINGS) r1) as [r2|] eqn:E2;
    [|discriminate].
  destruct (digits1 r2) as [[h2 r3]|] eqn:E3; [|discriminate].
  destruct (strip_prefix ([nl] ++ TOTAL_PARAGRAPHS) r3) as [r4|] eqn:E4; [|discriminate].
  destruct (digits1 r4) as [[h3 r5]|] eqn:E5; [|discriminate].
  destruct (strip_prefix ([nl] ++ TOTAL_LINKS) r5) as [r6|] eqn:E6; [|discriminate].
  destruct (digits1 r6) as [[h4 r7]|] eqn:E7; [|discriminate].
  destruct (strip_prefix ([nl] ++ TOTAL_IMAGES) r7) as [r8|] eqn:E8; [|discriminate].
  destruct (digits1 r8) as [[h5 r9]|] eqn:E9; [|discriminate].
  intros [= <- <- <- <- <-].
  apply strip_prefix_Some in E0, E2, E4, E6, E8.
  apply digits1_Some in E1, E3, E5, E7, E9.
  apply (f_equal (@length ascii)) in E0, E1, E2, E3, E4, E5, E6, E7, E8, E9.
  rewrite !length_app in *.
  repeat constructor; lia.
Qed.

Lemma stats_search_groups (s g1 g2 g3 g4 g5 : str) :
  stats_search s = Some (g1, g2, g3, g4, g5) ->
  Forall (fun g => length g <= length s) [g1; g2; g3; g4; g5].
Proof.
  induction s as [|c s IH]; cbn [stats_search].
  - destruct (stats_at []) eqn:E; [|discriminate]. intros [= ->].
    now apply stats_at_groups.
  - destruct (stats_at (c :: s)) eqn:E.
    + intros [= ->]. now apply stats_at_groups.
    + intros H. specialize (IH H). eapply Forall_impl; [|exact IH].
      cbn [length]. intros g Hg. lia.
Qed.

Lemma stats_text_length (content : str) :
  length (stats_text content) <= length content.
Proof.
  unfold stats_text, search_block.
  destruct (find_after META_LABEL content) as [r|] eqn:E; [|lia].
  pose proof (infix_length _ _ (find_after_infix _ _ _ E)) as H1.
  pose proof (infix_length _ _ (lazy_until_infix [lit "FULL TEXT"] r)) as H2.
  pose proof (infix_length _ _ (strip_infix (lazy_until [lit "FULL TEXT"] r))) as H3.
  destruct (parse_meta_content content (strip (lazy_until [lit "FULL TEXT"] r)))
    as [->|H4]; [lia|].
  apply infix_length in H4. lia.
Qed.

(** The parse of a text of at most 4300 characters does not raise. *)
Lemma parse_raises_short (content : str) :
  length content <= MAX_STR_DIGITS -> parse_raises content = false.
Proof.
  intros Hn. unfold parse_raises. pose proof (stats_text_length content) as Ht.
  destruct (stats_search (stats_text content)) as [[[[[g1 g2] g3] g4] g5]|] eqn:E;
    [|reflexivity].
  apply stats_search_groups in E.
  assert (F : Forall (fun g => int_raises g = false) [g1; g2; g3; g4; g5]).
  { eapply Forall_impl; [|exact E]. intros g Hg. cbv beta in Hg.
    unfold int_raises. apply Nat.ltb_ge. lia. }
  inversion F as [|? ? F1 F']; subst. inversion F' as [|? ? F2 F'']; subst.
  inversion F'' as [|? ? F3 F3']; subst. inversion F3' as [|? ? F4 F4']; subst.
  inversion F4' as [|? ? F5 _]; subst.
  cbn [existsb]. now rewrite F1, F2, F3, F4, F5.
Qed.

Section FilesProcessed.

Variable fs : str -> option str.
Variable clock : nat -> str.

Lemma process_loop_saved (txt_files : list str) : forall st,
  let out := process_loop fs clock st txt_files in
  map fst (saved out)
  = map fst (saved st)
    ++ filter (fun f => parsable (read_txt_file fs f)) txt_files
  /\ processed_count out
     = processed_count st
       + length (filter (fun f => parsable (read_txt_file fs f)) txt_files)
  /\ (Forall (fun fp => exists t, snd fp = preprocess_content t
                (parse_scraped_content (read_txt_file fs (fst fp)))) (saved st) ->
      Forall (fun fp => exists t, snd fp = preprocess_content t
                (parse_scraped_content (read_txt_file fs (fst fp)))) (saved out)).
Proof.
  induction txt_files as [|f files IH]; intros st.
  - cbn. rewrite app_nil_r. repeat split; [lia|trivial].
  - cbn [process_loop filter].
    assert (Ep : parsable (read_txt_file fs f)
                 = match read_txt_file fs f with
                   | [] => false
                   | content => negb (parse_raises content)
                   end).
    { unfold parsable. now destruct (read_txt_file fs f). }
    rewrite !Ep. clear Ep.
    destruct (read_txt_file fs f) as [|c content] eqn:E;
      [|destruct (parse_raises (c :: content)) eqn:Er];
      match goal with
      | |- context [process_loop fs clock ?s files] =>
          destruct (IH s) as (H1 & H2 & H3)
      end;
      cbn [saved processed_count failed_count visited negb] in *;
      rewrite H1, H2.
    + repeat split; try lia. exact H3.
    + repeat split; try lia. exact H3.
    + rewrite map_app, <- app_assoc. cbn [map fst app length].
      repeat split; try lia. intros H. apply H3.
      apply Forall_app. split; [assumption|].
      repeat constructor. cbn [fst snd]. rewrite E. eexists. reflexivity.
Qed.

(** X9.  [process_all_files] visits every file of the folder.  It hands
    to [save_processed_data], in order, the files whose content can be
    read, is not empty and is parsed without an exception, each with the
    normalized parse of its content, and counts them as processed; every
    other file is counted as failed.  The parse raises only when a count
    of the statistics block has more than 4300 digits, so no file of at
    most 4300 characters fails that way. *)
Theorem process_all_files_saves_parsed (txt_files : list str) :
  let out := process_all_files fs clock txt_files in
  let done := filter (fun f => parsable (read_txt_file fs f)) txt_files in
  visited out = txt_files
  /\ map fst (saved out) = done
  /\ processed_count out = length done
  /\ processed_count out + failed_count out = length txt_files
  /\ Forall (fun fp => exists t, snd fp = preprocess_content t
               (parse_scraped_content (read_txt_file fs (fst fp)))) (saved out)
  /\ (forall f, length (read_txt_file fs f) <= MAX_STR_DIGITS ->
                parsable (read_txt_file fs f) = nonempty (read_txt_file fs f)).
Proof.
  destruct (process_loop_total fs clock txt_files (mkProgress 0 0 [] [])) as (H1 & H2).
  destruct (process_loop_saved txt_files (mkProgress 0 0 [] [])) as (H3 & H4 & H5).
  unfold process_all_files. cbn [saved processed_count failed_count visited] in *.
  repeat split; try assumption.
  - apply H5. constructor.
  - intros f Hf. unfold parsable. rewrite parse_raises_short by assumption.
    apply andb_true_r.
Qed.

End FilesProcessed.

(** A file whose statistics block holds a count of 4301 digits is
    counted as failed, and nothing is saved for it. *)
Lemma long_count_fails :
  let content := lit "FULL TEXT LENGTH: " ++ repeat "1" 4301 ++ lit " characters"
                 ++ [nl] ++ lit "TOTAL HEADINGS: 0" ++ [nl]
                 ++ lit "TOTAL PARAGRAPHS: 0" ++ [nl] ++ lit "TOTAL LINKS: 0" ++ [nl]
                 ++ lit "TOTAL IMAGES: 0" ++ [nl] in
  let out := process_all_files (fun _ => Some content) (fun _ => [])
               [lit "page.txt"] in
  failed_count out = 1 /\ processed_count out = 0 /\ saved out = [].
Proof. vm_compute. repeat split. Qed.
